(** * rollup-plugin-chrome-package: the manifest build pipeline

    A shallow embedding of the manifest pipeline of [dist/index-esm.js]
    (permission combination, file derivation, the MV3 manifest rewrite,
    the [manifest-input] plugin hooks and their cache), with the
    properties of the pipeline stated and proved over it.

    Conventions of the embedding:
    - a JavaScript string is a [string]; a value that may be [undefined]
      is an [option];
    - a JavaScript [Set] of strings is the list of its members in
      insertion order (what spreading or [Array.from] yields);
    - a plain object used as a record, and a [Map], is a [gmap];
    - a function that can throw returns a [result];
    - a function that mutates one of its arguments returns the argument's
      final state next to its result;
    - functions of other packages (Node's [path], [glob], the WHATWG
      [URL], the schema validator, cosmiconfig) are the fields of the
      classes [Platform] and [Collaborators]; [Posix] gives a small
      instance to evaluate the pipeline on. *)

From stdpp Require Import gmap strings list.
From Stdlib Require Import Ascii.

Local Open Scope string_scope.
Local Open Scope list_scope.

(** ** Results of functions that can throw *)

(** The exceptions of the pipeline, one constructor per [throw]; an
    exception raised by the runtime or by a collaborator carries a note
    of where it comes from. *)
Inductive error : Type :=
  | SrcDirNullOrUndefined
  | ScriptNamesShared (filename name : string)
  | ManifestNotInInput
  | ManifestDoesNotExist (filename : string)
  | InputTypeNotSupported
  | EmptyManifestFile
  | OptionsBothDefined
  | MultipleChunkFileNames
  | ManifestInvalid
  | RuntimeTypeError (site : string)
  | CollaboratorError (site : string).

Inductive error_class : Type := IsTypeError | IsError.

Definition class_of (e : error) : error_class :=
  match e with
  | SrcDirNullOrUndefined | InputTypeNotSupported | MultipleChunkFileNames
  | RuntimeTypeError _ => IsTypeError
  | _ => IsError
  end.

(** The message, where the source gives it as a literal. *)
Definition message_of (e : error) : option string :=
  match e with
  | SrcDirNullOrUndefined => Some "srcDir is null or undefined"
  | OptionsBothDefined =>
      Some "options_ui and options_page cannot both be defined in manifest.json."
  | MultipleChunkFileNames =>
      Some "Multiple output values for chunkFileNames are not supported"
  | _ => None
  end.

Inductive result (A : Type) : Type :=
  | Ok (a : A)
  | Throw (e : error).

Arguments Ok {A} a.
Arguments Throw {A} e.

#[global] Instance result_ret : MRet result := @Ok.

#[global] Instance result_bind : MBind result := λ A B k r,
  match r with
  | Ok a => k a
  | Throw e => Throw e
  end.

(** [l.map(f)] when [f] can throw: the first exception aborts the map. *)
Fixpoint rmapM {A B : Type} (f : A → result B) (l : list A) : result (list B) :=
  match l with
  | [] => Ok []
  | x :: l' => y ← f x; ys ← rmapM f l'; Ok (y :: ys)
  end.

(** ** JavaScript strings *)

Module Js.

(** [s.startsWith(p)] *)
Definition startsWith (p s : string) : bool := String.prefix p s.

(** [s.slice(n)] for a non-negative [n] *)
Fixpoint slice (n : nat) (s : string) : string :=
  match n, s with
  | O, _ => s
  | S _, EmptyString => EmptyString
  | S n', String _ s' => slice n' s'
  end.

(** [s.endsWith(p)] *)
Definition endsWith (p s : string) : bool :=
  String.prefix (String.rev p) (String.rev s).

(** [s.replace(pat, rep)] with a string pattern: the first occurrence
    only. *)
Fixpoint replace (pat rep s : string) : string :=
  if String.prefix pat s then rep +:+ slice (String.length pat) s
  else match s with
       | EmptyString => EmptyString
       | String c s' => String c (replace pat rep s')
       end.

(** [s.split(sep)] for a non-empty separator string. [skip] counts the
    characters of a separator just matched that are still to be passed
    over, [cur] is the piece being read. *)
Fixpoint split_go (sep : string) (skip : nat) (cur s : string) : list string :=
  match s with
  | EmptyString => [cur]
  | String c s' =>
      match skip with
      | S k => split_go sep k cur s'
      | O =>
          if String.prefix sep s
          then cur :: split_go sep (String.length sep - 1) EmptyString s'
          else split_go sep 0 (cur +:+ String c EmptyString) s'
      end
  end.

Definition split (sep s : string) : list string := split_go sep 0 EmptyString s.

(** [l.join(sep)] on an array of strings *)
Fixpoint join (sep : string) (l : list string) : string :=
  match l with
  | [] => EmptyString
  | [x] => x
  | x :: l' => x +:+ sep +:+ join sep l'
  end.

(** [l.slice(0, -1)] *)
Definition init {A : Type} (l : list A) : list A := take (List.length l - 1) l.

(** [Array.from(new Set(l))]: the members in order of first insertion. *)
Fixpoint uniq (l : list string) : list string :=
  match l with
  | [] => []
  | x :: l' => x :: filter (λ y, y ≠ x) (uniq l')
  end.

(** [set.add(x)] on a set kept in insertion order *)
Definition set_add (x : string) (s : list string) : list string :=
  if bool_decide (x ∈ s) then s else s ++ [x].

(** Whether [sep] occurs in [s], and whether the character [c] does. *)
Fixpoint occurs (sep s : string) : bool :=
  String.prefix sep s
  || match s with
     | EmptyString => false
     | String _ s' => occurs sep s'
     end.

Fixpoint has_char (c : ascii) (s : string) : bool :=
  match s with
  | EmptyString => false
  | String d s' => bool_decide (c = d) || has_char c s'
  end.

(** ASCII lower case, for regular expressions with the [i] flag *)
Definition lower_ascii (c : ascii) : ascii :=
  let n := nat_of_ascii c in
  if (65 <=? n)%nat && (n <=? 90)%nat then ascii_of_nat (n + 32) else c.

Fixpoint toLowerCase (s : string) : string :=
  match s with
  | EmptyString => EmptyString
  | String c s' => String (lower_ascii c) (toLowerCase s')
  end.

End Js.

(** ** [combinePerms] *)

(** An argument of [combinePerms]: a permission string, [undefined], or
    an array of such, nested to any depth. *)
#[warnings="-register-all"]
Inductive perm_arg : Type :=
  | PermStr (s : string)
  | PermUndefined
  | PermArr (l : list perm_arg).

(** [x.flat(Infinity)] on one element *)
Fixpoint flat_arg (a : perm_arg) : list (option string) :=
  match a with
  | PermStr s => [Some s]
  | PermUndefined => [None]
  | PermArr l =>
      (fix go (l : list perm_arg) : list (option string) :=
         match l with
         | [] => []
         | x :: l' => flat_arg x ++ go l'
         end) l
  end.

(** [permissions.flat(Infinity)] *)
Definition flat_inf (permissions : list perm_arg) : list (option string) :=
  flat_arg (PermArr permissions).

(** The accumulator of the reduction: the two sets. *)
Record perm_acc : Type := PermAcc { perms : list string; xperms : list string }.

Definition combine_step (acc : perm_acc) (perm : string) : perm_acc :=
  if Js.startsWith "!" perm
  then PermAcc (perms acc) (Js.set_add (Js.slice 1 perm) (xperms acc))
  else PermAcc (Js.set_add perm (perms acc)) (xperms acc).

Definition combinePerms (permissions : list perm_arg) : list string :=
  let defined := omap id (flat_inf permissions) in
  let acc := fold_left combine_step defined (PermAcc [] []) in
  filter (λ p, p ∉ xperms acc) (perms acc).

(** ** Functions of other packages

    Node's [path] ([join], [relative], [basename], [dirname]), the
    [slash] package, [glob] ([hasMagic], [sync] with its [cwd] option),
    [fs.existsSync], the [origin] of a WHATWG [URL] ([None] when the
    constructor rejects the string with its [TypeError]) and the global
    [unescape]. *)

Class Platform : Type := {
  path_join : string → string → string;
  path_relative : string → string → string;
  path_basename : string → string;
  path_dirname : string → string;
  slash : string → string;
  glob_hasMagic : string → bool;
  glob_sync : string → string → list string;
  existsSync : string → bool;
  url_origin : string → option string;
  unescape : string → string;
}.

(** ** The manifest

    The records follow the manifest typings of the TypeScript source
    ([chrome.runtime.ManifestV2 | ManifestV3], told apart by
    [manifest_version]) and hold the fields the pipeline reads. A field
    that may be absent is an [option]; an object read through
    [Object.values] is the list of its entries in enumeration order. *)

Record ContentScript : Type := {
  cs_matches : option (list string);
  cs_js : option (list string);
  cs_css : option (list string);
}.

(** [default_icon]: one path, or a map from size to path. *)
Inductive IconSpec : Type :=
  | IconPath (p : string)
  | IconMap (entries : list (string * string)).

Record Action : Type := {
  default_popup : option string;
  default_icon : option IconSpec;
}.

Record OptionsUi : Type := { ui_page : option string }.

Record ManifestCommon : Type := {
  name : option string;
  version : option string;
  description : option string;
  default_locale : option string;
  content_scripts : option (list ContentScript);
  options_page : option string;
  options_ui : option OptionsUi;
  devtools_page : option string;
  chrome_url_overrides : option (list (string * string));
  icons : option (list (string * string));
  permissions : option (list string);
}.

Record BackgroundV2 : Type := {
  bg_scripts : option (list string);
  bg_page : option string;
}.

Record ManifestV2 : Type := {
  v2_common : ManifestCommon;
  v2_background : option BackgroundV2;
  browser_action : option Action;
  page_action : option Action;
  v2_web_accessible_resources : option (list string);
}.

Record BackgroundV3 : Type := {
  service_worker : option string;
  bg_type : option string;
}.

(** An entry of the MV3 [web_accessible_resources]. *)
Record ResourceRule : Type := {
  resources : list string;
  matches : list string;
}.

Record ManifestV3 : Type := {
  v3_common : ManifestCommon;
  v3_background : option BackgroundV3;
  action : option Action;
  host_permissions : option (list string);
  v3_web_accessible_resources : option (list ResourceRule);
}.

Inductive Manifest : Type :=
  | MV2 (m : ManifestV2)
  | MV3 (m : ManifestV3).

Definition manifest_version (m : Manifest) : Z :=
  match m with MV2 _ => 2 | MV3 _ => 3 end.

Definition common (m : Manifest) : ManifestCommon :=
  match m with MV2 m2 => v2_common m2 | MV3 m3 => v3_common m3 end.

(** [isMV2] and [isMV3] on a manifest that is present; the pipeline
    branches on them by matching on the constructor. *)
Definition isMV2 (m : Manifest) : bool := bool_decide (manifest_version m = 2%Z).
Definition isMV3 (m : Manifest) : bool := bool_decide (manifest_version m = 3%Z).

(** [cloneObject = JSON.parse(JSON.stringify(obj))]: a deep copy. The
    values of the embedding are immutable trees, so the copy is the tree
    itself; what matters is that later writes go to the copy. *)
Definition cloneObject {A : Type} (obj : A) : A := obj.

(** ** [deriveFiles] *)

Record DerivedFiles : Type := {
  d_css : list string;
  d_contentScripts : list string;
  d_js : list string;
  d_html : list string;
  d_img : list string;
  d_others : list string;
}.

Record DeriveOptions : Type := { opt_contentScripts : bool }.

(** The local arrays of a derivation: [css], [contentScripts], [js],
    [html], [img] and [others]. *)
Record Arrays : Type := {
  a_css : list (option string);
  a_contentScripts : list (option string);
  a_js : list (option string);
  a_html : list (option string);
  a_img : list (option string);
  a_others : list (option string);
}.

(** [/\.[jt]sx?$/.test(f)] *)
Definition is_script (f : string) : bool :=
  Js.endsWith ".js" f || Js.endsWith ".ts" f
  || Js.endsWith ".jsx" f || Js.endsWith ".tsx" f.

(** [/\.html?$/.test(f)] *)
Definition is_html (f : string) : bool :=
  Js.endsWith ".htm" f || Js.endsWith ".html" f.

(** [f.endsWith('.css')] *)
Definition is_css (f : string) : bool := Js.endsWith ".css" f.

(** [/\.(jpe?g|png|svg|tiff?|gif|webp|bmp|ico)$/i.test(f)] *)
Definition is_img (f : string) : bool :=
  let g := Js.toLowerCase f in
  existsb (λ ext, Js.endsWith ext g)
    [".jpg"; ".jpeg"; ".png"; ".svg"; ".tif"; ".tiff"; ".gif"; ".webp";
     ".bmp"; ".ico"].

(** [Object.values(o)] on a map object *)
Definition object_values (o : list (string * string)) : list string := o.*2.

(** [Object.values(get(manifest, '….default_icon', {}))] in the MV3
    path: the values of the map; on a string, its characters. *)
Definition icon_values (i : option IconSpec) : list string :=
  match i with
  | None => []
  | Some (IconMap entries) => object_values entries
  | Some (IconPath p) => (λ c, String c EmptyString) <$> String.list_ascii_of_string p
  end.

(** The icons an MV2 action contributes to [actionIconSet]. *)
Definition action_icons (a : option Action) : list string :=
  match a ≫= default_icon with
  | None => []
  | Some (IconPath p) => [p]
  | Some (IconMap entries) => object_values entries
  end.

(** [difference(array, ...values)] of lodash, the values flattened. *)
Definition difference (array : list string) (values : list (option string)) : list string :=
  filter (λ f, Some f ∉ values) array.

Section Derive.
Context `{Pf : Platform}.

Definition locales (m : ManifestCommon) : list string :=
  match default_locale m with
  | Some _ => ["_locales/**/messages.json"]
  | None => []
  end.

(** The reduction that expands the entries with glob syntax. *)
Definition expand_globs (srcDir : string) (entries : list string) : list string :=
  fold_left
    (λ r x,
       if glob_hasMagic x
       then r ++ ((λ f, Js.replace srcDir "" f) <$> glob_sync x srcDir)
       else r ++ [x])
    entries [].

Definition content_script_js (m : ManifestCommon) : list string :=
  fold_left (λ r c, r ++ default [] (cs_js c)) (default [] (content_scripts m)) [].

Definition content_script_css (m : ManifestCommon) : list string :=
  fold_left (λ r c, r ++ default [] (cs_css c)) (default [] (content_scripts m)) [].

(** [validate(ary)]: the strings of [ary], de-duplicated, joined to the
    source directory. *)
Definition validate (srcDir : string) (ary : list (option string)) : list string :=
  path_join srcDir <$> Js.uniq (omap id ary).

(** The arrays a derivation builds before it validates them; an entry
    read from an absent field is [undefined]. *)
Definition arraysMV3 (manifest : ManifestV3) (srcDir : string)
    (options : DeriveOptions) : Arrays :=
  let c := v3_common manifest in
  let files :=
    expand_globs srcDir
      ((default [] (v3_web_accessible_resources manifest) ≫= resources)
         ++ locales c) in
  let contentScripts := content_script_js c in
  let js :=
    (Some <$> filter (λ f, is_script f) files)
      ++ [v3_background manifest ≫= service_worker]
      ++ (if opt_contentScripts options then Some <$> contentScripts else []) in
  let html :=
    (Some <$> filter (λ f, is_html f) files)
      ++ [options_page c; options_ui c ≫= ui_page; devtools_page c;
          action manifest ≫= default_popup]
      ++ (Some <$> object_values (default [] (chrome_url_overrides c))) in
  let css :=
    (Some <$> filter (λ f, is_css f) files) ++ (Some <$> content_script_css c) in
  let img :=
    (Some <$> filter (λ f, is_img f) files)
      ++ (Some <$> object_values (default [] (icons c)))
      ++ (Some <$> icon_values (action manifest ≫= default_icon)) in
  let others :=
    difference files (css ++ (Some <$> contentScripts) ++ js ++ html ++ img) in
  {| a_css := css; a_contentScripts := Some <$> contentScripts; a_js := js;
     a_html := html; a_img := img; a_others := Some <$> others |}.

(** The object a derivation returns: each array validated. *)
Definition validated (srcDir : string) (a : Arrays) : DerivedFiles :=
  {| d_css := validate srcDir (a_css a);
     d_contentScripts := validate srcDir (a_contentScripts a);
     d_js := validate srcDir (a_js a);
     d_html := validate srcDir (a_html a);
     d_img := validate srcDir (a_img a);
     d_others := validate srcDir (a_others a) |}.

Definition deriveFilesMV3 (manifest : ManifestV3) (srcDir : string)
    (options : DeriveOptions) : DerivedFiles :=
  validated srcDir (arraysMV3 manifest srcDir options).

(** [actionIconSet]: a [Set] filled from the two action fields. *)
Definition actionIconSet (manifest : ManifestV2) : list string :=
  fold_left
    (λ set a, fold_left (λ s x, Js.set_add x s) (action_icons a) set)
    [browser_action manifest; page_action manifest] [].

Definition arraysMV2 (manifest : ManifestV2) (srcDir : string)
    (options : DeriveOptions) : Arrays :=
  let c := v2_common manifest in
  let files :=
    expand_globs srcDir
      (default [] (v2_web_accessible_resources manifest) ++ locales c) in
  let contentScripts := content_script_js c in
  let js :=
    (Some <$> filter (λ f, is_script f) files)
      ++ (Some <$> default [] (v2_background manifest ≫= bg_scripts))
      ++ (if opt_contentScripts options then Some <$> contentScripts else []) in
  let html :=
    (Some <$> filter (λ f, is_html f) files)
      ++ [v2_background manifest ≫= bg_page; options_page c;
          options_ui c ≫= ui_page; devtools_page c;
          browser_action manifest ≫= default_popup;
          page_action manifest ≫= default_popup]
      ++ (Some <$> object_values (default [] (chrome_url_overrides c))) in
  let css :=
    (Some <$> filter (λ f, is_css f) files) ++ (Some <$> content_script_css c) in
  let img :=
    (Some <$> actionIconSet manifest)
      ++ (Some <$> filter (λ f, is_img f) files)
      ++ (Some <$> object_values (default [] (icons c))) in
  let others :=
    difference files (css ++ (Some <$> contentScripts) ++ js ++ html ++ img) in
  {| a_css := css; a_contentScripts := Some <$> contentScripts; a_js := js;
     a_html := html; a_img := img; a_others := Some <$> others |}.

Definition deriveFilesMV2 (manifest : ManifestV2) (srcDir : string)
    (options : DeriveOptions) : DerivedFiles :=
  validated srcDir (arraysMV2 manifest srcDir options).

(** The arrays of the derivation the manifest version selects. *)
Definition arrays (manifest : Manifest) (srcDir : string)
    (options : DeriveOptions) : Arrays :=
  match manifest with
  | MV3 m => arraysMV3 m srcDir options
  | MV2 m => arraysMV2 m srcDir options
  end.

Definition deriveFiles (manifest : Manifest) (srcDir : string)
    (options : DeriveOptions) : DerivedFiles :=
  match manifest with
  | MV3 m => deriveFilesMV3 m srcDir options
  | MV2 m => deriveFilesMV2 m srcDir options
  end.

(** The manifest entries a derivation joins to the source directory. *)
Definition entries (a : Arrays) : list string :=
  omap id (a_css a ++ a_contentScripts a ++ a_js a ++ a_html a ++ a_img a
             ++ a_others a).

End Derive.

(** ** [reduceToRecord] *)

(** The property names every plain object inherits from
    [Object.prototype]; the [in] operator sees them. *)
Definition object_prototype_keys : list string :=
  ["constructor"; "__defineGetter__"; "__defineSetter__"; "hasOwnProperty";
   "__lookupGetter__"; "__lookupSetter__"; "isPrototypeOf";
   "propertyIsEnumerable"; "toString"; "valueOf"; "__proto__";
   "toLocaleString"].

(** [name in inputRecord] *)
Definition has_property (name : string) (inputRecord : gmap string string) : bool :=
  bool_decide (is_Some (inputRecord !! name))
  || bool_decide (name ∈ object_prototype_keys).

Section Entries.
Context `{Pf : Platform}.

(** [relative(srcDir, filename).split('.').slice(0, -1).join('.')] *)
Definition entry_name (srcDir filename : string) : string :=
  Js.join "." (Js.init (Js.split "." (path_relative srcDir filename))).

(** The function [reduceToRecord] returns. *)
Definition reducer (dir : string)
    : gmap string string → string → result (gmap string string) :=
  λ inputRecord filename,
    let name := entry_name dir filename in
    if has_property name inputRecord
    then Throw (ScriptNamesShared filename name)
    else Ok (<[name := filename]> inputRecord).

Definition reduceToRecord (srcDir : option string)
    : result (gmap string string → string → result (gmap string string)) :=
  match srcDir with
  | None => Throw SrcDirNullOrUndefined
  | Some dir => Ok (reducer dir)
  end.

(** [ary.reduce(f, init)] with a reducer that can throw *)
Fixpoint reduce (f : gmap string string → string → result (gmap string string))
    (ary : list string) (init : gmap string string) : result (gmap string string) :=
  match ary with
  | [] => Ok init
  | x :: ary' => r ← f init x; reduce f ary' r
  end.

(** [ary.reduce(reduceToRecord(srcDir), init)]: the reducer is built,
    and may throw, before the first element is looked at. *)
Definition reduce_to_record (srcDir : option string) (ary : list string)
    (init : gmap string string) : result (gmap string string) :=
  f ← reduceToRecord srcDir; reduce f ary init.

(** No name is taken twice: neither the record the fold starts from
    nor an earlier entry of the list has the name of an entry. *)
Definition names_free (dir : string) (paths : list string)
    (init : gmap string string) : Prop :=
  NoDup (entry_name dir <$> paths)
  ∧ ∀ p, p ∈ paths → init !! entry_name dir p = None.

End Entries.

(** ** [convertMatchPatterns] *)

Fixpoint intersperse (sep : string) (l : list string) : list string :=
  match l with
  | [] => []
  | [x] => [x]
  | x :: l' => x :: sep :: intersperse sep l'
  end.

(** [s.split(re)] where [re] captures a colon followed by a star: the
    pieces between the occurrences of the wildcard port, with the
    captured separator between them. *)
Definition split_wild_port (s : string) : list string :=
  intersperse ":*" (Js.split ":*" s).

(** An array element in [join('')]: [undefined] gives the empty string. *)
Definition joined (o : option string) : string := default "" o.

(** A value in a template literal: [undefined] prints as such. *)
Definition interpolated (o : option string) : string := default "undefined" o.

Section MatchPatterns.
Context `{Pf : Platform}.

Definition convertMatchPatterns (m : string) : result string :=
  let parts := Js.split "://" m in
  let scheme := parts !! 0%nat in
  match parts !! 1%nat with
  | None => Throw (RuntimeTypeError "rest.split: rest is undefined")
  | Some rest =>
      let pieces := split_wild_port rest in
      let a := pieces !! 0%nat in
      let port := pieces !! 1%nat in
      let b := pieces !! 2%nat in
      let isWildPort := bool_decide (port = Some ":*") in
      let frag :=
        if isWildPort then interpolated a +:+ ":3333" +:+ interpolated b
        else rest in
      match url_origin ("http://" +:+ frag) with
      | None => Throw (RuntimeTypeError "new URL: invalid URL")
      | Some origin =>
          match Js.split "://" origin !! 1%nat with
          | None => Throw (RuntimeTypeError "base.split: base is undefined")
          | Some base =>
              let xy := Js.split ":3333" base in
              let x := xy !! 0%nat in
              let y := xy !! 1%nat in
              let final :=
                if isWildPort then joined x +:+ joined port +:+ joined y
                else base in
              Ok (unescape (interpolated scheme +:+ "://" +:+ final +:+ "/*"))
          end
      end
  end.

(** [target.replace(base, `import-${base}`)], for a base name without a
    dollar sign: the replacement is then inserted as it is. *)
Definition getImportContentScriptFileName (target : string) : string :=
  let base := path_basename target in
  Js.replace base ("import-" +:+ base) target.

End MatchPatterns.

(** ** Rollup options *)

Record OutputOptions : Type := { chunkFileNames : option string }.

(** [options.output]: one output, or an array of them. *)
Inductive RollupOutput : Type :=
  | OutputObject (o : OutputOptions)
  | OutputArray (outs : list OutputOptions).

(** [options.input]: an array of paths, a record of named paths, one
    path, or something else. *)
Inductive RollupInput : Type :=
  | InputArray (paths : list string)
  | InputObject (entries : gmap string string)
  | InputString (path : string)
  | InputOther.

Record RollupOptions : Type := {
  input : RollupInput;
  output : option RollupOutput;
}.

(** ** The build cache *)

Module Cache.

Record t : Type := {
  assetChanged : bool;
  assets : list string;
  contentScripts : list string;
  iife : list string;
  input : list string;
  inputAry : list string;
  inputObj : gmap string string;
  permsHash : string;
  readFile : gmap string (list Byte.byte);
  srcDir : option string;
  manifest : option Manifest;
  chunkFileNames : option string;
}.

(** The cache a plugin instance starts with. *)
Definition initial : t :=
  {| assetChanged := false; assets := []; contentScripts := []; iife := [];
     input := []; inputAry := []; inputObj := ∅; permsHash := "";
     readFile := ∅; srcDir := None; manifest := None;
     chunkFileNames := None |}.

Definition set_assetChanged (v : bool) (c : t) : t :=
  {| assetChanged := v; assets := assets c; contentScripts := contentScripts c;
     iife := iife c; input := input c; inputAry := inputAry c;
     inputObj := inputObj c; permsHash := permsHash c; readFile := readFile c;
     srcDir := srcDir c; manifest := manifest c;
     chunkFileNames := chunkFileNames c |}.

Definition set_assets (v : list string) (c : t) : t :=
  {| assetChanged := assetChanged c; assets := v;
     contentScripts := contentScripts c; iife := iife c; input := input c;
     inputAry := inputAry c; inputObj := inputObj c; permsHash := permsHash c;
     readFile := readFile c; srcDir := srcDir c; manifest := manifest c;
     chunkFileNames := chunkFileNames c |}.

Definition set_contentScripts (v : list string) (c : t) : t :=
  {| assetChanged := assetChanged c; assets := assets c; contentScripts := v;
     iife := iife c; input := input c; inputAry := inputAry c;
     inputObj := inputObj c; permsHash := permsHash c; readFile := readFile c;
     srcDir := srcDir c; manifest := manifest c;
     chunkFileNames := chunkFileNames c |}.

Definition set_iife (v : list string) (c : t) : t :=
  {| assetChanged := assetChanged c; assets := assets c;
     contentScripts := contentScripts c; iife := v; input := input c;
     inputAry := inputAry c; inputObj := inputObj c; permsHash := permsHash c;
     readFile := readFile c; srcDir := srcDir c; manifest := manifest c;
     chunkFileNames := chunkFileNames c |}.

Definition set_input (v : list string) (c : t) : t :=
  {| assetChanged := assetChanged c; assets := assets c;
     contentScripts := contentScripts c; iife := iife c; input := v;
     inputAry := inputAry c; inputObj := inputObj c; permsHash := permsHash c;
     readFile := readFile c; srcDir := srcDir c; manifest := manifest c;
     chunkFileNames := chunkFileNames c |}.

Definition set_inputAry (v : list string) (c : t) : t :=
  {| assetChanged := assetChanged c; assets := assets c;
     contentScripts := contentScripts c; iife := iife c; input := input c;
     inputAry := v; inputObj := inputObj c; permsHash := permsHash c;
     readFile := readFile c; srcDir := srcDir c; manifest := manifest c;
     chunkFileNames := chunkFileNames c |}.

Definition set_inputObj (v : gmap string string) (c : t) : t :=
  {| assetChanged := assetChanged c; assets := assets c;
     contentScripts := contentScripts c; iife := iife c; input := input c;
     inputAry := inputAry c; inputObj := v; permsHash := permsHash c;
     readFile := readFile c; srcDir := srcDir c; manifest := manifest c;
     chunkFileNames := chunkFileNames c |}.

Definition set_readFile (v : gmap string (list Byte.byte)) (c : t) : t :=
  {| assetChanged := assetChanged c; assets := assets c;
     contentScripts := contentScripts c; iife := iife c; input := input c;
     inputAry := inputAry c; inputObj := inputObj c; permsHash := permsHash c;
     readFile := v; srcDir := srcDir c; manifest := manifest c;
     chunkFileNames := chunkFileNames c |}.

Definition set_srcDir (v : option string) (c : t) : t :=
  {| assetChanged := assetChanged c; assets := assets c;
     contentScripts := contentScripts c; iife := iife c; input := input c;
     inputAry := inputAry c; inputObj := inputObj c; permsHash := permsHash c;
     readFile := readFile c; srcDir := v; manifest := manifest c;
     chunkFileNames := chunkFileNames c |}.

Definition set_manifest (v : option Manifest) (c : t) : t :=
  {| assetChanged := assetChanged c; assets := assets c;
     contentScripts := contentScripts c; iife := iife c; input := input c;
     inputAry := inputAry c; inputObj := inputObj c; permsHash := permsHash c;
     readFile := readFile c; srcDir := srcDir c; manifest := v;
     chunkFileNames := chunkFileNames c |}.

Definition set_chunkFileNames (v : option string) (c : t) : t :=
  {| assetChanged := assetChanged c; assets := assets c;
     contentScripts := contentScripts c; iife := iife c; input := input c;
     inputAry := inputAry c; inputObj := inputObj c; permsHash := permsHash c;
     readFile := readFile c; srcDir := srcDir c; manifest := manifest c;
     chunkFileNames := v |}.

End Cache.

(** ** Code that writes to its arguments and can throw

    [SE S A]: a computation over the objects [S] it can write to, that
    returns an [A] or throws; the objects keep the writes made before an
    exception. *)

Record SE (S A : Type) : Type := MkSE { run : S → S * result A }.
Arguments MkSE {S A} run.
Arguments run {S A} _ _.

#[global] Instance se_ret {S : Type} : MRet (SE S) :=
  λ A a, MkSE (λ s, (s, Ok a)).

#[global] Instance se_bind {S : Type} : MBind (SE S) :=
  λ A B k m,
    MkSE (λ s,
      match run m s with
      | (s', Ok a) => run (k a) s'
      | (s', Throw e) => (s', Throw e)
      end).

Definition gets {S A : Type} (f : S → A) : SE S A := MkSE (λ s, (s, Ok (f s))).
Definition modify {S : Type} (f : S → S) : SE S () := MkSE (λ s, (f s, Ok ())).
Definition throw {S A : Type} (e : error) : SE S A := MkSE (λ s, (s, Throw e)).
Definition lift {S A : Type} (r : result A) : SE S A := MkSE (λ s, (s, r)).

(** ** [updateManifestV3] *)

(** The objects [updateManifestV3] is handed: it can write to each. *)
Record UpdateArgs : Type := {
  arg_m : ManifestV3;
  arg_options : RollupOptions;
  arg_cache : Cache.t;
}.

Definition write_options (f : RollupOptions → RollupOptions) (s : UpdateArgs) : UpdateArgs :=
  {| arg_m := arg_m s; arg_options := f (arg_options s); arg_cache := arg_cache s |}.

Definition write_cache (f : Cache.t → Cache.t) (s : UpdateArgs) : UpdateArgs :=
  {| arg_m := arg_m s; arg_options := arg_options s; arg_cache := f (arg_cache s) |}.

Definition set_output (v : option RollupOutput) (o : RollupOptions) : RollupOptions :=
  {| input := input o; output := v |}.

Definition set_input (v : RollupInput) (o : RollupOptions) : RollupOptions :=
  {| input := v; output := output o |}.

(** [x.chunkFileNames = cfn] *)
Definition assign_chunkFileNames (cfn : string) (x : OutputOptions) : OutputOptions :=
  {| chunkFileNames := Some cfn |}.

Definition set_background (v : option BackgroundV3) (m : ManifestV3) : ManifestV3 :=
  {| v3_common := v3_common m; v3_background := v; action := action m;
     host_permissions := host_permissions m;
     v3_web_accessible_resources := v3_web_accessible_resources m |}.

Definition set_web_accessible_resources (v : option (list ResourceRule))
    (m : ManifestV3) : ManifestV3 :=
  {| v3_common := v3_common m; v3_background := v3_background m;
     action := action m; host_permissions := host_permissions m;
     v3_web_accessible_resources := v |}.

Definition set_content_scripts (v : option (list ContentScript))
    (c : ManifestCommon) : ManifestCommon :=
  {| name := name c; version := version c; description := description c;
     default_locale := default_locale c; content_scripts := v;
     options_page := options_page c; options_ui := options_ui c;
     devtools_page := devtools_page c;
     chrome_url_overrides := chrome_url_overrides c; icons := icons c;
     permissions := permissions c |}.

Definition set_v3_common (v : ManifestCommon) (m : ManifestV3) : ManifestV3 :=
  {| v3_common := v; v3_background := v3_background m; action := action m;
     host_permissions := host_permissions m;
     v3_web_accessible_resources := v3_web_accessible_resources m |}.

Definition default_chunkFileNames : string := "chunks/[name]-[hash].js".

(** [Array.isArray(output) ? output[0] : output], where an absent
    [options.output] has been replaced by a fresh empty object. Taking
    [chunkFileNames] out of the first element of an empty array throws. *)
Definition first_output (output : option RollupOutput) : result OutputOptions :=
  match output with
  | None => Ok {| chunkFileNames := None |}
  | Some (OutputObject o) => Ok o
  | Some (OutputArray []) =>
      Throw (RuntimeTypeError "cannot destructure chunkFileNames of output[0]")
  | Some (OutputArray (o :: _)) => Ok o
  end.

(** The set built over the outputs: an output without [chunkFileNames]
    counts as ['no cfn']. *)
Definition chunkFileNames_set (outs : list OutputOptions) : list string :=
  fold_left (λ r x, Js.set_add (default "no cfn" (chunkFileNames x)) r) outs [].

(** The template with the first [[format]], [[name]] and [[hash]]
    replaced by a star. *)
Definition chunk_glob (cfn : string) : string :=
  Js.replace "[hash]" "*"
    (Js.replace "[name]" "*"
       (Js.replace "[format]" "*" (Js.join "/" (Js.split "/" cfn)))).

(** [if (manifest.background) manifest.background.type = 'module'] *)
Definition module_background (manifest : ManifestV3) : ManifestV3 :=
  match v3_background manifest with
  | Some bg =>
      set_background
        (Some {| service_worker := service_worker bg; bg_type := Some "module" |})
        manifest
  | None => manifest
  end.

Section UpdateManifest.
Context `{Pf : Platform}.

(** [relative(cache.srcDir, x)]; [path.relative] rejects an argument
    that is not a string. *)
Definition relative_to (srcDir : option string) (x : string) : result string :=
  match srcDir with
  | Some dir => Ok (slash (path_relative dir x))
  | None => Throw (RuntimeTypeError "path.relative: from is not a string")
  end.

Definition wrap_content_script (c : ContentScript) : ContentScript :=
  {| cs_matches := cs_matches c;
     cs_js := fmap (M := list) getImportContentScriptFileName <$> cs_js c;
     cs_css := cs_css c |}.

Definition updateManifestV3_body (wrapContentScripts : bool) : SE UpdateArgs ManifestV3 :=
  m ← gets arg_m;
  let manifest := cloneObject m in
  let manifest := module_background manifest in
  match content_scripts (v3_common manifest) with
  | None => mret manifest
  | Some scripts =>
      output ← gets (λ s, output (arg_options s));
      first ← lift (first_output output);
      let cfn := default default_chunkFileNames (chunkFileNames first) in
      _ ← modify (write_cache (Cache.set_chunkFileNames (Some cfn)));
      _ ← match output with
          | Some (OutputArray outs) =>
              if bool_decide (1 < length (chunkFileNames_set outs))%nat
              then throw MultipleChunkFileNames
              else modify (write_options (set_output
                     (Some (OutputArray (assign_chunkFileNames cfn <$> outs)))))
          | Some (OutputObject o) =>
              modify (write_options (set_output
                (Some (OutputObject (assign_chunkFileNames cfn o)))))
          | None => mret ()
          end;
      allMatches ← lift (rmapM convertMatchPatterns
        ((scripts ≫= (λ c, default [] (cs_matches c)))
           ++ default [] (host_permissions manifest)));
      let matches := Js.uniq allMatches in
      cache ← gets arg_cache;
      scriptPaths ← lift (rmapM (relative_to (Cache.srcDir cache))
                                 (Cache.contentScripts cache));
      let resources := slash (chunk_glob cfn) :: scriptPaths in
      let manifest :=
        if wrapContentScripts
        then set_v3_common
               (set_content_scripts (Some (wrap_content_script <$> scripts))
                  (v3_common manifest))
               manifest
        else manifest in
      let war := default [] (v3_web_accessible_resources manifest) in
      mret (set_web_accessible_resources
              (Some (war ++ [{| resources := resources; matches := matches |}]))
              manifest)
  end.

(** The call [updateManifestV3(m, options, wrapContentScripts, cache)]:
    the three objects after the call, and what the call returned. *)
Definition updateManifestV3 (m : ManifestV3) (options : RollupOptions)
    (wrapContentScripts : bool) (cache : Cache.t) : UpdateArgs * result ManifestV3 :=
  run (updateManifestV3_body wrapContentScripts)
    {| arg_m := m; arg_options := options; arg_cache := cache |}.

End UpdateManifest.

(** ** The [manifest-input] plugin *)

(** What [explorer.load] (cosmiconfig) gives back for a path. *)
Inductive ConfigResult : Type :=
  | ConfigEmpty (filepath : string)
  | ConfigLoaded (config : Manifest) (filepath : string).

(** The collaborators of the plugin: the cosmiconfig explorer ([None]
    when it throws because it cannot load), the compiled schema
    validator and [JSONPath] (its matches, flattened). *)
Class Collaborators : Type := {
  explorer_load : string → option ConfigResult;
  validator : Manifest → bool;
  JSONPath : string → Manifest → list string;
}.

Record Pkg : Type := {
  pkg_name : option string;
  pkg_version : option string;
  pkg_description : option string;
}.

(** The [extendManifest] option: a function, an object (given by the
    spread [{...config, ...extendManifest}] it induces), or neither. *)
Inductive ExtendManifest : Type :=
  | ExtendFunction (f : Manifest → Manifest)
  | ExtendObject (spread : Manifest → Manifest)
  | ExtendNone.

Record PluginOptions : Type := {
  extendManifest : ExtendManifest;
  firstClassManifest : bool;
  iifeJsonPaths : list string;
  pkg : Pkg;
  wrapContentScripts : bool;
}.

(** The calls the [options] hook makes to the stages of the pipeline, in
    order; kept next to the state to state which stages a pass runs. *)
Inductive event : Type :=
  | LoadConfig (path : string)
  | DeriveFiles
  | UpdateManifestV3
  | ValidateManifest.

(** The state of a plugin instance during a hook: the cache, the
    [manifestPath] of the closure, the options object the hook was
    called with, and the calls made so far. *)
Record HookState : Type := {
  hs_cache : Cache.t;
  hs_manifestPath : option string;
  hs_options : RollupOptions;
  hs_trace : list event;
}.

Definition on_cache (f : Cache.t → Cache.t) (s : HookState) : HookState :=
  {| hs_cache := f (hs_cache s); hs_manifestPath := hs_manifestPath s;
     hs_options := hs_options s; hs_trace := hs_trace s |}.

Definition set_manifestPath (v : option string) (s : HookState) : HookState :=
  {| hs_cache := hs_cache s; hs_manifestPath := v;
     hs_options := hs_options s; hs_trace := hs_trace s |}.

Definition log (e : event) : SE HookState () :=
  modify (λ s, {| hs_cache := hs_cache s; hs_manifestPath := hs_manifestPath s;
                  hs_options := hs_options s; hs_trace := hs_trace s ++ [e] |}).

Definition stubChunkNameForCssOnlyCrx : string :=
  "stub__css-only-chrome-extension-manifest".

Definition manifestName : string := "manifest.json".

(** What [getInputManifestPath] returns: the path, and the cache values
    that go with the shape of [options.input]. *)
Record InputManifest : Type := {
  inputManifestPath : string;
  found_inputAry : option (list string);
  found_inputObj : option (gmap string string);
}.

(** [Object.assign(cache, cacheValues)] *)
Definition assign_cache_values (found : InputManifest) (c : Cache.t) : Cache.t :=
  let c := match found_inputAry found with
           | Some ary => Cache.set_inputAry ary c
           | None => c
           end in
  match found_inputObj found with
  | Some obj => Cache.set_inputObj obj c
  | None => c
  end.

Definition is_digit (c : ascii) : bool :=
  let n := nat_of_ascii c in (48 <=? n)%nat && (n <=? 57)%nat.

(** The matches of [/\d+/g]: the maximal runs of digits. *)
Fixpoint digit_runs (cur s : string) : list string :=
  match s with
  | EmptyString => if bool_decide (cur = EmptyString) then [] else [cur]
  | String c s' =>
      if is_digit c then digit_runs (cur +:+ String c EmptyString) s'
      else (if bool_decide (cur = EmptyString) then [] else [cur])
             ++ digit_runs EmptyString s'
  end.

(** [version]: the digits of [pkg.version], dot-separated. *)
Definition pkg_digits (p : Pkg) : string :=
  Js.join "." (digit_runs EmptyString (default "" (pkg_version p))).

Definition with_defaults_common (p : Pkg) (c : ManifestCommon) : ManifestCommon :=
  {| name := match name c with Some n => Some n | None => pkg_name p end;
     version := match version c with Some v => Some v | None => Some (pkg_digits p) end;
     description :=
       match description c with Some d => Some d | None => pkg_description p end;
     default_locale := default_locale c; content_scripts := content_scripts c;
     options_page := options_page c; options_ui := options_ui c;
     devtools_page := devtools_page c;
     chrome_url_overrides := chrome_url_overrides c; icons := icons c;
     permissions := permissions c |}.

(** [fullManifest]: the defaults, with the extended manifest spread over
    them. A manifest without [manifest_version] is an MV2 one. *)
Definition with_defaults (p : Pkg) (m : Manifest) : Manifest :=
  match m with
  | MV2 m2 =>
      MV2 {| v2_common := with_defaults_common p (v2_common m2);
             v2_background := v2_background m2;
             browser_action := browser_action m2;
             page_action := page_action m2;
             v2_web_accessible_resources := v2_web_accessible_resources m2 |}
  | MV3 m3 => MV3 (set_v3_common (with_defaults_common p (v3_common m3)) m3)
  end.

Definition extend (e : ExtendManifest) (config : Manifest) : Manifest :=
  match e with
  | ExtendFunction f => f config
  | ExtendObject spread => spread config
  | ExtendNone => config
  end.

Section Plugin.
Context `{Pf : Platform} `{Co : Collaborators}.

Definition isManifestFileName (filename : string) : bool :=
  Js.startsWith "manifest" (path_basename filename).

Definition validateFileName (filename : option string) : result string :=
  match filename with
  | None => Throw ManifestNotInInput
  | Some f => if existsSync f then Ok f else Throw (ManifestDoesNotExist f)
  end.

Definition getInputManifestPath (options : RollupOptions) : result InputManifest :=
  match input options with
  | InputArray paths =>
      let manifestIndex :=
        fst <$> list_find (λ f, Is_true (isManifestFileName f)) paths in
      let inputAry :=
        match manifestIndex with
        | Some i => take i paths ++ drop (S i) paths
        | None => Js.init paths ++ paths
        end in
      p ← validateFileName (manifestIndex ≫= (λ i, paths !! i));
      Ok {| inputManifestPath := p; found_inputAry := Some inputAry;
            found_inputObj := None |}
  | InputObject entries =>
      p ← validateFileName (entries !! "manifest");
      Ok {| inputManifestPath := p; found_inputAry := None;
            found_inputObj := Some (delete "manifest" (cloneObject entries)) |}
  | InputString path =>
      p ← validateFileName (Some path);
      Ok {| inputManifestPath := p; found_inputAry := None;
            found_inputObj := None |}
  | InputOther => Throw InputTypeNotSupported
  end.

Definition validateManifest (manifest : Manifest) : result Manifest :=
  if validator manifest then Ok manifest else Throw ManifestInvalid.

(** The call of [updateManifestV3] from the hook: on the hook's own
    options object and cache. *)
Definition call_updateManifestV3 (m : ManifestV3) (wrap : bool) : SE HookState ManifestV3 :=
  MkSE (λ s,
    let '(a, r) := updateManifestV3 m (hs_options s) wrap (hs_cache s) in
    ({| hs_cache := arg_cache a; hs_manifestPath := hs_manifestPath s;
        hs_options := arg_options a; hs_trace := hs_trace s |}, r)).

(** The block guarded by [if (!cache.manifest)]. *)
Definition load_manifest (cfg : PluginOptions) : SE HookState () :=
  options ← gets hs_options;
  found ← lift (getInputManifestPath options);
  _ ← modify (on_cache (assign_cache_values found));
  _ ← log (LoadConfig (inputManifestPath found));
  match explorer_load (inputManifestPath found) with
  | None => throw (CollaboratorError "explorer.load")
  | Some (ConfigEmpty _) => throw EmptyManifestFile
  | Some (ConfigLoaded config filepath) =>
      if bool_decide (is_Some (options_ui (common config)))
         && bool_decide (is_Some (options_page (common config)))
      then throw OptionsBothDefined
      else
        _ ← modify (set_manifestPath (Some filepath));
        let srcDir := path_dirname filepath in
        _ ← modify (on_cache (Cache.set_srcDir (Some srcDir)));
        let extendedManifest := extend (extendManifest cfg) config in
        let fullManifest := with_defaults (pkg cfg) extendedManifest in
        _ ← (if firstClassManifest cfg
             then
               _ ← modify (on_cache (Cache.set_iife
                      (iifeJsonPaths cfg ≫= (λ jsonPath, JSONPath jsonPath fullManifest))));
               _ ← log DeriveFiles;
               let d := deriveFiles fullManifest srcDir {| opt_contentScripts := true |} in
               _ ← modify (on_cache (Cache.set_contentScripts (d_contentScripts d)));
               _ ← modify (on_cache (λ c,
                      Cache.set_input (Cache.inputAry c ++ d_js d ++ d_html d) c));
               modify (on_cache (Cache.set_assets
                 (Js.uniq (d_css d ++ d_img d ++ d_others d))))
             else mret ());
        finalManifest ←
          match fullManifest with
          | MV3 m3 =>
              _ ← log UpdateManifestV3;
              updated ← call_updateManifestV3 m3 (wrapContentScripts cfg);
              mret (MV3 updated)
          | MV2 _ => mret fullManifest
          end;
        _ ← log ValidateManifest;
        validated ← lift (validateManifest finalManifest);
        modify (on_cache (Cache.set_manifest (Some validated)))
  end.

(** The [options] hook. When [cache.input] is empty the reduction
    returns [cache.inputObj] itself, so the stub written to an empty
    [finalInput] is then written to the cache. *)
Definition options_hook (cfg : PluginOptions) : SE HookState RollupOptions :=
  cached ← gets (λ s, Cache.manifest (hs_cache s));
  _ ← (if bool_decide (is_Some cached) then mret () else load_manifest cfg);
  cache ← gets hs_cache;
  finalInput ← lift (reduce_to_record (Cache.srcDir cache) (Cache.input cache)
                                       (Cache.inputObj cache));
  let stubbed :=
    if bool_decide (finalInput = ∅)
    then <[stubChunkNameForCssOnlyCrx := stubChunkNameForCssOnlyCrx]> finalInput
    else finalInput in
  _ ← (if bool_decide (Cache.input cache = [])
       then modify (on_cache (Cache.set_inputObj stubbed))
       else mret ());
  options ← gets hs_options;
  mret (set_input (InputObject stubbed) options).

(** The [watchChange] hook. [Map.delete] returns whether the key was
    there. *)
Definition watchChange (id : string) (cache : Cache.t) : Cache.t :=
  if Js.endsWith manifestName id
  then Cache.set_assetChanged false (Cache.set_manifest None cache)
  else Cache.set_assetChanged
         (bool_decide (is_Some (Cache.readFile cache !! id)))
         (Cache.set_readFile (delete id (Cache.readFile cache)) cache).

End Plugin.

(** ** A small platform to run the pipeline on

    POSIX paths, a directory tree in which no glob finds a file, and
    [http:] URLs made of a host and an optional port. [join] is that of
    Node; the other functions agree with the packages they stand for on
    normalised paths below the source directory and on such URLs. They
    are used to evaluate the pipeline on concrete manifests. *)

Module Posix.

(** [normalizeString]: the segments of a path, without the empty ones
    and the dots, a double dot taking back the segment before it. [up]
    holds the segments kept so far, last first. *)
Fixpoint normalize_segments (absolute : bool) (up segments : list string) : list string :=
  match segments with
  | [] => reverse up
  | seg :: rest =>
      if bool_decide (seg = EmptyString) || bool_decide (seg = ".")
      then normalize_segments absolute up rest
      else if bool_decide (seg = "..")
      then match up with
           | top :: up' =>
               if bool_decide (top = "..")
               then normalize_segments absolute (".." :: up) rest
               else normalize_segments absolute up' rest
           | [] =>
               if absolute then normalize_segments absolute [] rest
               else normalize_segments absolute [".."] rest
           end
      else normalize_segments absolute (seg :: up) rest
  end.

(** [path.posix.normalize] *)
Definition normalize (path : string) : string :=
  if bool_decide (path = EmptyString) then "."
  else
    let absolute := String.prefix "/" path in
    let trailing := Js.endsWith "/" path in
    let body := Js.join "/" (normalize_segments absolute [] (Js.split "/" path)) in
    if bool_decide (body = EmptyString)
    then (if absolute then "/" else if trailing then "./" else ".")
    else
      let body := if trailing then body +:+ "/" else body in
      if absolute then "/" +:+ body else body.

(** [path.posix.join] of two paths *)
Definition join (dir x : string) : string :=
  if bool_decide (dir = EmptyString)
  then (if bool_decide (x = EmptyString) then "." else normalize x)
  else if bool_decide (x = EmptyString) then normalize dir
  else normalize (dir +:+ "/" +:+ x).

(** [x] relative to [dir], for an [x] below [dir]. *)
Definition relative (dir x : string) : string :=
  if String.prefix (dir +:+ "/") x
  then Js.slice (String.length dir + 1) x
  else x.

Definition basename (x : string) : string :=
  default EmptyString (last (Js.split "/" x)).

Definition dirname (x : string) : string :=
  match Js.init (Js.split "/" x) with
  | [] => "."
  | segments => Js.join "/" segments
  end.

Definition backslash : ascii := ascii_of_nat 92.

Fixpoint to_slash (s : string) : string :=
  match s with
  | EmptyString => EmptyString
  | String c s' =>
      String (if bool_decide (c = backslash) then "/"%char else c) (to_slash s')
  end.

Fixpoint contains_any (chars : list ascii) (s : string) : bool :=
  match s with
  | EmptyString => false
  | String c s' => bool_decide (c ∈ chars) || contains_any chars s'
  end.

Definition hasMagic (pattern : string) : bool :=
  contains_any ["*"; "?"; "["; "{"]%char pattern.

(** The characters of [s] before the first one in [stops]. *)
Fixpoint until (stops : list ascii) (s : string) : string :=
  match s with
  | EmptyString => EmptyString
  | String c s' =>
      if bool_decide (c ∈ stops) then EmptyString else String c (until stops s')
  end.

Fixpoint drop_slashes (s : string) : string :=
  match s with
  | String c s' =>
      if bool_decide (c = "/"%char) || bool_decide (c = backslash)
      then drop_slashes s' else s
  | EmptyString => EmptyString
  end.

Fixpoint all_digits (s : string) : bool :=
  match s with
  | EmptyString => true
  | String c s' => is_digit c && all_digits s'
  end.

(** [new URL(url).origin] for an [http:] URL: the scheme, the host in
    lower case and the port unless it is absent or the default 80;
    a port that is no number is rejected. *)
Definition origin (url : string) : option string :=
  if String.prefix "http://" url then
    let authority :=
      until ["/"; "?"; "#"; backslash]%char (drop_slashes (Js.slice 7 url)) in
    let parts := Js.split ":" authority in
    let host := Js.toLowerCase (default EmptyString (parts !! 0%nat)) in
    let port := parts !! 1%nat in
    if bool_decide (host = EmptyString) || bool_decide (2 < length parts)%nat
    then None
    else match port with
         | None => Some ("http://" +:+ host)
         | Some p =>
             if negb (all_digits p) then None
             else if bool_decide (p = EmptyString) || bool_decide (p = "80")
             then Some ("http://" +:+ host)
             else Some ("http://" +:+ host +:+ ":" +:+ p)
         end
  else None.

(** [unescape] on a string without escape sequences. *)
Definition plain (s : string) : string := s.

(** The platform over a file system holding [files]. *)
Definition platform (files : list string) : Platform :=
  {| path_join := join; path_relative := relative; path_basename := basename;
     path_dirname := dirname; slash := to_slash;
     glob_hasMagic := hasMagic; glob_sync := λ _ _, [];
     existsSync := λ f, bool_decide (f ∈ files);
     url_origin := origin; unescape := plain |}.

End Posix.

(** The platform over an empty file system. *)
Definition posix : Platform := Posix.platform [].

(** Manifests with every optional field absent, to build examples from. *)
Definition bare_common : ManifestCommon :=
  {| name := None; version := None; description := None;
     default_locale := None; content_scripts := None; options_page := None;
     options_ui := None; devtools_page := None; chrome_url_overrides := None;
     icons := None; permissions := None |}.

Definition bare_v3 (c : ManifestCommon) : ManifestV3 :=
  {| v3_common := c; v3_background := None; action := None;
     host_permissions := None; v3_web_accessible_resources := None |}.

Definition bare_v2 (c : ManifestCommon) : ManifestV2 :=
  {| v2_common := c; v2_background := None; browser_action := None;
     page_action := None; v2_web_accessible_resources := None |}.

(** A content script with the given patterns and scripts. *)
Definition content_script (patterns scripts : list string) : ContentScript :=
  {| cs_matches := Some patterns; cs_js := Some scripts; cs_css := None |}.

(** An MV3 manifest with one content script and a page. *)
Definition manifest_with_content_script : Manifest :=
  MV3 (bare_v3
    {| name := Some "demo"; version := Some "1.0.0"; description := None;
       default_locale := None;
       content_scripts := Some [content_script ["https://example.com/*"] ["content.ts"]];
       options_page := Some "options.html"; options_ui := None;
       devtools_page := None; chrome_url_overrides := None;
       icons := Some [("16", "icon.png")]; permissions := None |}).

(** A manifest that names one page under two spellings. *)
Definition two_spellings : Manifest :=
  MV3 (bare_v3
    {| name := Some "demo"; version := Some "1.0.0"; description := None;
       default_locale := None; content_scripts := None;
       options_page := Some "options.html"; options_ui := None;
       devtools_page := Some "./options.html"; chrome_url_overrides := None;
       icons := None; permissions := None |}).

(** An MV3 manifest with two content scripts that share a pattern. *)
Definition two_content_scripts : ManifestV3 :=
  bare_v3
    {| name := Some "demo"; version := Some "1.0.0"; description := None;
       default_locale := None;
       content_scripts :=
         Some [content_script ["https://example.com/*"] ["content.ts"];
               content_script ["https://example.com/*"; "https://b.org:*/x"]
                 ["other.ts"]];
       options_page := None; options_ui := None; devtools_page := None;
       chrome_url_overrides := None; icons := None; permissions := None |}.

(** The cache once the two content scripts have been derived. *)
Definition cache_with_scripts : Cache.t :=
  Cache.set_srcDir (Some "src")
    (Cache.set_contentScripts ["src/content.ts"; "src/other.ts"] Cache.initial).

Definition options_with (out : option RollupOutput) : RollupOptions :=
  {| input := InputString "src/manifest.json"; output := out |}.

(** Collaborators for the examples: the explorer loads [config] from
    whatever path it is asked for, the validator accepts, and no JSON
    path matches. *)
Definition loading (config : Manifest) : Collaborators :=
  {| explorer_load := λ path, Some (ConfigLoaded config path);
     validator := λ _, true;
     JSONPath := λ _ _, [] |}.

(** The platform over a source directory that holds the manifest. *)
Definition posix_src : Platform := Posix.platform ["src/manifest.json"].

(** A manifest that defines both [options_page] and [options_ui]. *)
Definition both_options : Manifest :=
  MV3 (bare_v3
    {| name := Some "demo"; version := Some "1.0.0"; description := None;
       default_locale := None; content_scripts := None;
       options_page := Some "options.html";
       options_ui := Some {| ui_page := Some "options.html" |};
       devtools_page := None; chrome_url_overrides := None; icons := None;
       permissions := None |}).

Definition plugin_defaults : PluginOptions :=
  {| extendManifest := ExtendObject (λ config, config);
     firstClassManifest := true; iifeJsonPaths := [];
     pkg := {| pkg_name := Some ""; pkg_version := Some "";
               pkg_description := Some "" |};
     wrapContentScripts := true |}.

(** A plugin instance before its first pass, called with [options]. *)
Definition fresh (options : RollupOptions) : HookState :=
  {| hs_cache := Cache.initial; hs_manifestPath := None;
     hs_options := options; hs_trace := [] |}.

(** The cache after a pass over [manifest_with_content_script] in which
    the icon was read and no permission was detected. *)
Definition cache_after_pass : Cache.t :=
  {| Cache.assetChanged := false; Cache.assets := ["src/icon.png"];
     Cache.contentScripts := ["src/content.ts"]; Cache.iife := [];
     Cache.input := ["src/content.ts"; "src/options.html"];
     Cache.inputAry := []; Cache.inputObj := ∅; Cache.permsHash := "[]";
     Cache.readFile := {["src/icon.png" := [Byte.x89; Byte.x50; Byte.x4e; Byte.x47]]};
     Cache.srcDir := Some "src";
     Cache.manifest := Some manifest_with_content_script;
     Cache.chunkFileNames := Some default_chunkFileNames |}.

(** ** Notions the properties are stated with *)

(** The fields of the cache that [watchChange] never writes. *)
Definition kept (c c' : Cache.t) : Prop :=
  Cache.assets c' = Cache.assets c
  ∧ Cache.contentScripts c' = Cache.contentScripts c
  ∧ Cache.iife c' = Cache.iife c
  ∧ Cache.input c' = Cache.input c
  ∧ Cache.inputAry c' = Cache.inputAry c
  ∧ Cache.inputObj c' = Cache.inputObj c
  ∧ Cache.permsHash c' = Cache.permsHash c
  ∧ Cache.srcDir c' = Cache.srcDir c
  ∧ Cache.chunkFileNames c' = Cache.chunkFileNames c.

(** The options object after [chunkFileNames] has been written to its
    output, or to each of its outputs. *)
Definition with_chunkFileNames (cfn : string) (options : RollupOptions) : RollupOptions :=
  match output options with
  | None => options
  | Some (OutputObject o) =>
      set_output (Some (OutputObject (assign_chunkFileNames cfn o))) options
  | Some (OutputArray outs) =>
      set_output (Some (OutputArray (assign_chunkFileNames cfn <$> outs))) options
  end.

(** The template the rewrite settles on: that of the only or first
    output, or the default. *)
Definition resolved_chunkFileNames (options : RollupOptions) : result string :=
  first ← first_output (output options);
  Ok (default default_chunkFileNames (chunkFileNames first)).

Section RuleNotions.
Context `{Pf : Platform}.

(** The patterns the rule is built from. *)
Definition all_patterns (m : ManifestV3) (scripts : list ContentScript) : list string :=
  (scripts ≫= (λ c, default [] (cs_matches c))) ++ default [] (host_permissions m).

(** The manifest returned once the rule is known. *)
Definition with_rule (m : ManifestV3) (scripts : list ContentScript) (wrap : bool)
    (rule : ResourceRule) : ManifestV3 :=
  let manifest := module_background m in
  let manifest :=
    if wrap
    then set_v3_common
           (set_content_scripts (Some (wrap_content_script <$> scripts))
              (v3_common manifest))
           manifest
    else manifest in
  set_web_accessible_resources
    (Some (default [] (v3_web_accessible_resources manifest) ++ [rule]))
    manifest.

End RuleNotions.

(** Whether the outputs trip the guard on [chunkFileNames]. *)
Definition multiple_chunkFileNames (options : RollupOptions) : bool :=
  match output options with
  | Some (OutputArray outs) => bool_decide (1 < length (chunkFileNames_set outs))%nat
  | _ => false
  end.

(** The number of distinct values in a list. *)
Definition distinct {A : Type} `{EqDecision A} (l : list A) : nat :=
  length (remove_dups l).


(** ** The permissions read off the code

    Each detector is a regular expression tested on the code of a
    chunk, for [alarms]
    [/((chromep?)|(browser))[\s\n]*\.[\s\n]*alarms/]:
    a namespace ([chrome], [chromep] or [browser]), a dot and the name
    of an API, with any white space around the dot.

    The code is held as its UTF-8 text, as a string literal of this
    file is, so a character of the class [\s] is one to three bytes
    long. The class holds the tab, the line feed, the vertical tab, the
    form feed, the carriage return and the space; the no-break space
    U+00A0; U+1680; the spaces U+2000 to U+200A; the line separator
    U+2028 and the paragraph separator U+2029; U+202F; U+205F; U+3000;
    and the byte order mark U+FEFF. *)

(** The string of the given bytes. *)
Definition utf8 (bytes : list nat) : string :=
  foldr (λ byte s, String (ascii_of_nat byte) s) EmptyString bytes.

(** The characters of the class, each as the bytes of its encoding, in
    the order above. *)
Definition whitespace_chars : list string :=
  Eval vm_compute in
    utf8 <$> [[9]; [10]; [11]; [12]; [13]; [32];
              [194; 160];
              [225; 154; 128];
              [226; 128; 128]; [226; 128; 129]; [226; 128; 130]; [226; 128; 131];
              [226; 128; 132]; [226; 128; 133]; [226; 128; 134]; [226; 128; 135];
              [226; 128; 136]; [226; 128; 137]; [226; 128; 138];
              [226; 128; 168]; [226; 128; 169];
              [226; 128; 175];
              [226; 129; 159];
              [227; 128; 128];
              [239; 187; 191]]%nat.

(** A string of white space: characters of the class, one after the
    other. *)
Inductive whitespace : string → Prop :=
  | whitespace_empty : whitespace EmptyString
  | whitespace_char (c ws : string) :
      c ∈ whitespace_chars → whitespace ws → whitespace (c +:+ ws).

(** The character of the class that [s] starts with, if it starts with
    one. *)
Definition leading_whitespace (s : string) : option string :=
  find (λ c, Js.startsWith c s) whitespace_chars.

(** What is left of [s] after the white space it starts with: at most
    [fuel] characters are taken off, and [s] has no more than its
    length. *)
Fixpoint skip_whitespace_go (fuel : nat) (s : string) : string :=
  match fuel with
  | O => s
  | S fuel' =>
      match leading_whitespace s with
      | Some c => skip_whitespace_go fuel' (Js.slice (String.length c) s)
      | None => s
      end
  end.

Definition skip_whitespace (s : string) : string :=
  skip_whitespace_go (String.length s) s.

(** Whether the first byte of [api] starts no character of the class,
    as a letter does. *)
Definition starts_plain (api : string) : bool :=
  match api with
  | EmptyString => false
  | String b _ =>
      forallb (λ c, negb (Js.startsWith (String b EmptyString) c)) whitespace_chars
  end.

(** The namespaces of the expression: [chrome], with or without a
    [p] after it, and [browser]. *)
Definition api_namespaces : list string := ["chrome"; "chromep"; "browser"].

(** Whether a match of the expression for [api] starts [s]. *)
Definition api_call_at (api s : string) : bool :=
  existsb
    (λ namespace,
       Js.startsWith namespace s
       && (let rest := skip_whitespace (Js.slice (String.length namespace) s) in
           Js.startsWith "." rest
           && Js.startsWith api (skip_whitespace (Js.slice 1 rest))))
    api_namespaces.

(** The test of the expression of [api] on [s]: a match that starts
    somewhere in [s]. *)
Fixpoint api_call (api s : string) : bool :=
  api_call_at api s
  || match s with
     | EmptyString => false
     | String _ s' => api_call api s'
     end.

Module Permissions.

Definition alarms (s : string) : bool := api_call "alarms" s.
Definition bookmarks (s : string) : bool := api_call "bookmarks" s.
Definition contentSettings (s : string) : bool := api_call "contentSettings" s.
Definition contextMenus (s : string) : bool := api_call "contextMenus" s.
Definition cookies (s : string) : bool := api_call "cookies" s.
Definition declarativeContent (s : string) : bool := api_call "declarativeContent" s.
Definition declarativeNetRequest (s : string) : bool := api_call "declarativeNetRequest" s.
Definition declarativeWebRequest (s : string) : bool := api_call "declarativeWebRequest" s.
Definition desktopCapture (s : string) : bool := api_call "desktopCapture" s.
Definition displaySource (s : string) : bool := api_call "displaySource" s.
Definition dns (s : string) : bool := api_call "dns" s.
Definition documentScan (s : string) : bool := api_call "documentScan" s.
Definition downloads (s : string) : bool := api_call "downloads" s.
Definition experimental (s : string) : bool := api_call "experimental" s.
Definition fileBrowserHandler (s : string) : bool := api_call "fileBrowserHandler" s.
Definition fileSystemProvider (s : string) : bool := api_call "fileSystemProvider" s.
Definition fontSettings (s : string) : bool := api_call "fontSettings" s.
Definition gcm (s : string) : bool := api_call "gcm" s.
Definition geolocation (s : string) : bool := api_call "geolocation" s.
Definition history (s : string) : bool := api_call "history" s.
Definition identity (s : string) : bool := api_call "identity" s.
Definition idle (s : string) : bool := api_call "idle" s.
Definition idltest (s : string) : bool := api_call "idltest" s.
Definition management (s : string) : bool := api_call "management" s.
Definition nativeMessaging (s : string) : bool := api_call "nativeMessaging" s.
Definition notifications (s : string) : bool := api_call "notifications" s.
Definition pageCapture (s : string) : bool := api_call "pageCapture" s.
Definition platformKeys (s : string) : bool := api_call "platformKeys" s.
Definition power (s : string) : bool := api_call "power" s.
Definition printerProvider (s : string) : bool := api_call "printerProvider" s.
Definition privacy (s : string) : bool := api_call "privacy" s.
Definition processes (s : string) : bool := api_call "processes" s.
Definition proxy (s : string) : bool := api_call "proxy" s.
Definition sessions (s : string) : bool := api_call "sessions" s.
Definition signedInDevices (s : string) : bool := api_call "signedInDevices" s.
Definition storage (s : string) : bool := api_call "storage" s.
Definition tabCapture (s : string) : bool := api_call "tabCapture" s.
Definition topSites (s : string) : bool := api_call "topSites" s.
Definition tts (s : string) : bool := api_call "tts" s.
Definition ttsEngine (s : string) : bool := api_call "ttsEngine" s.
Definition unlimitedStorage (s : string) : bool := api_call "unlimitedStorage" s.
Definition vpnProvider (s : string) : bool := api_call "vpnProvider" s.
Definition wallpaper (s : string) : bool := api_call "wallpaper" s.
Definition webNavigation (s : string) : bool := api_call "webNavigation" s.
Definition webRequest (s : string) : bool := api_call "webRequest" s.

Definition webRequestBlocking (s : string) : bool :=
  webRequest s && Js.occurs "'blocking'" s.

(** [Object.entries(permissions)]: the detectors under their names, in
    the order of the frozen object. *)
Definition entries : list (string * (string → bool)) :=
  [("alarms", alarms); ("bookmarks", bookmarks);
   ("contentSettings", contentSettings); ("contextMenus", contextMenus);
   ("cookies", cookies); ("declarativeContent", declarativeContent);
   ("declarativeNetRequest", declarativeNetRequest);
   ("declarativeWebRequest", declarativeWebRequest);
   ("desktopCapture", desktopCapture); ("displaySource", displaySource);
   ("dns", dns); ("documentScan", documentScan); ("downloads", downloads);
   ("experimental", experimental);
   ("fileBrowserHandler", fileBrowserHandler);
   ("fileSystemProvider", fileSystemProvider);
   ("fontSettings", fontSettings); ("gcm", gcm);
   ("geolocation", geolocation); ("history", history);
   ("identity", identity); ("idle", idle); ("idltest", idltest);
   ("management", management); ("nativeMessaging", nativeMessaging);
   ("notifications", notifications); ("pageCapture", pageCapture);
   ("platformKeys", platformKeys); ("power", power);
   ("printerProvider", printerProvider); ("privacy", privacy);
   ("processes", processes); ("proxy", proxy); ("sessions", sessions);
   ("signedInDevices", signedInDevices); ("storage", storage);
   ("tabCapture", tabCapture); ("topSites", topSites); ("tts", tts);
   ("ttsEngine", ttsEngine); ("unlimitedStorage", unlimitedStorage);
   ("vpnProvider", vpnProvider); ("wallpaper", wallpaper);
   ("webNavigation", webNavigation); ("webRequest", webRequest);
   ("webRequestBlocking", webRequestBlocking)].

End Permissions.

(** [derivePermissions(set, { code })]: the names whose detector fires
    on the code are added to the set. *)
Definition derivePermissions (set : list string) (code : string) : list string :=
  fold_left (λ s p, Js.set_add p s)
    ((filter (λ entry, entry.2 code = true)
        (filter (λ entry, entry.1 ≠ "default") Permissions.entries)).*1)
    set.

(** ** [generateBundle] of the manifest plugin *)

(** [p.replace(re, '.js')], where [re] matches a script extension
    ([.ts], [.js], [.tsx], [.jsx]) at the end of [p]. *)
Fixpoint normalizeFilename (p : string) : string :=
  if bool_decide (p ∈ [".ts"; ".js"; ".tsx"; ".jsx"]) then ".js"
  else match p with
       | EmptyString => EmptyString
       | String c p' => String c (normalizeFilename p')
       end.

(** A file of the output bundle. *)
Inductive OutputFile : Type :=
  | OutputChunk (code : string) (isEntry : bool) (fileName : string)
  | OutputAsset (fileName : string).

(** The bundle: its files under their keys, in the order of
    enumeration. *)
Definition OutputBundle : Type := list (string * OutputFile).

(** [Object.values(bundle).filter(isChunk)]: the chunks of the bundle,
    each with its code. *)
Definition chunk_codes (bundle : OutputBundle) : list string :=
  omap (λ x, match x with
             | OutputChunk code _ _ => Some code
             | OutputAsset _ => None
             end) bundle.*2.

(** The file names of the chunks that are no entry points. *)
Definition imported_chunks (bundle : OutputBundle) : list string :=
  fold_left
    (λ r x, match x with
            | OutputChunk _ isEntry fileName =>
                if negb isEntry then r ++ [fileName] else r
            | OutputAsset _ => r
            end)
    bundle.*2 [].

(** The bundle once the stub chunk of an extension without scripts has
    been deleted from it. *)
Definition without_stub (bundle : OutputBundle) : OutputBundle :=
  filter (λ entry, entry.1 ≠ stubChunkNameForCssOnlyCrx +:+ ".js") bundle.

(** The values of the closure of the plugin that the hook reads. *)
Record BundleOptions : Type := {
  verbose : bool;
  wrapperScript : string;
  contentScriptWrapper : bool;
  publicKey : option string;
}.

(** [JSON.stringify] and [JSON.parse] on what [cache.permsHash] holds:
    an array of strings. [None] is the [SyntaxError] of a string that
    is no JSON. *)
Class Json : Type := {
  JSON_stringify : list string → string;
  JSON_parse : string → option (list string);
}.

(** The plugin context of Rollup: the file name it gives the wrapper
    asset emitted for a background script, from the wrapper script and
    the path, and that of the wrapper emitted for a content script. *)
Class PluginContext : Type := {
  emit_background_wrapper : string → string → string;
  emit_content_wrapper : string → string;
}.

Inductive bundle_error : Type :=
  | EmptyBundle
  | ManifestUndefined
  | PermsHashSyntaxError.

Definition bundle_error_class (e : bundle_error) : string :=
  match e with
  | EmptyBundle => "Error"
  | ManifestUndefined => "TypeError"
  | PermsHashSyntaxError => "SyntaxError"
  end.

Definition bundle_error_message (e : bundle_error) : option string :=
  match e with
  | EmptyBundle =>
      Some "The Chrome extension must have at least one asset (html or css) or script file."
  | ManifestUndefined => Some "manifest is undefined"
  | PermsHashSyntaxError => None
  end.

(** The manifest body that is serialised to [manifest.json]: the
    cached manifest with its fields rewritten, and the [key]. *)
Record ManifestBody : Type := {
  body_manifest : ManifestV2;
  body_key : option string;
}.

(** What the hook can write to: the cache, the bundle, and the
    warnings of the plugin context. *)
Record BundleState : Type := {
  bs_cache : Cache.t;
  bs_bundle : OutputBundle;
  bs_warnings : list string;
}.

Definition set_permsHash (v : string) (c : Cache.t) : Cache.t :=
  {| Cache.assetChanged := Cache.assetChanged c; Cache.assets := Cache.assets c;
     Cache.contentScripts := Cache.contentScripts c; Cache.iife := Cache.iife c;
     Cache.input := Cache.input c; Cache.inputAry := Cache.inputAry c;
     Cache.inputObj := Cache.inputObj c; Cache.permsHash := v;
     Cache.readFile := Cache.readFile c; Cache.srcDir := Cache.srcDir c;
     Cache.manifest := Cache.manifest c;
     Cache.chunkFileNames := Cache.chunkFileNames c |}.

Definition set_permissions (v : option (list string)) (c : ManifestCommon)
    : ManifestCommon :=
  {| name := name c; version := version c; description := description c;
     default_locale := default_locale c; content_scripts := content_scripts c;
     options_page := options_page c; options_ui := options_ui c;
     devtools_page := devtools_page c;
     chrome_url_overrides := chrome_url_overrides c; icons := icons c;
     permissions := v |}.

(** The permissions the chunks of the bundle are found to use:
    [chunks.reduce(derivePermissions, new Set())]. *)
Definition detected_permissions (bundle : OutputBundle) : list string :=
  fold_left derivePermissions (chunk_codes bundle) [].

(** The warning about the permissions detected, when there is one. *)
Definition permissions_warning (o : BundleOptions) (cached permsHash : string)
    (permissions : list string) : list string :=
  if verbose o && negb (bool_decide (permissions = []))
  then if bool_decide (cached = EmptyString)
       then ["Detected permissions: " +:+ Js.join "," permissions]
       else if bool_decide (permsHash ≠ cached)
       then ["Detected new permissions: " +:+ Js.join "," permissions]
       else []
  else [].

Section GenerateBundle.
Context `{Pf : Platform} `{Jn : Json} `{Cx : PluginContext}.

(** The block that settles the permissions: those of the hash when an
    asset has changed and there is a hash, those detected in the chunks
    otherwise. *)
Definition derive_permissions_block (o : BundleOptions) (s : BundleState)
    : BundleState * (bundle_error + list string) :=
  let cache := bs_cache s in
  if Cache.assetChanged cache && negb (bool_decide (Cache.permsHash cache = EmptyString))
  then match JSON_parse (Cache.permsHash cache) with
       | None => (s, inl PermsHashSyntaxError)
       | Some permissions =>
           ({| bs_cache := Cache.set_assetChanged false cache;
               bs_bundle := bs_bundle s; bs_warnings := bs_warnings s |},
            inr permissions)
       end
  else
    let permissions := detected_permissions (bs_bundle s) in
    let permsHash := JSON_stringify permissions in
    ({| bs_cache := set_permsHash permsHash cache;
        bs_bundle := bs_bundle s;
        bs_warnings :=
          bs_warnings s
            ++ permissions_warning o (Cache.permsHash cache) permsHash permissions |},
     inr permissions).

(** The background scripts of the body: each one replaced by the
    wrapper emitted for it, when there is a wrapper script. *)
Definition wrap_background (o : BundleOptions) (m : ManifestV2) : option BackgroundV2 :=
  let bgs := default [] (v2_background m ≫= bg_scripts) in
  if negb (bool_decide (bgs = []))
     && negb (bool_decide (wrapperScript o = EmptyString))
  then
    Some {| bg_scripts :=
              Some (slash <$> (emit_background_wrapper (wrapperScript o)
                                 <$> (normalizeFilename <$> bgs)));
            bg_page := v2_background m ≫= bg_page |}
  else v2_background m.

(** A content script of the body: its scripts replaced by their
    wrappers. *)
Definition wrap_content (c : ContentScript) : ContentScript :=
  {| cs_matches := cs_matches c;
     cs_js :=
       (λ js : list string,
          slash <$> (emit_content_wrapper <$> (normalizeFilename <$> js)))
         <$> cs_js c;
     cs_css := cs_css c |}.

(** The [generateBundle] hook, up to the manifest body that it
    serialises and emits as [manifest.json]: [None] is the return
    without a manifest for MV3. *)
Definition generateBundle (o : BundleOptions) (s : BundleState)
    : BundleState * (bundle_error + option ManifestBody) :=
  let bundle := without_stub (bs_bundle s) in
  let s := {| bs_cache := bs_cache s; bs_bundle := bundle;
              bs_warnings := bs_warnings s |} in
  if bool_decide (bundle = []) then (s, inl EmptyBundle)
  else
    match Cache.manifest (bs_cache s) with
    | None => (s, inl ManifestUndefined)
    | Some (MV3 _) => (s, inr None)
    | Some (MV2 cached) =>
        match derive_permissions_block o s with
        | (s, inl e) => (s, inl e)
        | (s, inr detected) =>
            let clonedManifest := cloneObject cached in
            let c := v2_common clonedManifest in
            let permissions :=
              combinePerms
                [PermArr (PermStr <$> detected);
                 PermArr (PermStr <$> default [] (permissions c))] in
            let cts := default [] (content_scripts c) in
            let war := default [] (v2_web_accessible_resources clonedManifest) in
            let background := wrap_background o clonedManifest in
            let contentScripts := content_script_js c in
            let wrapped :=
              contentScriptWrapper o && negb (bool_decide (contentScripts = [])) in
            let c := set_permissions (Some permissions) c in
            let c :=
              if wrapped then set_content_scripts (Some (wrap_content <$> cts)) c
              else c in
            let resources :=
              if wrapped
              then Some (slash <$> Js.uniq (war ++ imported_chunks bundle
                                               ++ contentScripts))
              else v2_web_accessible_resources clonedManifest in
            (s,
             inr (Some
               {| body_manifest :=
                    {| v2_common := c; v2_background := background;
                       browser_action := browser_action clonedManifest;
                       page_action := page_action clonedManifest;
                       v2_web_accessible_resources := resources |};
                  body_key :=
                    match publicKey o with
                    | Some k => if bool_decide (k = EmptyString) then None else Some k
                    | None => None
                    end |}))
        end
    end.

End GenerateBundle.

(** ** The [html-inputs] plugin *)

(** The [browserPolyfill] option that the plugin is created with. *)
Inductive BrowserPolyfill : Type :=
  | PolyfillOff
  | PolyfillOn
  | PolyfillExecuteScript (executeScript : bool).

(** What cheerio and the file system give for a page: the document
    loaded from a file ([None] when the file cannot be read), and the
    attributes of the elements that the selectors of the plugin pick,
    in document order, an element without the attribute giving
    [undefined]: the [src] of the scripts to bundle and of the scripts
    marked as assets, the [href] of the style sheets, the [src] of the
    images and the [href] of the icons. [mutate_script_elems] is the
    document once [mutateScriptElems] has rewritten its script elements
    and added the polyfill scripts; [interrupted_script_elems] is the
    document as the rewriting leaves it when it throws at a script
    without [src]: the type of every script set, the [src] of the
    scripts before that one rewritten, no polyfill added. *)
Class Cheerio : Type := {
  Document : Type;
  read_html : string → option Document;
  script_src_attrs : Document → list (option string);
  asset_src_attrs : Document → list (option string);
  css_href_attrs : Document → list (option string);
  img_src_attrs : Document → list (option string);
  favicon_href_attrs : Document → list (option string);
  mutate_script_elems : BrowserPolyfill → Document → Document;
  interrupted_script_elems : Document → Document;
  process_cwd : string;
}.

Inductive html_error : Type :=
  | SrcDirNotInitialized
  | InputCannotBe
  | HtmlNotRead (filePath : string)
  | NoScriptInHtml
  | ScriptSrcUndefined
  | EntryError (e : error).

Definition html_error_message (e : html_error) : option string :=
  match e with
  | SrcDirNotInitialized => Some "options.srcDir not initialized"
  | NoScriptInHtml => Some "At least one HTML file must have at least one script."
  | EntryError e => message_of e
  | InputCannotBe | HtmlNotRead _ | ScriptSrcUndefined => None
  end.

Section HtmlInputs.
Context `{Pf : Platform} `{Ch : Cheerio}.

(** What [loadHtml(rootPath)(filePath)] returns: the document, with
    the two paths assigned to it. *)
Record Page : Type := {
  page_document : Document;
  page_filePath : string;
  page_rootPath : string;
}.

Definition loadHtml (rootPath filePath : string) : html_error + Page :=
  match read_html filePath with
  | None => inl (HtmlNotRead filePath)
  | Some document =>
      inr {| page_document := document; page_filePath := filePath;
             page_rootPath := rootPath |}
  end.

Definition getRelativePath (page : Page) (p : string) : string :=
  let htmlFileDir := path_dirname (page_filePath page) in
  let relDir :=
    if Js.startsWith "/" p
    then path_relative process_cwd (page_rootPath page)
    else path_relative process_cwd htmlFileDir in
  path_join relDir p.

Definition getScriptSrc (page : Page) : list string :=
  getRelativePath page <$> omap id (script_src_attrs (page_document page)).

Definition getJsAssets (page : Page) : list string :=
  getRelativePath page <$> omap id (asset_src_attrs (page_document page)).

Definition getCssHrefs (page : Page) : list string :=
  getRelativePath page <$> omap id (css_href_attrs (page_document page)).

Definition getImgSrcs (page : Page) : list string :=
  getRelativePath page
    <$> omap id (img_src_attrs (page_document page)
                   ++ favicon_href_attrs (page_document page)).

(** [mutateScriptElems(htmlInputsOptions)($)]: the page after the
    call, and the exception if it throws. The callback that rewrites
    [src] calls [value.replace] on the attribute of every script that
    [getScriptElems] selects, which is [undefined], and the call a
    [TypeError], for a script without [src]. *)
Definition mutateScriptElems (browserPolyfill : BrowserPolyfill) (page : Page)
    : Page * option html_error :=
  if bool_decide (None ∈ script_src_attrs (page_document page))
  then ({| page_document := interrupted_script_elems (page_document page);
           page_filePath := page_filePath page; page_rootPath := page_rootPath page |},
        Some ScriptSrcUndefined)
  else ({| page_document := mutate_script_elems browserPolyfill (page_document page);
           page_filePath := page_filePath page; page_rootPath := page_rootPath page |},
        None).

(** The cache of the plugin; [hc_pages] is its [html$]. *)
Record HtmlCache : Type := {
  hc_scripts : list string;
  hc_html : list string;
  hc_pages : list Page;
  hc_js : list string;
  hc_css : list string;
  hc_img : list string;
  hc_input : list string;
  hc_srcDir : option string;
}.

Definition html_cache_initial : HtmlCache :=
  {| hc_scripts := []; hc_html := []; hc_pages := []; hc_js := []; hc_css := [];
     hc_img := []; hc_input := []; hc_srcDir := None |}.

(** The options the plugin is created with, as they are when a hook
    reads them. *)
Record HtmlInputsOptions : Type := {
  html_srcDir : option string;
  html_browserPolyfill : BrowserPolyfill;
}.

(** [options.input] as an array: the one string, a copy of the array,
    or the values of the record. The values come in the order of the
    keys of the map, which need not be that of [Object.values]: the
    record reduced from them is the same in any order, the pair of
    paths named by the error of a clash may differ. *)
Definition input_array (i : RollupInput) : html_error + list string :=
  match i with
  | InputString path => inr [path]
  | InputArray paths => inr paths
  | InputObject entries => inr (map_to_list entries).*2
  | InputOther => inl InputCannotBe
  end.

(** [l.map(f)] when [f] can throw. *)
Fixpoint html_mapM {A B : Type} (f : A → html_error + B) (l : list A)
    : html_error + list B :=
  match l with
  | [] => inr []
  | x :: l' =>
      match f x with
      | inl e => inl e
      | inr y =>
          match html_mapM f l' with
          | inl e => inl e
          | inr ys => inr (y :: ys)
          end
      end
  end.

(** [l.forEach(f)] when [f] changes the element it is given and can
    throw: the elements after the call, those past the one [f] throws
    at as they were. *)
Fixpoint html_forEach {A : Type} (f : A → A * option html_error) (l : list A)
    : list A * option html_error :=
  match l with
  | [] => ([], None)
  | x :: l' =>
      match f x with
      | (x', Some e) => (x' :: l', Some e)
      | (x', None) =>
          let '(l'', thrown) := html_forEach f l' in (x' :: l'', thrown)
      end
  end.

(** The [options] hook: the cache after the call, and the options
    returned or the exception thrown. *)
Definition html_options (o : HtmlInputsOptions) (options : RollupOptions)
    (cache : HtmlCache) : HtmlCache * (html_error + RollupOptions) :=
  match html_srcDir o with
  | None => (cache, inl SrcDirNotInitialized)
  | Some srcDir =>
      if bool_decide (srcDir = EmptyString) then (cache, inl SrcDirNotInitialized)
      else
        let cache :=
          {| hc_scripts := hc_scripts cache; hc_html := hc_html cache;
             hc_pages := hc_pages cache; hc_js := hc_js cache; hc_css := hc_css cache;
             hc_img := hc_img cache; hc_input := hc_input cache;
             hc_srcDir := Some srcDir |} in
        match input_array (input options) with
        | inl e => (cache, inl e)
        | inr input =>
            let html := filter (λ f, is_html f) input in
            let cache :=
              {| hc_scripts := hc_scripts cache; hc_html := html;
                 hc_pages := hc_pages cache; hc_js := hc_js cache;
                 hc_css := hc_css cache; hc_img := hc_img cache;
                 hc_input := hc_input cache; hc_srcDir := hc_srcDir cache |} in
            if bool_decide (html = []) then (cache, inr options)
            else
              let reloaded : HtmlCache * option html_error :=
                if bool_decide (hc_pages cache = [])
                then
                  match html_mapM (loadHtml srcDir) html with
                  | inl e => (cache, Some e)
                  | inr pages =>
                      let js := pages ≫= getScriptSrc in
                      let entries := filter (λ f, ¬ is_html f) input ++ js in
                      let '(mutated, thrown) :=
                        html_forEach (mutateScriptElems (html_browserPolyfill o)) pages in
                      ({| hc_scripts := pages ≫= getJsAssets; hc_html := html;
                          hc_pages := mutated;
                          hc_js := js; hc_css := pages ≫= getCssHrefs;
                          hc_img := pages ≫= getImgSrcs; hc_input := entries;
                          hc_srcDir := hc_srcDir cache |},
                       match thrown with
                       | Some e => Some e
                       | None =>
                           if bool_decide (entries = []) then Some NoScriptInHtml
                           else None
                       end)
                  end
                else (cache, None) in
              match reloaded with
              | (cache, Some e) => (cache, inl e)
              | (cache, None) =>
                  match reduce_to_record (html_srcDir o) (hc_input cache) ∅ with
                  | Throw e => (cache, inl (EntryError e))
                  | Ok record => (cache, inr (set_input (InputObject record) options))
                  end
              end
        end
  end.

(** The [watchChange] hook. *)
Definition html_watchChange (id : string) (cache : HtmlCache) : HtmlCache :=
  if Js.endsWith ".html" id || Js.endsWith "manifest.json" id
  then {| hc_scripts := hc_scripts cache; hc_html := hc_html cache; hc_pages := [];
          hc_js := hc_js cache; hc_css := hc_css cache; hc_img := hc_img cache;
          hc_input := hc_input cache; hc_srcDir := hc_srcDir cache |}
  else cache.

End HtmlInputs.

(** ** The [chrome-extension] plugin *)

(** What the [options] hook of the plugin throws: the error of one of
    its two plugins, or its own in place of the error that no page has
    a script. The error of a collaborator is taken not to carry one of
    the two messages that the hook replaces. *)
Inductive extension_error : Type :=
  | ManifestInputError (e : error)
  | HtmlInputsError (e : html_error)
  | NoScriptOrHtmlFile.

Definition extension_error_message (e : extension_error) : option string :=
  match e with
  | ManifestInputError e => message_of e
  | HtmlInputsError e => html_error_message e
  | NoScriptOrHtmlFile =>
      Some "A Chrome extension must have at least one script or HTML file."
  end.

Section ChromeExtension.
Context `{Pf : Platform} `{Co : Collaborators} `{Ch : Cheerio}.

(** The state of the two plugins that the hook runs. *)
Record ExtensionState : Type := {
  manifest_state : HookState;
  html_cache : HtmlCache;
}.

(** The [options] hook of [chromeExtension], called with the options
    object of the state of the manifest plugin: the hook of the
    manifest plugin, then that of the page plugin on what the first
    returns. The page plugin is created with the manifest plugin for
    its options, and so reads the source directory from its cache. *)
Definition chromeExtension_options (cfg : PluginOptions)
    (browserPolyfill : BrowserPolyfill) (s : ExtensionState)
    : ExtensionState * (extension_error + RollupOptions) :=
  match run (options_hook cfg) (manifest_state s) with
  | (ms, Throw e) =>
      ({| manifest_state := ms; html_cache := html_cache s |},
       inl (ManifestInputError e))
  | (ms, Ok result) =>
      let htmlInputsOptions :=
        {| html_srcDir := Cache.srcDir (hs_cache ms);
           html_browserPolyfill := browserPolyfill |} in
      match html_options htmlInputsOptions result (html_cache s) with
      | (hc, inl NoScriptInHtml) =>
          ({| manifest_state := ms; html_cache := hc |}, inl NoScriptOrHtmlFile)
      | (hc, inl e) =>
          ({| manifest_state := ms; html_cache := hc |}, inl (HtmlInputsError e))
      | (hc, inr result) =>
          ({| manifest_state := ms; html_cache := hc |}, inr result)
      end
  end.

End ChromeExtension.
(** ** Notions of the further properties *)

Section Resources.
Context `{Pf : Platform}.

(** [files] of a derivation: the web accessible resources of the
    manifest and the locale pattern, with the glob patterns expanded. *)
Definition resource_files (manifest : Manifest) (srcDir : string) : list string :=
  match manifest with
  | MV3 m =>
      expand_globs srcDir
        ((default [] (v3_web_accessible_resources m) ≫= resources)
           ++ locales (v3_common m))
  | MV2 m =>
      expand_globs srcDir
        (default [] (v2_web_accessible_resources m) ++ locales (v2_common m))
  end.

End Resources.

(** A string of digits, and the digits of a string. *)
Fixpoint only_digits (s : string) : bool :=
  match s with
  | EmptyString => true
  | String c s' => is_digit c && only_digits s'
  end.

Fixpoint keep_digits (s : string) : string :=
  match s with
  | EmptyString => EmptyString
  | String c s' => if is_digit c then String c (keep_digits s') else keep_digits s'
  end.

(** A part of a version: digits, at least one. *)
Definition version_part (r : string) : Prop :=
  r ≠ EmptyString ∧ only_digits r = true.

(** A text cut into runs of digits, each with what stands between it and
    the next: the runs and the gaps after them, one after the other. *)
Fixpoint separated_runs (runs : list (string * string)) : string :=
  match runs with
  | [] => EmptyString
  | (r, gap) :: runs' => r +:+ gap +:+ separated_runs runs'
  end.

(** The runs of such a cut are the maximal ones when each is a string
    of digits that is not empty, no gap holds a digit, and no gap but
    the last is empty. *)
Fixpoint maximal_runs (runs : list (string * string)) : Prop :=
  match runs with
  | [] => True
  | (r, gap) :: runs' =>
      version_part r
      ∧ keep_digits gap = EmptyString
      ∧ (runs' ≠ [] → gap ≠ EmptyString)
      ∧ maximal_runs runs'
  end.

Section AfterLoading.
Context `{Pf : Platform}.

(** The hook past the loading. *)
Definition finished (s1 : HookState) : HookState * result RollupOptions :=
  match reduce_to_record (Cache.srcDir (hs_cache s1)) (Cache.input (hs_cache s1))
          (Cache.inputObj (hs_cache s1)) with
  | Throw e => (s1, Throw e)
  | Ok finalInput =>
      let stubbed :=
        if bool_decide (finalInput = ∅)
        then <[stubChunkNameForCssOnlyCrx := stubChunkNameForCssOnlyCrx]> finalInput
        else finalInput in
      (if bool_decide (Cache.input (hs_cache s1) = [])
       then on_cache (Cache.set_inputObj stubbed) s1 else s1,
       Ok (set_input (InputObject stubbed) (hs_options s1)))
  end.

End AfterLoading.

(** ** More examples to evaluate the pipeline on *)

(** JSON of arrays of strings that hold no character to escape. *)
Module PlainJson.

Definition quote : string := String (ascii_of_nat 34) EmptyString.

Definition stringify (l : list string) : string :=
  "[" +:+ Js.join "," ((λ s, quote +:+ s +:+ quote) <$> l) +:+ "]".

Definition parse (s : string) : option (list string) :=
  if bool_decide (s = "[]") then Some []
  else if Js.startsWith ("[" +:+ quote) s && Js.endsWith (quote +:+ "]") s
  then Some (Js.split (quote +:+ "," +:+ quote)
               (String.rev (Js.slice 2 (String.rev (Js.slice 2 s)))))
  else None.

Definition json : Json := {| JSON_stringify := stringify; JSON_parse := parse |}.

End PlainJson.

(** A plugin context that names a wrapper after the script it wraps. *)
Definition wrappers_in_assets : PluginContext :=
  {| emit_background_wrapper := λ _ scriptPath,
       "assets/" +:+ Posix.basename scriptPath;
     emit_content_wrapper := λ scriptPath,
       "assets/" +:+ Posix.basename scriptPath |}.

(** An MV2 manifest with a background script, a content script, an
    action icon given as a path, permissions and resources. *)
Definition manifest_v2_sample : ManifestV2 :=
  {| v2_common :=
       {| name := Some "demo"; version := Some "1.0.0"; description := None;
          default_locale := None;
          content_scripts := Some [content_script ["https://example.com/*"] ["content.ts"]];
          options_page := None; options_ui := None; devtools_page := None;
          chrome_url_overrides := None; icons := None;
          permissions := Some ["storage"; "!alarms"] |};
     v2_background := Some {| bg_scripts := Some ["background.ts"]; bg_page := None |};
     browser_action :=
       Some {| default_popup := None; default_icon := Some (IconPath "icon.png") |};
     page_action := None;
     v2_web_accessible_resources := Some ["fonts/a.woff"; "style.css"] |}.

(** An MV3 manifest whose action icon is given as a path, and whose
    content script matches every URL. *)
Definition manifest_v3_sample : ManifestV3 :=
  {| v3_common :=
       {| name := Some "demo"; version := Some "1.0.0"; description := None;
          default_locale := None;
          content_scripts := Some [content_script ["<all_urls>"] ["content.ts"]];
          options_page := None; options_ui := None; devtools_page := None;
          chrome_url_overrides := None; icons := None; permissions := None |};
     v3_background := None;
     action := Some {| default_popup := None; default_icon := Some (IconPath "i.png") |};
     host_permissions := None;
     v3_web_accessible_resources := None |}.

(** A manifest with a script and a page of one name. *)
Definition one_name_twice : Manifest :=
  MV2 {| v2_common :=
           {| name := Some "demo"; version := Some "1.0.0"; description := None;
              default_locale := None; content_scripts := None;
              options_page := Some "main.html"; options_ui := None;
              devtools_page := None; chrome_url_overrides := None; icons := None;
              permissions := None |};
         v2_background := Some {| bg_scripts := Some ["main.ts"]; bg_page := None |};
         browser_action := None; page_action := None;
         v2_web_accessible_resources := None |}.

(** A bundle of two chunks and an asset, and the stub chunk. *)
Definition bundle_sample : OutputBundle :=
  [("background.js",
    OutputChunk "chrome.alarms.create(); chromep
      .ttsEngine.onSpeak" true "background.js");
   ("chunks/shared.js", OutputChunk "browser . cookies.get" false "chunks/shared.js");
   ("style.css", OutputAsset "style.css");
   ("stub__css-only-chrome-extension-manifest.js",
    OutputChunk "chrome.history" true "stub__css-only-chrome-extension-manifest.js")].

Definition bundle_options : BundleOptions :=
  {| verbose := true; wrapperScript := "import('%PATH%')";
     contentScriptWrapper := true; publicKey := None |}.

(** The cache of a build of [manifest_v2_sample] before its first
    bundle, and the state of the hook on [bundle_sample]. *)
Definition cache_v2 : Cache.t :=
  Cache.set_manifest (Some (MV2 manifest_v2_sample))
    (Cache.set_srcDir (Some "src") Cache.initial).

Definition bundling (cache : Cache.t) : BundleState :=
  {| bs_cache := cache; bs_bundle := bundle_sample; bs_warnings := [] |}.

(** The cache after a first bundle, in which the file of the icon has
    been read. *)
Definition cache_v2_built : Cache.t :=
  Cache.set_readFile {["src/icon.png" := [Byte.x89; Byte.x50]]}
    (set_permsHash (PlainJson.stringify ["alarms"; "cookies"]) cache_v2).

(** [value.replace(/\.[jt]sx?/g, '.js')] *)
Fixpoint script_extensions_to_js (value : string) : string :=
  match value with
  | String "." (String "j" (String "s" (String "x" rest)))
  | String "." (String "t" (String "s" (String "x" rest)))
  | String "." (String "j" (String "s" rest))
  | String "." (String "t" (String "s" rest)) => ".js" +:+ script_extensions_to_js rest
  | String c rest => String c (script_extensions_to_js rest)
  | EmptyString => EmptyString
  end.

(** The scripts of a document up to the first one without [src]. *)
Fixpoint rewrite_until_undefined (document : list (option string))
    : list (option string) :=
  match document with
  | Some value :: rest => Some (script_extensions_to_js value) :: rewrite_until_undefined rest
  | _ => document
  end.

(** Four pages on disk, given by the [src] attributes of the scripts
    to bundle: two that load one script, one with an inline script
    between two scripts, one without a script. Paths are relative to
    the working directory. *)
Definition pages_on_disk : Cheerio :=
  {| Document := list (option string);
     read_html := λ filePath,
       if bool_decide (filePath = "src/popup.html") then Some [Some "popup.ts"]
       else if bool_decide (filePath = "src/options.html") then Some [Some "popup.ts"]
       else if bool_decide (filePath = "src/inline.html")
            then Some [Some "main.ts"; None; Some "late.ts"]
       else if bool_decide (filePath = "src/empty.html") then Some []
       else None;
     script_src_attrs := λ document, document;
     asset_src_attrs := λ _, [];
     css_href_attrs := λ _, [];
     img_src_attrs := λ _, [];
     favicon_href_attrs := λ _, [];
     mutate_script_elems := λ _ document,
       (λ src : option string, script_extensions_to_js <$> src) <$> document;
     interrupted_script_elems := rewrite_until_undefined;
     process_cwd := EmptyString |}.

Definition html_inputs_options : HtmlInputsOptions :=
  {| html_srcDir := Some "src"; html_browserPolyfill := PolyfillOff |}.

(** A manifest that names one page, the one without a script. *)
Definition only_a_page : Manifest :=
  MV2 (bare_v2
    {| name := Some "demo"; version := Some "1.0.0"; description := None;
       default_locale := None; content_scripts := None;
       options_page := Some "empty.html"; options_ui := None;
       devtools_page := None; chrome_url_overrides := None; icons := None;
       permissions := None |}).

(** * Properties *)

(** ** Manifest versions *)

Lemma isMV3_MV3 (m : Manifest) : isMV3 m = true ↔ ∃ m3, m = MV3 m3.
Proof.
  destruct m as [m2|m3]; unfold isMV3; cbn.
  - split; [done|]. by intros [? ?].
  - split; [by eexists|done].
Qed.

Lemma isMV2_MV2 (m : Manifest) : isMV2 m = true ↔ ∃ m2, m = MV2 m2.
Proof.
  destruct m as [m2|m3]; unfold isMV2; cbn.
  - split; [by eexists|done].
  - split; [done|]. by intros [? ?].
Qed.

(** ** Sets in insertion order *)

Section SetFacts.

Lemma elem_of_set_add (x y : string) (s : list string) :
  x ∈ Js.set_add y s ↔ x = y ∨ x ∈ s.
Proof.
  unfold Js.set_add. case_bool_decide as Hy.
  - split; [by right|]. intros [->|Hx]; done.
  - rewrite elem_of_app, list_elem_of_singleton. tauto.
Qed.

Lemma NoDup_set_add (y : string) (s : list string) :
  NoDup s → NoDup (Js.set_add y s).
Proof.
  intros Hs. unfold Js.set_add. case_bool_decide as Hy; [done|].
  apply NoDup_app. split_and!; [done| |apply NoDup_singleton].
  intros x Hx ->%list_elem_of_singleton. done.
Qed.

Lemma elem_of_uniq (x : string) (l : list string) : x ∈ Js.uniq l ↔ x ∈ l.
Proof.
  induction l as [|y l IH]; simpl; [done|].
  rewrite !elem_of_cons, list_elem_of_filter, IH.
  destruct (decide (x = y)); tauto.
Qed.

Lemma NoDup_uniq (l : list string) : NoDup (Js.uniq l).
Proof.
  induction l as [|y l IH]; simpl; [constructor|].
  constructor.
  - rewrite list_elem_of_filter. tauto.
  - by apply NoDup_filter.
Qed.

Lemma filter_all {A : Type} (P : A → Prop) `{!∀ x, Decision (P x)} (l : list A) :
  Forall P l → filter P l = l.
Proof.
  induction 1 as [|x l Hx Hl IH]; [done|].
  by rewrite filter_cons_True, IH.
Qed.

(** A list without duplicates is its own set. *)
Lemma uniq_NoDup (l : list string) : NoDup l → Js.uniq l = l.
Proof.
  induction 1 as [|y l Hy Hl IH]; simpl; [done|].
  rewrite IH. f_equal. apply filter_all.
  apply Forall_forall. intros x Hx ->. done.
Qed.

End SetFacts.

(** ** Strings *)

Section StringFacts.

Lemma prefix_cons (c d : ascii) (p s : string) :
  String.prefix (String c p) (String d s)
  = if Ascii.ascii_dec c d then String.prefix p s else false.
Proof. reflexivity. Qed.

Lemma prefix_empty (s : string) : String.prefix EmptyString s = true.
Proof. by destruct s. Qed.

Lemma prefix_append (p r : string) : String.prefix p (p +:+ r) = true.
Proof.
  induction p as [|c p IH]; [apply prefix_empty|].
  change (String c p +:+ r) with (String c (p +:+ r)).
  rewrite prefix_cons. destruct (Ascii.ascii_dec c c); [exact IH|done].
Qed.

Lemma prefix_slice (p s : string) :
  String.prefix p s = true → s = p +:+ Js.slice (String.length p) s.
Proof.
  revert s. induction p as [|c p IH]; intros s Hs; [done|].
  destruct s as [|d s]; [done|]. rewrite prefix_cons in Hs.
  destruct (Ascii.ascii_dec c d) as [<-|]; [|done].
  change (String c s = String c (p +:+ Js.slice (String.length p) s)).
  f_equal. by apply IH.
Qed.

Lemma slice_append (p r : string) : Js.slice (String.length p) (p +:+ r) = r.
Proof. induction p as [|c p IH]; [done|exact IH]. Qed.

Lemma append_inj_l (p r1 r2 : string) : p +:+ r1 = p +:+ r2 → r1 = r2.
Proof.
  induction p as [|c p IH]; [done|].
  cbn [String.append]. intros [= Heq]. by apply IH.
Qed.

Lemma append_cons (c : ascii) (s t : string) : String c s +:+ t = String c (s +:+ t).
Proof. reflexivity. Qed.

Lemma append_empty_r (s : string) : s +:+ EmptyString = s.
Proof. induction s as [|c s IH]; [done|]. by rewrite append_cons, IH. Qed.

Lemma append_assoc (a b c : string) : (a +:+ b) +:+ c = a +:+ (b +:+ c).
Proof. induction a as [|x a IH]; [done|]. by rewrite !append_cons, IH. Qed.

Lemma prefix_other (c d : ascii) (p s : string) :
  c ≠ d → String.prefix (String c p) (String d s) = false.
Proof. intros Hcd. rewrite prefix_cons. by destruct (Ascii.ascii_dec c d). Qed.

(** The characters of a separator just matched are passed over. *)
Lemma split_go_skip (sep cur x s : string) :
  Js.split_go sep (String.length x) cur (x +:+ s) = Js.split_go sep 0 cur s.
Proof. induction x as [|c x IH]; [done|]. exact IH. Qed.

(** A string in which the separator does not occur is one piece. *)
Lemma split_go_whole (sep cur s : string) :
  Js.occurs sep s = false → Js.split_go sep 0 cur s = [cur +:+ s].
Proof.
  revert cur. induction s as [|c s IH]; intros cur Hocc.
  - cbn [Js.split_go]. by rewrite append_empty_r.
  - cbn [Js.occurs] in Hocc. apply orb_false_iff in Hocc as [Hpre Hocc].
    cbn [Js.split_go]. rewrite Hpre, (IH _ Hocc), append_assoc. done.
Qed.

(** Up to the first separator, when what comes before does not hold the
    first character of the separator. *)
Lemma split_go_first (c0 : ascii) (sep' cur a b : string) :
  Js.has_char c0 a = false →
  Js.split_go (String c0 sep') 0 cur (a +:+ String c0 sep' +:+ b)
  = (cur +:+ a) :: Js.split_go (String c0 sep') 0 EmptyString b.
Proof.
  revert cur. induction a as [|c a IH]; intros cur Ha.
  - rewrite append_empty_r. change (EmptyString +:+ String c0 sep' +:+ b)
      with (String c0 (sep' +:+ b)).
    cbn [Js.split_go].
    rewrite (prefix_append (String c0 sep') b : String.prefix (String c0 sep')
                                                  (String c0 (sep' +:+ b)) = true).
    f_equal. cbn [String.length]. rewrite Nat.sub_succ, Nat.sub_0_r.
    apply split_go_skip.
  - cbn [Js.has_char] in Ha. apply orb_false_iff in Ha as [Hc Ha].
    apply bool_decide_eq_false in Hc.
    change (String c a +:+ String c0 sep' +:+ b)
      with (String c (a +:+ String c0 sep' +:+ b)).
    cbn [Js.split_go]. rewrite (prefix_other c0 c) by done.
    rewrite (IH _ Ha), append_assoc. done.
Qed.

Lemma split_first (c0 : ascii) (sep' a b : string) :
  Js.has_char c0 a = false →
  Js.split (String c0 sep') (a +:+ String c0 sep' +:+ b)
  = a :: Js.split (String c0 sep') b.
Proof. intros Ha. unfold Js.split. by rewrite (split_go_first c0 sep' EmptyString). Qed.

Lemma split_whole (sep s : string) :
  Js.occurs sep s = false → Js.split sep s = [s].
Proof. intros Hocc. unfold Js.split. by rewrite split_go_whole. Qed.

(** A separator cannot start where its first character is absent. *)
Lemma occurs_after (c0 : ascii) (sep' a t : string) :
  Js.has_char c0 a = false →
  Js.occurs (String c0 sep') (a +:+ t) = Js.occurs (String c0 sep') t.
Proof.
  induction a as [|c a IH]; intros Ha; [done|].
  cbn [Js.has_char] in Ha. apply orb_false_iff in Ha as [Hc Ha].
  apply bool_decide_eq_false in Hc.
  change (String c a +:+ t) with (String c (a +:+ t)).
  cbn [Js.occurs]. rewrite (prefix_other c0 c) by done. by apply IH.
Qed.

Lemma occurs_append_l (sep a t : string) :
  Js.occurs sep (a +:+ t) = false → Js.occurs sep a = false.
Proof.
  induction a as [|c a IH].
  - destruct sep as [|c0 sep']; [|done].
    destruct t; cbn; intros Ht; discriminate.
  - change (String c a +:+ t) with (String c (a +:+ t)).
    cbn [Js.occurs]. intros [Hpre Hocc]%orb_false_iff.
    apply orb_false_iff. split; [|by apply IH].
    destruct (String.prefix sep (String c a)) eqn:Hsep; [|done].
    apply prefix_slice in Hsep.
    rewrite <- append_cons, Hsep, append_assoc, prefix_append in Hpre. done.
Qed.

End StringFacts.

(** ** [combinePerms] *)

Section CombinePerms.

Lemma startsWith_bang (q : string) :
  Js.startsWith "!" q = true ↔ q = "!" +:+ Js.slice 1 q.
Proof.
  split.
  - intros Hq. by apply (prefix_slice "!" q).
  - intros ->. apply (prefix_append "!").
Qed.

Lemma flat_inf_cons (a : perm_arg) (l : list perm_arg) :
  flat_inf (a :: l) = flat_arg a ++ flat_inf l.
Proof. reflexivity. Qed.

Lemma flat_inf_nested (l : list perm_arg) : flat_inf [PermArr l] = flat_inf l.
Proof. rewrite flat_inf_cons. apply app_nil_r. Qed.

Lemma flat_inf_strings (l : list string) :
  flat_inf [PermArr (PermStr <$> l)] = Some <$> l.
Proof.
  rewrite flat_inf_nested.
  induction l as [|x l IH]; [done|].
  rewrite fmap_cons, flat_inf_cons, IH. done.
Qed.

Lemma elem_of_defined (p : string) (l : list (option string)) :
  p ∈ omap id l ↔ Some p ∈ l.
Proof.
  rewrite list_elem_of_omap. split.
  - intros ([q|] & Hq & Heq); cbn in Heq; congruence.
  - intros Hp. by exists (Some p).
Qed.

(** What the reduction leaves in the two sets. *)
Lemma fold_combine_perms (l : list string) (acc : perm_acc) (p : string) :
  p ∈ perms (fold_left combine_step l acc)
  ↔ p ∈ perms acc ∨ (p ∈ l ∧ Js.startsWith "!" p = false).
Proof.
  revert acc. induction l as [|q l IH]; intros acc; simpl.
  - rewrite elem_of_nil. tauto.
  - rewrite IH, elem_of_cons. unfold combine_step.
    destruct (Js.startsWith "!" q) eqn:Hq; simpl.
    + split; [tauto|]. intros [?|[[->|?] Hp]]; [tauto|congruence|tauto].
    + rewrite elem_of_set_add. split.
      * intros [[->|?]|?]; tauto.
      * intros [?|[[->|?] ?]]; tauto.
Qed.

Lemma fold_combine_xperms (l : list string) (acc : perm_acc) (p : string) :
  p ∈ xperms (fold_left combine_step l acc)
  ↔ p ∈ xperms acc ∨ ("!" +:+ p) ∈ l.
Proof.
  revert acc. induction l as [|q l IH]; intros acc; simpl.
  - rewrite elem_of_nil. tauto.
  - rewrite IH, elem_of_cons. unfold combine_step.
    destruct (Js.startsWith "!" q) eqn:Hq; simpl.
    + rewrite elem_of_set_add. apply startsWith_bang in Hq.
      split.
      * intros [[->|?]|?]; [right; left; done|tauto|tauto].
      * intros [?|[Hp|?]]; [tauto| |tauto].
        left. left. rewrite <- Hp. reflexivity.
    + split; [tauto|]. intros [?|[Hp|?]]; [tauto| |tauto].
      rewrite <- Hp in Hq. unfold Js.startsWith in Hq.
      by rewrite (prefix_append "!" p) in Hq.
Qed.

Lemma fold_combine_NoDup (l : list string) (acc : perm_acc) :
  NoDup (perms acc) → NoDup (perms (fold_left combine_step l acc)).
Proof.
  revert acc. induction l as [|q l IH]; intros acc Hacc; simpl; [done|].
  apply IH. unfold combine_step.
  destruct (Js.startsWith "!" q); simpl; [done|]. by apply NoDup_set_add.
Qed.

Lemma elem_of_combinePerms (permissions : list perm_arg) (p : string) :
  p ∈ combinePerms permissions
  ↔ Some p ∈ flat_inf permissions
    ∧ Js.startsWith "!" p = false
    ∧ Some ("!" +:+ p) ∉ flat_inf permissions.
Proof.
  unfold combinePerms. rewrite list_elem_of_filter.
  rewrite fold_combine_perms, fold_combine_xperms. simpl.
  rewrite !elem_of_nil, !elem_of_defined. tauto.
Qed.

Lemma NoDup_combinePerms (permissions : list perm_arg) :
  NoDup (combinePerms permissions).
Proof.
  unfold combinePerms. apply NoDup_filter, fold_combine_NoDup. constructor.
Qed.

(** On entries that are neither negated nor repeated the reduction only
    collects. *)
Lemma fold_combine_plain (l : list string) (seen : list string) :
  Forall (λ p, Js.startsWith "!" p = false) l →
  NoDup (seen ++ l) →
  fold_left combine_step l (PermAcc seen []) = PermAcc (seen ++ l) [].
Proof.
  revert seen. induction l as [|q l IH]; intros seen Hl Hnd; simpl.
  - by rewrite app_nil_r.
  - inversion Hl as [|? ? Hq Hl']; subst.
    unfold combine_step at 2. rewrite Hq. simpl.
    assert (q ∉ seen) as Hfresh.
    { apply NoDup_app in Hnd as (_ & Hd & _). intros Hin.
      apply (Hd q Hin). left. }
    unfold Js.set_add. rewrite bool_decide_eq_false_2 by done.
    rewrite IH; [by rewrite <- app_assoc|done|by rewrite <- app_assoc].
Qed.

Lemma flat_inf_Permutation (args1 args2 : list perm_arg) :
  args1 ≡ₚ args2 → flat_inf args1 ≡ₚ flat_inf args2.
Proof.
  induction 1 as [|a l1 l2 _ IH|a b l|l1 l2 l3 _ IH1 _ IH2].
  - done.
  - rewrite !flat_inf_cons. by rewrite IH.
  - rewrite !flat_inf_cons, !app_assoc.
    by rewrite (Permutation_app_comm (flat_arg b)).
  - by rewrite IH1.
Qed.

End CombinePerms.

(** C4. [combinePerms] returns exactly the entries without a leading
    ['!'] whose name does not occur with a leading ['!'] anywhere among
    the flattened arguments; the result has no entry with a leading ['!']
    and no duplicates; and [combinePerms(["a","b","!b"])] is [["a"]]. *)
Theorem combinePerms_spec (permissions : list perm_arg) :
  (∀ p, p ∈ combinePerms permissions
        ↔ Some p ∈ flat_inf permissions
          ∧ Js.startsWith "!" p = false
          ∧ Some ("!" +:+ p) ∉ flat_inf permissions)
  ∧ (∀ p, p ∈ combinePerms permissions → Js.startsWith "!" p = false)
  ∧ NoDup (combinePerms permissions)
  ∧ combinePerms [PermArr [PermStr "a"; PermStr "b"; PermStr "!b"]] = ["a"].
Proof.
  split_and!.
  - apply elem_of_combinePerms.
  - intros p Hp. by apply elem_of_combinePerms in Hp as (_ & Hp & _).
  - apply NoDup_combinePerms.
  - vm_compute. reflexivity.
Qed.

(** C9, as the claim states it, fails: with the two argument lists
    swapped the same permissions come out in another order. *)
Lemma combinePerms_order_counterexample :
  [PermArr [PermStr "a"]; PermArr [PermStr "b"]]
    ≡ₚ [PermArr [PermStr "b"]; PermArr [PermStr "a"]]
  ∧ combinePerms [PermArr [PermStr "a"]; PermArr [PermStr "b"]]
    ≠ combinePerms [PermArr [PermStr "b"]; PermArr [PermStr "a"]].
Proof.
  split; [apply Permutation_swap|].
  vm_compute. discriminate.
Qed.

(** C9, amended. Permuting the argument lists, or the entries within
    them, permutes the flattened entries; the result is then the same up
    to the order of its entries. Applying [combinePerms] to its own
    output returns that output unchanged. *)
Theorem combinePerms_permutation_idempotent (args1 args2 : list perm_arg) :
  flat_inf args1 ≡ₚ flat_inf args2 →
  combinePerms args1 ≡ₚ combinePerms args2
  ∧ combinePerms [PermArr (PermStr <$> combinePerms args1)] = combinePerms args1.
Proof.
  intros Hperm. split.
  - apply NoDup_Permutation; [apply NoDup_combinePerms..|].
    intros p. rewrite !elem_of_combinePerms. by rewrite Hperm.
  - unfold combinePerms at 1. rewrite flat_inf_strings.
    replace (omap id (Some <$> combinePerms args1)) with (combinePerms args1).
    2:{ induction (combinePerms args1) as [|x l IH]; [done|].
        rewrite fmap_cons. cbn [omap list_omap]. simpl. by rewrite <- IH. }
    rewrite (fold_combine_plain _ []).
    + simpl. apply filter_all, Forall_forall. intros x _. apply not_elem_of_nil.
    + apply Forall_forall. intros p Hp.
      by apply elem_of_combinePerms in Hp as (_ & Hp & _).
    + apply NoDup_combinePerms.
Qed.

Lemma combinePerms_permutation_idempotent_witness :
  flat_inf [PermArr [PermStr "a"; PermStr "!b"]; PermArr [PermStr "b"; PermStr "c"]]
    ≡ₚ flat_inf [PermArr [PermStr "b"; PermStr "c"]; PermArr [PermStr "a"; PermStr "!b"]]
  ∧ combinePerms [PermArr [PermStr "a"; PermStr "!b"]; PermArr [PermStr "b"; PermStr "c"]]
    ≡ₚ combinePerms [PermArr [PermStr "b"; PermStr "c"]; PermArr [PermStr "a"; PermStr "!b"]]
  ∧ combinePerms
      [PermArr (PermStr <$> combinePerms
         [PermArr [PermStr "a"; PermStr "!b"]; PermArr [PermStr "b"; PermStr "c"]])]
    = combinePerms [PermArr [PermStr "a"; PermStr "!b"]; PermArr [PermStr "b"; PermStr "c"]].
Proof.
  assert (flat_inf [PermArr [PermStr "a"; PermStr "!b"]; PermArr [PermStr "b"; PermStr "c"]]
    ≡ₚ flat_inf [PermArr [PermStr "b"; PermStr "c"]; PermArr [PermStr "a"; PermStr "!b"]])
    as Hperm.
  { apply flat_inf_Permutation, Permutation_swap. }
  split; [exact Hperm|].
  exact (combinePerms_permutation_idempotent _ _ Hperm).
Defined.

(** ** [reduceToRecord] *)

Section ReduceToRecord.
Context `{Pf : Platform}.

Lemma has_property_own (name : string) (inputRecord : gmap string string) :
  name ∉ object_prototype_keys →
  has_property name inputRecord = bool_decide (is_Some (inputRecord !! name)).
Proof.
  intros Hname. unfold has_property.
  rewrite (bool_decide_eq_false_2 _ Hname). apply orb_false_r.
Qed.

Lemma reduceToRecord_defined (dir : string) :
  reduceToRecord (Some dir) = Ok (reducer dir).
Proof. reflexivity. Qed.

Lemma reduce_cons (f : gmap string string → string → result (gmap string string))
    (x : string) (ary : list string) (init : gmap string string) :
  reduce f (x :: ary) init
  = match f init x with Ok r => reduce f ary r | Throw e => Throw e end.
Proof. reflexivity. Qed.

Lemma reducer_free (dir filename : string) (inputRecord : gmap string string) :
  entry_name dir filename ∉ object_prototype_keys →
  inputRecord !! entry_name dir filename = None →
  reducer dir inputRecord filename
  = Ok (<[entry_name dir filename := filename]> inputRecord).
Proof.
  intros Hname Hfree. unfold reducer. cbv zeta.
  rewrite (has_property_own _ _ Hname), Hfree.
  by rewrite bool_decide_eq_false_2 by (by intros [? ?]).
Qed.

Lemma reduce_returns (dir : string) (paths : list string) (init : gmap string string) :
  Forall (λ p, entry_name dir p ∉ object_prototype_keys) paths →
  names_free dir paths init →
  ∃ r, reduce (reducer dir) paths init = Ok r
       ∧ (∀ p, p ∈ paths → r !! entry_name dir p = Some p)
       ∧ (∀ k, k ∉ entry_name dir <$> paths → r !! k = init !! k).
Proof.
  revert init. induction paths as [|p paths IH]; intros init Hproto [Hnd Hfresh].
  - exists init. split_and!; [done| |done]. intros p Hp. by apply elem_of_nil in Hp.
  - apply Forall_cons in Hproto as [Hp Hproto].
    rewrite fmap_cons in Hnd. apply NoDup_cons in Hnd as [Hp_new Hnd].
    assert (init !! entry_name dir p = None) as Hinit by (apply Hfresh; left).
    destruct (IH (<[entry_name dir p := p]> init) Hproto) as (r & Hr & Hin & Hout).
    { split; [done|]. intros q Hq. rewrite lookup_insert_ne.
      - apply Hfresh. by right.
      - intros Heq. apply Hp_new. rewrite Heq. by apply list_elem_of_fmap_2. }
    exists r. split_and!.
    + rewrite reduce_cons, (reducer_free _ _ _ Hp Hinit). exact Hr.
    + intros q [->|Hq]%elem_of_cons; [|by apply Hin].
      rewrite (Hout _ Hp_new). apply lookup_insert_eq.
    + intros k Hk. rewrite fmap_cons in Hk. apply not_elem_of_cons in Hk as [Hk1 Hk2].
      rewrite (Hout _ Hk2). by apply lookup_insert_ne.
Qed.

Lemma reduce_throws (dir : string) (paths : list string) (init : gmap string string) :
  ¬ names_free dir paths init →
  ∃ filename name, reduce (reducer dir) paths init = Throw (ScriptNamesShared filename name).
Proof.
  revert init. induction paths as [|p paths IH]; intros init Hfree.
  - destruct Hfree. split; [constructor|]. intros p Hp. by apply elem_of_nil in Hp.
  - rewrite reduce_cons. unfold reducer at 1. cbv zeta.
    destruct (has_property (entry_name dir p) init) eqn:Hhas; [by eexists _, _|].
    apply (IH (<[entry_name dir p := p]> init)). intros [Hnd Hfresh].
    apply orb_false_iff in Hhas as [Hown _].
    apply bool_decide_eq_false_1 in Hown. apply eq_None_not_Some in Hown.
    apply Hfree. split.
    + rewrite fmap_cons. apply NoDup_cons. split; [|done].
      intros (q & Heq & Hq)%list_elem_of_fmap.
      specialize (Hfresh q Hq). rewrite <- Heq in Hfresh.
      by rewrite lookup_insert_eq in Hfresh.
    + intros q [->|Hq]%elem_of_cons; [done|].
      specialize (Hfresh q Hq).
      destruct (decide (entry_name dir p = entry_name dir q)) as [Heq|Hne].
      * rewrite <- Heq in Hfresh. by rewrite lookup_insert_eq in Hfresh.
      * by rewrite lookup_insert_ne in Hfresh.
Qed.

(** Two entries at different places with one name rule out
    [names_free]. *)
Lemma names_free_distinct (dir : string) (paths : list string)
    (init : gmap string string) (p q : string) :
  p ∈ paths → q ∈ paths → p ≠ q → entry_name dir p = entry_name dir q →
  ¬ names_free dir paths init.
Proof.
  intros Hp Hq Hpq Hname [Hnd _]. apply Hpq.
  apply list_elem_of_lookup in Hp as [i Hi]. apply list_elem_of_lookup in Hq as [j Hj].
  assert (i = j) as ->; [|congruence].
  eapply NoDup_lookup; [exact Hnd| |].
  - rewrite list_lookup_fmap, Hi. reflexivity.
  - rewrite list_lookup_fmap, Hj. simpl. by rewrite Hname.
Qed.

End ReduceToRecord.

(** The cases of the fold, for a defined source directory and names
    that are not inherited property names: when the names of the entries
    are pairwise different and not yet keys of the starting record, the
    fold returns a record that maps the name of each entry to its path
    and leaves the other keys as they were; otherwise it throws, so it
    throws whenever two different paths of the list have one name. With
    a null or undefined source directory [reduceToRecord] throws a
    [TypeError] before any entry is read. *)
Lemma reduceToRecord_spec `{Pf : Platform} (dir : string) (paths : list string)
    (init : gmap string string) :
  (Forall (λ p, entry_name dir p ∉ object_prototype_keys) paths →
   names_free dir paths init →
   ∃ r, reduce_to_record (Some dir) paths init = Ok r
        ∧ (∀ p, p ∈ paths → r !! entry_name dir p = Some p)
        ∧ (∀ k, k ∉ entry_name dir <$> paths → r !! k = init !! k))
  ∧ (¬ names_free dir paths init →
     ∃ filename name,
       reduce_to_record (Some dir) paths init = Throw (ScriptNamesShared filename name))
  ∧ (∀ p q, p ∈ paths → q ∈ paths → p ≠ q →
     entry_name dir p = entry_name dir q →
     ∃ filename name,
       reduce_to_record (Some dir) paths init = Throw (ScriptNamesShared filename name))
  ∧ reduceToRecord None = Throw SrcDirNullOrUndefined
  ∧ reduce_to_record None paths init = Throw SrcDirNullOrUndefined
  ∧ class_of SrcDirNullOrUndefined = IsTypeError.
Proof.
  split_and!; try reflexivity.
  - intros Hproto Hfree. by apply reduce_returns.
  - intros Hfree. by apply reduce_throws.
  - intros p q Hp Hq Hpq Hname.
    apply reduce_throws. by apply (names_free_distinct dir paths init p q).
Qed.

Section ReduceToRecordExamples.
#[local] Existing Instance posix.

Example reduceToRecord_two_entries :
  Forall (λ p, entry_name "src" p ∉ object_prototype_keys)
    ["src/background.ts"; "src/pages/popup.html"]
  ∧ names_free "src" ["src/background.ts"; "src/pages/popup.html"] ∅
  ∧ ∃ r, reduce_to_record (Some "src") ["src/background.ts"; "src/pages/popup.html"] ∅
         = Ok r
         ∧ (∀ p, p ∈ ["src/background.ts"; "src/pages/popup.html"] →
                 r !! entry_name "src" p = Some p)
         ∧ (∀ k, k ∉ entry_name "src" <$> ["src/background.ts"; "src/pages/popup.html"] →
                 r !! k = (∅ : gmap string string) !! k).
Proof.
  assert (Forall (λ p, entry_name "src" p ∉ object_prototype_keys)
            ["src/background.ts"; "src/pages/popup.html"]) as Hproto.
  { repeat constructor; vm_compute; intros Hin;
      repeat (apply elem_of_cons in Hin as [Hin|Hin]; [discriminate|]);
      by apply elem_of_nil in Hin. }
  assert (names_free "src" ["src/background.ts"; "src/pages/popup.html"] ∅) as Hfree.
  { split; [|intros p _; apply lookup_empty].
    vm_compute. repeat constructor; intros Hin;
      repeat (apply elem_of_cons in Hin as [Hin|Hin]; [discriminate|]);
      by apply elem_of_nil in Hin. }
  split_and!; [exact Hproto|exact Hfree|].
  exact (proj1 (reduceToRecord_spec "src" ["src/background.ts"; "src/pages/popup.html"] ∅)
           Hproto Hfree).
Defined.

(** C10. One path listed twice. No two different paths of the list
    share a name, and the path alone gives the record of its name; yet
    the fold throws the error about script files with different
    extensions that share a name, the second entry overwriting the
    first, which is the same file. The test is [name in inputRecord]:
    the paths are not compared. *)
Theorem reduceToRecord_path_listed_twice :
  (∀ p q, p ∈ ["src/background.ts"; "src/background.ts"] →
          q ∈ ["src/background.ts"; "src/background.ts"] →
          p ≠ q → entry_name "src" p ≠ entry_name "src" q)
  ∧ reduce_to_record (Some "src") ["src/background.ts"] ∅
    = Ok {[ "background" := "src/background.ts" ]}
  ∧ reduce_to_record (Some "src") ["src/background.ts"; "src/background.ts"] ∅
    = Throw (ScriptNamesShared "src/background.ts" "background").
Proof.
  split_and!; [|vm_compute; reflexivity..].
  intros p q Hp Hq Hpq. exfalso. apply Hpq.
  repeat (apply elem_of_cons in Hp as [->|Hp]);
    repeat (apply elem_of_cons in Hq as [->|Hq]);
    try reflexivity; by (apply elem_of_nil in Hp || apply elem_of_nil in Hq).
Qed.

(** An entry whose name is an inherited property name is refused even
    when it is the only entry. *)
Example reduceToRecord_inherited_name :
  reduce_to_record (Some "src") ["src/constructor.ts"] ∅
  = Throw (ScriptNamesShared "src/constructor.ts" "constructor").
Proof. vm_compute. reflexivity. Qed.

Example reduceToRecord_two_extensions :
  reduce_to_record (Some "src") ["src/popup.ts"; "src/popup.html"] ∅
  = Throw (ScriptNamesShared "src/popup.html" "popup").
Proof. vm_compute. reflexivity. Qed.

End ReduceToRecordExamples.

(** ** [deriveFiles] *)

Section DeriveFiles.
Context `{Pf : Platform}.

Lemma elem_of_validate (srcDir x : string) (ary : list (option string)) :
  x ∈ validate srcDir ary ↔ ∃ f, x = path_join srcDir f ∧ Some f ∈ ary.
Proof.
  unfold validate. rewrite list_elem_of_fmap.
  split; intros (f & Hx & Hf); exists f; split; try done.
  - by apply elem_of_defined, elem_of_uniq.
  - by apply elem_of_uniq, elem_of_defined.
Qed.

Lemma NoDup_validate (srcDir : string) (ary : list (option string)) :
  (∀ f g, Some f ∈ ary → Some g ∈ ary →
          path_join srcDir f = path_join srcDir g → f = g) →
  NoDup (validate srcDir ary).
Proof.
  intros Hinj. unfold validate. apply NoDup_fmap_2_strong; [|apply NoDup_uniq].
  intros f g Hf%elem_of_uniq%elem_of_defined Hg%elem_of_uniq%elem_of_defined.
  by apply Hinj.
Qed.

Lemma elem_of_difference (f : string) (array : list string)
    (values : list (option string)) :
  f ∈ difference array values ↔ f ∈ array ∧ Some f ∉ values.
Proof. unfold difference. rewrite list_elem_of_filter. tauto. Qed.

(** A path of [others] is in none of the lists taken away from it. *)
Lemma validate_difference (srcDir x : string) (files : list string)
    (values part : list (option string)) :
  (∀ f g, f ∈ difference files values → Some g ∈ part →
          path_join srcDir f = path_join srcDir g → f = g) →
  (∀ v, v ∈ part → v ∈ values) →
  x ∈ validate srcDir (Some <$> difference files values) →
  x ∉ validate srcDir part.
Proof.
  intros Hinj Hpart (f & -> & Hf)%elem_of_validate (g & Hfg & Hg)%elem_of_validate.
  apply list_elem_of_fmap in Hf as (f' & [= <-] & Hf).
  apply Hinj in Hfg as <-; [|done..].
  apply elem_of_difference in Hf as [_ Hf]. by apply Hf, Hpart.
Qed.

Lemma elem_of_entries (a : Arrays) (f : string) :
  f ∈ entries a
  ↔ Some f ∈ a_css a ∨ Some f ∈ a_contentScripts a ∨ Some f ∈ a_js a
    ∨ Some f ∈ a_html a ∨ Some f ∈ a_img a ∨ Some f ∈ a_others a.
Proof. unfold entries. by rewrite elem_of_defined, !elem_of_app. Qed.

Lemma deriveFiles_validated (manifest : Manifest) (srcDir : string)
    (options : DeriveOptions) :
  deriveFiles manifest srcDir options
  = validated srcDir (arrays manifest srcDir options).
Proof. by destruct manifest. Qed.

(** [others] is what of [files] is in none of the other arrays, and
    [js] holds the content scripts when asked to. *)
Lemma arrays_others (manifest : Manifest) (srcDir : string) (options : DeriveOptions) :
  let a := arrays manifest srcDir options in
  ∃ files,
    a_others a
    = Some <$> difference files
        (a_css a ++ a_contentScripts a ++ a_js a ++ a_html a ++ a_img a).
Proof.
  destruct manifest;
    cbn [arrays arraysMV2 arraysMV3 a_css a_contentScripts a_js a_html a_img
         a_others];
    by eexists.
Qed.

Lemma arrays_content_scripts (manifest : Manifest) (srcDir : string)
    (options : DeriveOptions) (v : option string) :
  opt_contentScripts options = true →
  v ∈ a_contentScripts (arrays manifest srcDir options) →
  v ∈ a_js (arrays manifest srcDir options).
Proof.
  intros Hopt.
  destruct manifest;
    cbn [arrays arraysMV2 arraysMV3 a_js a_contentScripts];
    rewrite Hopt, !elem_of_app; tauto.
Qed.

End DeriveFiles.

(** C1, amended. Where [path.join(srcDir, ·)] sends the different
    entries of the manifest to different paths, each of the six
    categories is free of duplicates and [others] shares no path with
    any of the other five. The other categories may overlap: with
    [options.contentScripts] set, every content script is also in
    [js]. *)
Theorem deriveFiles_categories `{Pf : Platform} (manifest : Manifest)
    (srcDir : string) (options : DeriveOptions) :
  (∀ f g, f ∈ entries (arrays manifest srcDir options) →
          g ∈ entries (arrays manifest srcDir options) →
          path_join srcDir f = path_join srcDir g → f = g) →
  let d := deriveFiles manifest srcDir options in
  (NoDup (d_js d) ∧ NoDup (d_html d) ∧ NoDup (d_css d) ∧ NoDup (d_img d)
   ∧ NoDup (d_contentScripts d) ∧ NoDup (d_others d))
  ∧ (∀ x, x ∈ d_others d →
       (x ∉ d_js d) ∧ (x ∉ d_html d) ∧ (x ∉ d_css d) ∧ (x ∉ d_img d)
       ∧ (x ∉ d_contentScripts d))
  ∧ (opt_contentScripts options = true →
     ∀ x, x ∈ d_contentScripts d → x ∈ d_js d).
Proof.
  intros Hinj d. subst d. rewrite deriveFiles_validated.
  destruct (arrays_others manifest srcDir options) as [files Hothers].
  pose proof (arrays_content_scripts manifest srcDir options) as Hscripts.
  set (a := arrays manifest srcDir options) in *.
  assert (∀ f g, Some f ∈ a_css a ++ a_contentScripts a ++ a_js a ++ a_html a
                            ++ a_img a ++ a_others a →
                 Some g ∈ a_css a ++ a_contentScripts a ++ a_js a ++ a_html a
                            ++ a_img a ++ a_others a →
                 path_join srcDir f = path_join srcDir g → f = g) as Hinj'.
  { intros f g Hf Hg. apply Hinj; by apply elem_of_defined. }
  cbn [validated d_js d_html d_css d_img d_contentScripts d_others].
  split_and!.
  1-6: apply NoDup_validate; intros f g Hf Hg; apply Hinj';
       rewrite !elem_of_app; tauto.
  - intros x Hx. rewrite Hothers in Hx.
    assert (∀ part,
              (∀ v, v ∈ part →
                    v ∈ a_css a ++ a_contentScripts a ++ a_js a ++ a_html a
                          ++ a_img a) →
              x ∉ validate srcDir part) as Hnot.
    { intros part Hpart. eapply validate_difference; [|exact Hpart|exact Hx].
      intros f g Hf Hg. apply Hinj'.
      - rewrite Hothers, !elem_of_app. do 5 right. by apply list_elem_of_fmap_2.
      - apply Hpart in Hg. rewrite !elem_of_app in Hg. rewrite !elem_of_app. tauto. }
    split_and!; apply Hnot; intros v Hv; rewrite !elem_of_app; tauto.
  - intros Hopt x (f & -> & Hf)%elem_of_validate.
    apply elem_of_validate. exists f. split; [done|]. by apply Hscripts.
Qed.

Section DeriveFilesExamples.
#[local] Existing Instance posix.

Example deriveFiles_sample :
  deriveFiles manifest_with_content_script "src" {| opt_contentScripts := true |}
  = {| d_css := []; d_contentScripts := ["src/content.ts"];
       d_js := ["src/content.ts"]; d_html := ["src/options.html"];
       d_img := ["src/icon.png"]; d_others := [] |}.
Proof. vm_compute. reflexivity. Qed.

Lemma deriveFiles_categories_witness :
  (∀ f g,
     f ∈ entries (arrays manifest_with_content_script "src"
                    {| opt_contentScripts := true |}) →
     g ∈ entries (arrays manifest_with_content_script "src"
                    {| opt_contentScripts := true |}) →
     path_join "src" f = path_join "src" g → f = g)
  ∧ let d := deriveFiles manifest_with_content_script "src"
               {| opt_contentScripts := true |} in
    (NoDup (d_js d) ∧ NoDup (d_html d) ∧ NoDup (d_css d) ∧ NoDup (d_img d)
     ∧ NoDup (d_contentScripts d) ∧ NoDup (d_others d))
    ∧ (∀ x, x ∈ d_others d →
         (x ∉ d_js d) ∧ (x ∉ d_html d) ∧ (x ∉ d_css d) ∧ (x ∉ d_img d)
         ∧ (x ∉ d_contentScripts d))
    ∧ (opt_contentScripts {| opt_contentScripts := true |} = true →
       ∀ x, x ∈ d_contentScripts d → x ∈ d_js d).
Proof.
  assert (∀ f g,
     f ∈ entries (arrays manifest_with_content_script "src"
                    {| opt_contentScripts := true |}) →
     g ∈ entries (arrays manifest_with_content_script "src"
                    {| opt_contentScripts := true |}) →
     path_join "src" f = path_join "src" g → f = g) as Hinj.
  { assert (entries (arrays manifest_with_content_script "src"
                       {| opt_contentScripts := true |})
            = ["content.ts"; "content.ts"; "options.html"; "icon.png"]) as ->
      by (vm_compute; reflexivity).
    intros f g Hf Hg.
    repeat (apply elem_of_cons in Hf as [->|Hf]);
      try (by apply elem_of_nil in Hf);
      repeat (apply elem_of_cons in Hg as [->|Hg]);
      try (by apply elem_of_nil in Hg);
      intros Heq; vm_compute in Heq; first [reflexivity|discriminate]. }
  split; [exact Hinj|].
  exact (deriveFiles_categories manifest_with_content_script "src"
           {| opt_contentScripts := true |} Hinj).
Defined.

(** One page under two spellings: the entries differ, the joined paths
    do not, and [html] has the path twice. *)
Example deriveFiles_two_spellings :
  d_html (deriveFiles two_spellings "src" {| opt_contentScripts := true |})
  = ["src/options.html"; "src/options.html"].
Proof. vm_compute. reflexivity. Qed.

(** C1, as the claim states it, fails: the content script of the
    manifest is both in [js] and in [contentScripts]. *)
Lemma deriveFiles_overlap_counterexample :
  ¬ (∀ x,
       x ∈ d_js (deriveFiles manifest_with_content_script "src"
                   {| opt_contentScripts := true |}) →
       x ∉ d_contentScripts (deriveFiles manifest_with_content_script "src"
                               {| opt_contentScripts := true |})).
Proof.
  intros Hdisjoint. apply (Hdisjoint "src/content.ts"); vm_compute; left.
Qed.

End DeriveFilesExamples.

(** ** [updateManifestV3] *)

Ltac run_se :=
  cbn [run mbind se_bind mret se_ret gets lift modify throw write_cache
       write_options arg_options arg_cache arg_m Cache.srcDir
       Cache.contentScripts Cache.set_chunkFileNames].

Section UpdateManifestV3.
Context `{Pf : Platform}.

Lemma module_background_common (m : ManifestV3) :
  v3_common (module_background m) = v3_common m.
Proof. unfold module_background. by destruct (v3_background m). Qed.

Lemma module_background_rest (m : ManifestV3) :
  host_permissions (module_background m) = host_permissions m
  ∧ v3_web_accessible_resources (module_background m)
    = v3_web_accessible_resources m.
Proof. unfold module_background. by destruct (v3_background m). Qed.

(** Without content scripts only the background is tagged. *)
Lemma updateManifestV3_plain (m : ManifestV3) (options : RollupOptions)
    (wrap : bool) (cache : Cache.t) :
  content_scripts (v3_common m) = None →
  updateManifestV3 m options wrap cache
  = ({| arg_m := m; arg_options := options; arg_cache := cache |},
     Ok (module_background m)).
Proof.
  intros Hcs. unfold updateManifestV3, updateManifestV3_body, cloneObject.
  run_se. by rewrite module_background_common, Hcs.
Qed.

(** With content scripts: the steps of the rewrite, one after the
    other, with the objects as each step leaves them. *)
Lemma updateManifestV3_steps (m : ManifestV3) (options : RollupOptions)
    (wrap : bool) (cache : Cache.t) (scripts : list ContentScript) :
  content_scripts (v3_common m) = Some scripts →
  updateManifestV3 m options wrap cache
  = match first_output (output options) with
    | Throw e =>
        ({| arg_m := m; arg_options := options; arg_cache := cache |}, Throw e)
    | Ok first =>
        let cfn := default default_chunkFileNames (chunkFileNames first) in
        let cache' := Cache.set_chunkFileNames (Some cfn) cache in
        if multiple_chunkFileNames options
        then ({| arg_m := m; arg_options := options; arg_cache := cache' |},
              Throw MultipleChunkFileNames)
        else
          let after :=
            {| arg_m := m; arg_options := with_chunkFileNames cfn options;
               arg_cache := cache' |} in
          match rmapM convertMatchPatterns (all_patterns m scripts) with
          | Throw e => (after, Throw e)
          | Ok allMatches =>
              match rmapM (relative_to (Cache.srcDir cache))
                      (Cache.contentScripts cache) with
              | Throw e => (after, Throw e)
              | Ok scriptPaths =>
                  (after,
                   Ok (with_rule m scripts wrap
                         {| resources := slash (chunk_glob cfn) :: scriptPaths;
                            matches := Js.uniq allMatches |}))
              end
          end
    end.
Proof.
  intros Hcs. unfold updateManifestV3, updateManifestV3_body, cloneObject.
  run_se. rewrite module_background_common, Hcs. run_se.
  destruct (first_output (output options)) as [first|e] eqn:Hfirst; [|done].
  unfold multiple_chunkFileNames, with_chunkFileNames, all_patterns.
  destruct (module_background_rest m) as [-> _].
  destruct (output options) as [[o|outs]|] eqn:Hout; run_se.
  2: case_bool_decide; run_se; [reflexivity|].
  all: destruct (rmapM convertMatchPatterns _) as [allMatches|e];
       [destruct (rmapM (relative_to _) _) as [scriptPaths|e]|].
  all: unfold with_rule; rewrite ?module_background_common;
       destruct options, wrap; reflexivity.
Qed.

Lemma rmapM_Throw {A B : Type} (f : A → result B) (l : list A) (e : error) :
  rmapM f l = Throw e → ∃ x, x ∈ l ∧ f x = Throw e.
Proof.
  induction l as [|x l IH]; cbn [rmapM]; [done|].
  destruct (f x) as [y|e'] eqn:Hx; cbn.
  - destruct (rmapM f l) as [ys|e'']; cbn; [done|].
    intros [= ->]. destruct IH as (z & Hz & Hfz); [done|].
    exists z. split; [by right|done].
  - intros [= ->]. exists x. split; [left|done].
Qed.

Lemma rmapM_Ok {A B : Type} (f : A → result B) (g : A → B) (l : list A) :
  (∀ x, x ∈ l → f x = Ok (g x)) → rmapM f l = Ok (g <$> l).
Proof.
  induction l as [|x l IH]; intros Hf; cbn [rmapM]; [done|].
  rewrite (Hf x) by left. cbn. rewrite IH by (intros y Hy; apply Hf; by right).
  done.
Qed.

(** [convertMatchPatterns] throws runtime type errors only. *)
Lemma convertMatchPatterns_Throw (pattern : string) (e : error) :
  convertMatchPatterns pattern = Throw e → ∃ site, e = RuntimeTypeError site.
Proof.
  unfold convertMatchPatterns.
  destruct (Js.split "://" pattern !! 1%nat) as [rest|]; [|intros [= <-]; eauto].
  destruct (url_origin _) as [origin|]; [|intros [= <-]; eauto].
  destruct (Js.split "://" origin !! 1%nat); [done|intros [= <-]; eauto].
Qed.

Lemma relative_to_Throw (srcDir : option string) (x : string) (e : error) :
  relative_to srcDir x = Throw e → ∃ site, e = RuntimeTypeError site.
Proof. destruct srcDir; [done|intros [= <-]; eauto]. Qed.

Lemma first_output_Throw (out : option RollupOutput) (e : error) :
  first_output out = Throw e → ∃ site, e = RuntimeTypeError site.
Proof. destruct out as [[?|[|??]]|]; try done. intros [= <-]; eauto. Qed.

Lemma multiple_first_output (options : RollupOptions) :
  multiple_chunkFileNames options = true →
  ∃ first, first_output (output options) = Ok first.
Proof.
  unfold multiple_chunkFileNames.
  destruct (output options) as [[o|[|o outs]]|]; try done.
  intros _. by eexists.
Qed.

(** The guard, and nothing else, throws [MultipleChunkFileNames]. *)
Lemma updateManifestV3_guard (m : ManifestV3) (options : RollupOptions)
    (wrap : bool) (cache : Cache.t) (scripts : list ContentScript) :
  content_scripts (v3_common m) = Some scripts →
  (updateManifestV3 m options wrap cache).2 = Throw MultipleChunkFileNames
  ↔ multiple_chunkFileNames options = true.
Proof.
  intros Hcs. rewrite (updateManifestV3_steps _ _ _ _ _ Hcs).
  destruct (first_output (output options)) as [first|e] eqn:Hfirst.
  - cbv zeta. destruct (multiple_chunkFileNames options); cbn; [done|].
    split; [|done].
    destruct (rmapM convertMatchPatterns _) as [?|e] eqn:Hconv.
    + destruct (rmapM (relative_to _) _) as [?|e] eqn:Hrel; [done|].
      intros [= ->]. apply rmapM_Throw in Hrel as (? & _ & Hx).
      by apply relative_to_Throw in Hx as [? ?].
    + intros [= ->]. apply rmapM_Throw in Hconv as (? & _ & Hx).
      by apply convertMatchPatterns_Throw in Hx as [? ?].
  - cbn. split.
    + intros [= ->]. by apply first_output_Throw in Hfirst as [? ?].
    + intros [? Hok]%multiple_first_output. congruence.
Qed.

Lemma with_rule_resources (m : ManifestV3) (scripts : list ContentScript)
    (wrap : bool) (rule : ResourceRule) :
  v3_web_accessible_resources (with_rule m scripts wrap rule)
  = Some (default [] (v3_web_accessible_resources m) ++ [rule]).
Proof.
  unfold with_rule. destruct (module_background_rest m) as [_ Hwar].
  destruct wrap; cbn; by rewrite Hwar.
Qed.

Lemma with_chunkFileNames_input (cfn : string) (options : RollupOptions) :
  input (with_chunkFileNames cfn options) = input options.
Proof. unfold with_chunkFileNames. by destruct (output options) as [[?|?]|]. Qed.

(** The set over the outputs: its members, without repetition. *)
Lemma chunkFileNames_set_spec (outs : list OutputOptions) :
  NoDup (chunkFileNames_set outs)
  ∧ ∀ k, k ∈ chunkFileNames_set outs
         ↔ k ∈ (λ x, default "no cfn" (chunkFileNames x)) <$> outs.
Proof.
  unfold chunkFileNames_set.
  assert (∀ acc, NoDup acc →
    NoDup (fold_left (λ r x, Js.set_add (default "no cfn" (chunkFileNames x)) r) outs acc)
    ∧ ∀ k, k ∈ fold_left (λ r x, Js.set_add (default "no cfn" (chunkFileNames x)) r) outs acc
           ↔ k ∈ acc ∨ k ∈ (λ x, default "no cfn" (chunkFileNames x)) <$> outs) as Hgen.
  { induction outs as [|x outs IH]; intros acc Hacc; cbn [fold_left].
    - split; [done|]. intros k. rewrite fmap_nil, elem_of_nil. tauto.
    - destruct (IH (Js.set_add (default "no cfn" (chunkFileNames x)) acc)) as [Hnd Hin].
      { by apply NoDup_set_add. }
      split; [done|]. intros k.
      rewrite Hin, elem_of_set_add, fmap_cons, elem_of_cons. tauto. }
  destruct (Hgen [] (NoDup_nil_2)) as [Hnd Hin]. split; [done|].
  intros k. rewrite Hin, elem_of_nil. tauto.
Qed.

Lemma distinct_fmap {A B : Type} `{EqDecision A, EqDecision B} (f : A → B)
    (l : list A) :
  (∀ x y, x ∈ l → y ∈ l → f x = f y → x = y) →
  distinct (f <$> l) = distinct l.
Proof.
  intros Hinj. unfold distinct.
  rewrite <- (length_fmap f (remove_dups l)).
  apply Permutation_length, NoDup_Permutation.
  - apply NoDup_remove_dups.
  - apply NoDup_fmap_2_strong; [|apply NoDup_remove_dups].
    intros x y Hx Hy. apply Hinj; by apply elem_of_remove_dups.
  - intros k. rewrite elem_of_remove_dups, !list_elem_of_fmap.
    by setoid_rewrite elem_of_remove_dups.
Qed.

(** Unless an output names its chunks ['no cfn'], the size of the set
    is the number of distinct [chunkFileNames] values, an absent one
    being a value of its own. *)
Lemma chunkFileNames_set_distinct (outs : list OutputOptions) :
  (∀ x, x ∈ outs → chunkFileNames x ≠ Some "no cfn") →
  length (chunkFileNames_set outs) = distinct (chunkFileNames <$> outs).
Proof.
  intros Hsentinel. destruct (chunkFileNames_set_spec outs) as [Hnd Hin].
  rewrite <- (distinct_fmap (default "no cfn") (chunkFileNames <$> outs)).
  - unfold distinct. apply Permutation_length, NoDup_Permutation;
      [done|apply NoDup_remove_dups|].
    intros k. rewrite Hin, elem_of_remove_dups, <- list_fmap_compose. done.
  - intros v w (x & -> & Hx)%list_elem_of_fmap (y & -> & Hy)%list_elem_of_fmap.
    pose proof (Hsentinel x Hx) as Hx'. pose proof (Hsentinel y Hy) as Hy'.
    destruct (chunkFileNames x), (chunkFileNames y); cbn; congruence.
Qed.

End UpdateManifestV3.

(** C6, amended. For an MV3 manifest with content scripts and an array
    of outputs, [updateManifestV3] throws the [TypeError] for multiple
    [chunkFileNames] exactly when the outputs carry more than one
    distinct value, an output without [chunkFileNames] counting as
    carrying the placeholder ['no cfn']. Unless an output names its
    chunks ['no cfn'], that is the number of distinct [chunkFileNames]
    values, an absent one being a value of its own. *)
Theorem updateManifestV3_multiple_outputs `{Pf : Platform} (m : ManifestV3)
    (options : RollupOptions) (wrap : bool) (cache : Cache.t)
    (scripts : list ContentScript) (outs : list OutputOptions) :
  content_scripts (v3_common m) = Some scripts →
  output options = Some (OutputArray outs) →
  ((1 < length (chunkFileNames_set outs))%nat
   ↔ (updateManifestV3 m options wrap cache).2 = Throw MultipleChunkFileNames)
  ∧ ((∀ x, x ∈ outs → chunkFileNames x ≠ Some "no cfn") →
     length (chunkFileNames_set outs) = distinct (chunkFileNames <$> outs))
  ∧ class_of MultipleChunkFileNames = IsTypeError.
Proof.
  intros Hcs Hout. split_and!; [|apply chunkFileNames_set_distinct|done].
  rewrite (updateManifestV3_guard _ _ _ _ _ Hcs).
  unfold multiple_chunkFileNames. rewrite Hout.
  by rewrite bool_decide_eq_true.
Qed.

Section UpdateManifestV3Examples.
#[local] Existing Instance posix.

Lemma updateManifestV3_multiple_outputs_witness :
  content_scripts (v3_common two_content_scripts)
  = Some [content_script ["https://example.com/*"] ["content.ts"];
          content_script ["https://example.com/*"; "https://b.org:*/x"] ["other.ts"]]
  ∧ output (options_with (Some (OutputArray
      [{| chunkFileNames := Some "[name].js" |};
       {| chunkFileNames := Some "chunks/[name]-[hash].js" |}])))
    = Some (OutputArray
        [{| chunkFileNames := Some "[name].js" |};
         {| chunkFileNames := Some "chunks/[name]-[hash].js" |}])
  ∧ (updateManifestV3 two_content_scripts
       (options_with (Some (OutputArray
          [{| chunkFileNames := Some "[name].js" |};
           {| chunkFileNames := Some "chunks/[name]-[hash].js" |}])))
       true cache_with_scripts).2
    = Throw MultipleChunkFileNames.
Proof.
  split_and!; [reflexivity..|].
  apply (updateManifestV3_multiple_outputs two_content_scripts
           (options_with (Some (OutputArray
              [{| chunkFileNames := Some "[name].js" |};
               {| chunkFileNames := Some "chunks/[name]-[hash].js" |}])))
           true cache_with_scripts _ _ eq_refl eq_refl).
  vm_compute. lia.
Defined.

(** C6, as the claim states it, fails, whichever way the values are
    counted. With an absent [chunkFileNames] counted as a value, two
    outputs with the values ['no cfn'] and none carry two values and
    the rewrite does not throw; with only the values present counted,
    two outputs with one value and none carry one value and the
    rewrite throws. *)
Lemma updateManifestV3_chunkFileNames_counterexample :
  ((1 < distinct (chunkFileNames <$>
          [{| chunkFileNames := Some "no cfn" |}; {| chunkFileNames := None |}]))%nat
   ∧ (updateManifestV3 two_content_scripts
        (options_with (Some (OutputArray
           [{| chunkFileNames := Some "no cfn" |}; {| chunkFileNames := None |}])))
        true cache_with_scripts).2
     ≠ Throw MultipleChunkFileNames)
  ∧ ((distinct (omap chunkFileNames
         [{| chunkFileNames := Some "[name].js" |}; {| chunkFileNames := None |}])
      ≤ 1)%nat
     ∧ (updateManifestV3 two_content_scripts
          (options_with (Some (OutputArray
             [{| chunkFileNames := Some "[name].js" |}; {| chunkFileNames := None |}])))
          true cache_with_scripts).2
       = Throw MultipleChunkFileNames).
Proof.
  split_and!.
  - vm_compute. lia.
  - vm_compute. discriminate.
  - vm_compute. lia.
  - vm_compute. reflexivity.
Qed.

End UpdateManifestV3Examples.

(** C8, amended. [updateManifestV3] returns a rewritten copy and leaves
    the manifest it is given, and [options.input], as they are. It does
    write to its other arguments: when the manifest has content scripts
    and the call returns, the template it settled on has been written to
    [chunkFileNames] of [options.output], or of each of its elements,
    and to the cache. The options are left as they are when the manifest
    has no content scripts or [options.output] is absent. *)
Theorem updateManifestV3_arguments `{Pf : Platform} (m : ManifestV3)
    (options : RollupOptions) (wrap : bool) (cache : Cache.t) :
  arg_m (updateManifestV3 m options wrap cache).1 = m
  ∧ input (arg_options (updateManifestV3 m options wrap cache).1) = input options
  ∧ (content_scripts (v3_common m) = None →
     arg_options (updateManifestV3 m options wrap cache).1 = options
     ∧ arg_cache (updateManifestV3 m options wrap cache).1 = cache)
  ∧ (output options = None →
     arg_options (updateManifestV3 m options wrap cache).1 = options)
  ∧ (∀ manifest',
       is_Some (content_scripts (v3_common m)) →
       (updateManifestV3 m options wrap cache).2 = Ok manifest' →
       ∃ cfn, resolved_chunkFileNames options = Ok cfn
              ∧ arg_options (updateManifestV3 m options wrap cache).1
                = with_chunkFileNames cfn options
              ∧ arg_cache (updateManifestV3 m options wrap cache).1
                = Cache.set_chunkFileNames (Some cfn) cache).
Proof.
  destruct (content_scripts (v3_common m)) as [scripts|] eqn:Hcs.
  2:{ rewrite (updateManifestV3_plain _ _ _ _ Hcs). cbn.
      split_and!; try done; by intros ? [? ?]. }
  rewrite (updateManifestV3_steps _ _ _ _ _ Hcs).
  unfold resolved_chunkFileNames.
  destruct (first_output (output options)) as [first|e] eqn:Hfirst; cbn.
  2:{ split_and!; try done. }
  destruct (multiple_chunkFileNames options) eqn:Hmult; cbn.
  { split_and!; try done. }
  destruct (rmapM convertMatchPatterns _) as [allMatches|e]; cbn.
  2:{ split_and!; try done; [apply with_chunkFileNames_input|].
      intros Hout. unfold with_chunkFileNames. by rewrite Hout. }
  destruct (rmapM (relative_to _) _) as [scriptPaths|e]; cbn.
  2:{ split_and!; try done; [apply with_chunkFileNames_input|].
      intros Hout. unfold with_chunkFileNames. by rewrite Hout. }
  split_and!; try done; [apply with_chunkFileNames_input| |].
  - intros Hout. unfold with_chunkFileNames. by rewrite Hout.
  - intros manifest' _ _. by eexists.
Qed.

(** The rule of a rewrite that returns. For an MV3 manifest with
    content scripts, when the outputs pass the guard on
    [chunkFileNames], every pattern converts and the source directory is
    known, [updateManifestV3] returns a manifest whose
    [web_accessible_resources] are those of the manifest followed by one
    new rule. The [matches] of the rule are the converted patterns of
    the content scripts and of [host_permissions], each once, in order
    of first occurrence; its [resources] are [chunk_glob] of the
    template, followed by the path of every cached content script
    relative to the source directory. *)
Lemma updateManifestV3_resource_rule `{Pf : Platform} (m : ManifestV3)
    (options : RollupOptions) (wrap : bool) (cache : Cache.t)
    (scripts : list ContentScript) (cfn dir : string) (converted : list string) :
  content_scripts (v3_common m) = Some scripts →
  resolved_chunkFileNames options = Ok cfn →
  multiple_chunkFileNames options = false →
  rmapM convertMatchPatterns (all_patterns m scripts) = Ok converted →
  Cache.srcDir cache = Some dir →
  ∃ manifest' rule,
    (updateManifestV3 m options wrap cache).2 = Ok manifest'
    ∧ v3_web_accessible_resources manifest'
      = Some (default [] (v3_web_accessible_resources m) ++ [rule])
    ∧ matches rule = Js.uniq converted
    ∧ NoDup (matches rule)
    ∧ (∀ p, p ∈ matches rule ↔ p ∈ converted)
    ∧ resources rule
      = slash (chunk_glob cfn)
          :: ((λ x, slash (path_relative dir x)) <$> Cache.contentScripts cache).
Proof.
  intros Hcs Hcfn Hmult Hconv Hdir.
  rewrite (updateManifestV3_steps _ _ _ _ _ Hcs).
  unfold resolved_chunkFileNames in Hcfn.
  destruct (first_output (output options)) as [first|e]; [|done].
  cbn in Hcfn. injection Hcfn as Hcfn. cbv zeta. rewrite Hmult, Hconv, Hdir, Hcfn.
  rewrite (rmapM_Ok _ (λ x, slash (path_relative dir x))) by done.
  eexists _, _. split_and!; [reflexivity|apply with_rule_resources|reflexivity| | |reflexivity].
  - apply NoDup_uniq.
  - intros p. apply elem_of_uniq.
Qed.

Section RewriteExamples.
#[local] Existing Instance posix.

(** Two content scripts that share a pattern: one rule, the pattern
    once, both scripts after the glob of the chunks. *)
Example updateManifestV3_two_scripts :
  (manifest' ← (updateManifestV3 two_content_scripts (options_with None) true
                  cache_with_scripts).2;
   Ok (v3_web_accessible_resources manifest'))
  = Ok (Some [{| resources := ["chunks/*-*.js"; "content.ts"; "other.ts"];
                 matches := ["https://example.com/*"; "https://b.org:*/*"] |}]).
Proof. vm_compute. reflexivity. Qed.

Example updateManifestV3_rule_of_two_scripts :
  ∃ manifest' rule,
    (updateManifestV3 two_content_scripts (options_with None) true
       cache_with_scripts).2 = Ok manifest'
    ∧ v3_web_accessible_resources manifest'
      = Some (default [] (v3_web_accessible_resources two_content_scripts) ++ [rule])
    ∧ matches rule
      = Js.uniq ["https://example.com/*"; "https://example.com/*"; "https://b.org:*/*"]
    ∧ NoDup (matches rule)
    ∧ (∀ p, p ∈ matches rule
            ↔ p ∈ ["https://example.com/*"; "https://example.com/*";
                   "https://b.org:*/*"])
    ∧ resources rule
      = slash (chunk_glob default_chunkFileNames)
          :: ((λ x, slash (path_relative "src" x))
                <$> Cache.contentScripts cache_with_scripts).
Proof.
  exact (updateManifestV3_resource_rule two_content_scripts (options_with None)
           true cache_with_scripts
           [content_script ["https://example.com/*"] ["content.ts"];
            content_script ["https://example.com/*"; "https://b.org:*/x"] ["other.ts"]]
           default_chunkFileNames "src"
           ["https://example.com/*"; "https://example.com/*"; "https://b.org:*/*"]
           eq_refl eq_refl eq_refl eq_refl eq_refl).
Defined.

(** C2. Two slips keep the rewrite from the rule of the claim, with
    outputs that pass the guard on [chunkFileNames]. A content script
    matched by [<all_urls>]: the pattern has no scheme separator, so
    what follows it is undefined and splitting it throws a [TypeError];
    no manifest is returned and no rule is appended. A template that
    names a placeholder twice: each placeholder is replaced by one call
    of [replace] with a string pattern, which stops at the first
    occurrence, so the second [[name]] stays in the resources of the
    rule where the claim has a star. *)
Theorem updateManifestV3_rule_slips :
  is_Some (content_scripts (v3_common
             (bare_v3 (set_content_scripts
                (Some [content_script ["<all_urls>"] ["content.ts"]]) bare_common))))
  ∧ (updateManifestV3
       (bare_v3 (set_content_scripts
                   (Some [content_script ["<all_urls>"] ["content.ts"]]) bare_common))
       (options_with None) true cache_with_scripts).2
    = Throw (RuntimeTypeError "rest.split: rest is undefined")
  ∧ convertMatchPatterns "<all_urls>"
    = Throw (RuntimeTypeError "rest.split: rest is undefined")
  ∧ (manifest' ← (updateManifestV3 two_content_scripts
                    (options_with (Some (OutputObject
                       {| chunkFileNames := Some "[name]/[name]-[hash].js" |})))
                    true cache_with_scripts).2;
     Ok (v3_web_accessible_resources manifest'))
    = Ok (Some [{| resources := ["*/[name]-*.js"; "content.ts"; "other.ts"];
                   matches := ["https://example.com/*"; "https://b.org:*/*"] |}])
  ∧ chunk_glob "[name]/[name]-[hash].js" = "*/[name]-*.js".
Proof. split_and!; [by eexists|vm_compute; reflexivity..]. Qed.

Lemma updateManifestV3_arguments_witness :
  is_Some (content_scripts (v3_common two_content_scripts))
  ∧ ∃ cfn,
      resolved_chunkFileNames
        (options_with (Some (OutputObject {| chunkFileNames := None |}))) = Ok cfn
      ∧ arg_options
          (updateManifestV3 two_content_scripts
             (options_with (Some (OutputObject {| chunkFileNames := None |})))
             true cache_with_scripts).1
        = with_chunkFileNames cfn
            (options_with (Some (OutputObject {| chunkFileNames := None |})))
      ∧ arg_cache
          (updateManifestV3 two_content_scripts
             (options_with (Some (OutputObject {| chunkFileNames := None |})))
             true cache_with_scripts).1
        = Cache.set_chunkFileNames (Some cfn) cache_with_scripts.
Proof.
  assert (is_Some (content_scripts (v3_common two_content_scripts))) as Hcs
    by (by eexists).
  split; [exact Hcs|].
  destruct (updateManifestV3_arguments two_content_scripts
              (options_with (Some (OutputObject {| chunkFileNames := None |})))
              true cache_with_scripts) as (_ & _ & _ & _ & Hwrites).
  destruct ((updateManifestV3 two_content_scripts
               (options_with (Some (OutputObject {| chunkFileNames := None |})))
               true cache_with_scripts).2) as [manifest'|e] eqn:Hret.
  - exact (Hwrites manifest' Hcs eq_refl).
  - vm_compute in Hret. discriminate.
Defined.

(** C8, as the claim states it, fails: after the call the output of
    the options names the default template, which it did not before. *)
Lemma updateManifestV3_options_counterexample :
  arg_options
    (updateManifestV3 two_content_scripts
       (options_with (Some (OutputObject {| chunkFileNames := None |})))
       true cache_with_scripts).1
  = options_with (Some (OutputObject {| chunkFileNames := Some "chunks/[name]-[hash].js" |}))
  ∧ arg_options
      (updateManifestV3 two_content_scripts
         (options_with (Some (OutputObject {| chunkFileNames := None |})))
         true cache_with_scripts).1
    ≠ options_with (Some (OutputObject {| chunkFileNames := None |})).
Proof. split; vm_compute; [reflexivity|discriminate]. Qed.

End RewriteExamples.

(** ** The hooks *)

Ltac run_hook :=
  cbn [run mbind se_bind mret se_ret gets lift modify throw log on_cache
       set_manifestPath hs_cache hs_trace hs_options hs_manifestPath].

Lemma run_bind {S A B : Type} (m : SE S A) (k : A → SE S B) (s : S) :
  run (m ≫= k) s
  = match run m s with
    | (s', Ok a) => run (k a) s'
    | (s', Throw e) => (s', Throw e)
    end.
Proof. reflexivity. Qed.

Section Hooks.
Context `{Pf : Platform} `{Co : Collaborators}.

(** With a cached manifest the hook calls no stage of the pipeline. *)
Lemma options_hook_cached (cfg : PluginOptions) (s : HookState) :
  is_Some (Cache.manifest (hs_cache s)) →
  hs_trace (run (options_hook cfg) s).1 = hs_trace s.
Proof.
  intros Hcached. unfold options_hook. run_hook.
  rewrite (bool_decide_eq_true_2 _ Hcached). run_hook.
  destruct (reduce_to_record _ _ _) as [finalInput|e]; [|done].
  run_hook. by destruct (bool_decide (Cache.input (hs_cache s) = [])).
Qed.

(** The block that loads the manifest stops at the conflict of the two
    options fields, right after the explorer has been called. *)
Lemma load_manifest_conflict (cfg : PluginOptions) (s : HookState)
    (found : InputManifest) (config : Manifest) (filepath : string) :
  getInputManifestPath (hs_options s) = Ok found →
  explorer_load (inputManifestPath found) = Some (ConfigLoaded config filepath) →
  is_Some (options_page (common config)) →
  is_Some (options_ui (common config)) →
  run (load_manifest cfg) s
  = ({| hs_cache := assign_cache_values found (hs_cache s);
        hs_manifestPath := hs_manifestPath s; hs_options := hs_options s;
        hs_trace := hs_trace s ++ [LoadConfig (inputManifestPath found)] |},
     Throw OptionsBothDefined).
Proof.
  intros Hfound Hload Hpage Hui. unfold load_manifest. run_hook.
  rewrite Hfound. run_hook. rewrite Hload.
  rewrite (bool_decide_eq_true_2 _ Hpage), (bool_decide_eq_true_2 _ Hui).
  reflexivity.
Qed.

(** When the block that loads the manifest returns, it has called
    the explorer first and the validator last, and [deriveFiles] in
    between if the manifest is the source of the inputs; the cache
    then holds a manifest. *)
Lemma load_manifest_returns (cfg : PluginOptions) (s s' : HookState) :
  run (load_manifest cfg) s = (s', Ok ()) →
  ∃ path middle,
    hs_trace s' = hs_trace s ++ LoadConfig path :: middle ++ [ValidateManifest]
    ∧ (firstClassManifest cfg = true → DeriveFiles ∈ middle)
    ∧ is_Some (Cache.manifest (hs_cache s')).
Proof.
  unfold load_manifest. run_hook.
  destruct (getInputManifestPath (hs_options s)) as [found|e]; [|done].
  run_hook.
  destruct (explorer_load (inputManifestPath found)) as [[?|config filepath]|];
    [done| |done].
  destruct (bool_decide _ && bool_decide _); [done|]. run_hook.
  destruct (firstClassManifest cfg);
    (destruct (with_defaults _ _) as [m2|m3]; run_hook;
     [|unfold call_updateManifestV3; run_hook;
       destruct (updateManifestV3 _ _ _ _) as [after [updated|e]]; run_hook;
       [|done]]);
    (destruct (validateManifest _) as [validated|e]; [|done]);
    intros [= <-]; cbn [hs_trace hs_cache on_cache set_manifestPath Cache.manifest
                        Cache.set_manifest];
    rewrite <- ?app_assoc.
  - exists (inputManifestPath found), [DeriveFiles].
    split_and!; [done|intros _; left|by eexists].
  - exists (inputManifestPath found), [DeriveFiles; UpdateManifestV3].
    split_and!; [done|intros _; left|by eexists].
  - exists (inputManifestPath found), [].
    split_and!; [done|done|by eexists].
  - exists (inputManifestPath found), [UpdateManifestV3].
    split_and!; [done|done|by eexists].
Qed.

(** Past the loading the hook calls no stage. *)
Lemma options_hook_trace (cfg : PluginOptions) (s : HookState) :
  hs_trace (run (options_hook cfg) s).1
  = hs_trace
      (run (if bool_decide (is_Some (Cache.manifest (hs_cache s)))
            then mret () else load_manifest cfg) s).1.
Proof.
  unfold options_hook. rewrite run_bind. cbn [run gets]. rewrite run_bind.
  destruct (run (if bool_decide _ then mret () else load_manifest cfg) s)
    as [s1 [[]|e]]; [|done].
  run_hook.
  destruct (reduce_to_record _ _ _) as [finalInput|e]; [|done].
  run_hook. by destruct (bool_decide (Cache.input (hs_cache s1) = [])).
Qed.

(** The hook returns only if the loading, when there is one, did. *)
Lemma options_hook_returns (cfg : PluginOptions) (s s' : HookState)
    (r : RollupOptions) :
  run (options_hook cfg) s = (s', Ok r) →
  ∃ s1, run (if bool_decide (is_Some (Cache.manifest (hs_cache s)))
             then mret () else load_manifest cfg) s = (s1, Ok ()).
Proof.
  unfold options_hook. rewrite run_bind. cbn [run gets]. rewrite run_bind.
  destruct (run (if bool_decide _ then mret () else load_manifest cfg) s)
    as [s1 [[]|e]]; [|done].
  intros _. by eexists.
Qed.

Lemma assign_cache_values_derived (found : InputManifest) (c : Cache.t) :
  Cache.contentScripts (assign_cache_values found c) = Cache.contentScripts c
  ∧ Cache.input (assign_cache_values found c) = Cache.input c
  ∧ Cache.assets (assign_cache_values found c) = Cache.assets c
  ∧ Cache.manifest (assign_cache_values found c) = Cache.manifest c.
Proof.
  unfold assign_cache_values.
  by destruct (found_inputAry found), (found_inputObj found).
Qed.

End Hooks.

(** C7. When the cache holds no manifest and the loaded config defines
    both [options_page] and [options_ui], the [options] hook throws the
    error that the two cannot both be defined. The only stage called
    before is the explorer: [deriveFiles] is not called, and the derived
    lists of the cache are as they were. *)
Theorem options_hook_both_options `{Pf : Platform} `{Co : Collaborators}
    (cfg : PluginOptions) (s : HookState) (found : InputManifest)
    (config : Manifest) (filepath : string) :
  Cache.manifest (hs_cache s) = None →
  getInputManifestPath (hs_options s) = Ok found →
  explorer_load (inputManifestPath found) = Some (ConfigLoaded config filepath) →
  is_Some (options_page (common config)) →
  is_Some (options_ui (common config)) →
  (run (options_hook cfg) s).2 = Throw OptionsBothDefined
  ∧ message_of OptionsBothDefined
    = Some "options_ui and options_page cannot both be defined in manifest.json."
  ∧ hs_trace (run (options_hook cfg) s).1
    = hs_trace s ++ [LoadConfig (inputManifestPath found)]
  ∧ (DeriveFiles ∉ [LoadConfig (inputManifestPath found)])
  ∧ Cache.contentScripts (hs_cache (run (options_hook cfg) s).1)
    = Cache.contentScripts (hs_cache s)
  ∧ Cache.input (hs_cache (run (options_hook cfg) s).1) = Cache.input (hs_cache s)
  ∧ Cache.assets (hs_cache (run (options_hook cfg) s).1) = Cache.assets (hs_cache s)
  ∧ Cache.manifest (hs_cache (run (options_hook cfg) s).1) = None.
Proof.
  intros Hnone Hfound Hload Hpage Hui.
  assert (run (options_hook cfg) s
          = ({| hs_cache := assign_cache_values found (hs_cache s);
                hs_manifestPath := hs_manifestPath s; hs_options := hs_options s;
                hs_trace := hs_trace s ++ [LoadConfig (inputManifestPath found)] |},
             Throw OptionsBothDefined)) as ->.
  { unfold options_hook. rewrite run_bind. cbn [run gets]. rewrite Hnone.
    rewrite bool_decide_eq_false_2 by (by intros [? ?]).
    by rewrite run_bind, (load_manifest_conflict cfg s found config filepath). }
  cbn [fst snd hs_trace hs_cache].
  destruct (assign_cache_values_derived found (hs_cache s)) as (-> & -> & -> & ->).
  split_and!; try done.
  intros Hin. apply list_elem_of_singleton in Hin. discriminate.
Qed.

Section OptionsHookExamples.
#[local] Existing Instance posix_src.

Lemma options_hook_both_options_witness :
  (run (options_hook (Co := loading both_options) plugin_defaults)
     (fresh (options_with None))).2
  = Throw OptionsBothDefined
  ∧ hs_trace (run (options_hook (Co := loading both_options) plugin_defaults)
                (fresh (options_with None))).1
    = [LoadConfig "src/manifest.json"].
Proof.
  destruct (options_hook_both_options (Co := loading both_options) plugin_defaults
              (fresh (options_with None))
              {| inputManifestPath := "src/manifest.json"; found_inputAry := None;
                 found_inputObj := None |}
              both_options "src/manifest.json")
    as (Hthrow & _ & Htrace & _); [reflexivity|reflexivity|reflexivity| | |].
  - by eexists.
  - by eexists.
  - exact (conj Hthrow Htrace).
Defined.

(** A first pass over a manifest with one content script: every stage
    is called, in order. *)
Example options_hook_first_pass :
  hs_trace (run (options_hook (Co := loading manifest_with_content_script)
                   plugin_defaults)
              (fresh (options_with None))).1
  = [LoadConfig "src/manifest.json"; DeriveFiles; UpdateManifestV3;
     ValidateManifest].
Proof. vm_compute. reflexivity. Qed.

End OptionsHookExamples.

(** C5, amended. A change to a path that does not end in
    [manifest.json] evicts that path from the map of files read and sets
    [assetChanged] to whether it was there; the manifest, the derived
    lists and the permission hash of the cache are as before, and with a
    manifest in the cache the next [options] hook calls no stage of the
    pipeline. A change to a path that ends in [manifest.json] discards
    the manifest and resets [assetChanged]; the map of files read and
    the permission hash are as before; a next [options] hook that
    returns has loaded the config again, validated it again and, where
    the manifest is the source of the inputs, derived the files again. *)
Theorem watchChange_invalidation `{Pf : Platform} `{Co : Collaborators}
    (id : string) (cache : Cache.t) :
  (Js.endsWith manifestName id = false →
   Cache.readFile (watchChange id cache) = delete id (Cache.readFile cache)
   ∧ Cache.assetChanged (watchChange id cache)
     = bool_decide (is_Some (Cache.readFile cache !! id))
   ∧ Cache.manifest (watchChange id cache) = Cache.manifest cache
   ∧ kept cache (watchChange id cache)
   ∧ (∀ cfg s, hs_cache s = watchChange id cache →
        is_Some (Cache.manifest cache) →
        hs_trace (run (options_hook cfg) s).1 = hs_trace s))
  ∧ (Js.endsWith manifestName id = true →
     Cache.manifest (watchChange id cache) = None
     ∧ Cache.assetChanged (watchChange id cache) = false
     ∧ Cache.readFile (watchChange id cache) = Cache.readFile cache
     ∧ kept cache (watchChange id cache)
     ∧ (∀ cfg s s' r, hs_cache s = watchChange id cache →
          run (options_hook cfg) s = (s', Ok r) →
          ∃ path middle,
            hs_trace s' = hs_trace s ++ LoadConfig path :: middle ++ [ValidateManifest]
            ∧ (firstClassManifest cfg = true → DeriveFiles ∈ middle))).
Proof.
  split; intros Hid; unfold watchChange; rewrite Hid.
  - split_and!; try done.
    intros cfg s Hs Hcached. apply options_hook_cached. by rewrite Hs.
  - split_and!; try done.
    intros cfg s s' r Hs Hrun.
    pose proof (options_hook_trace cfg s) as Htrace.
    destruct (options_hook_returns cfg s s' r Hrun) as [s1 Hload].
    rewrite Hrun, Hload in Htrace. cbn [fst] in Htrace.
    rewrite Hs in Hload. cbn [Cache.manifest Cache.set_assetChanged Cache.set_manifest] in Hload.
    rewrite bool_decide_eq_false_2 in Hload by (by intros [? ?]).
    destruct (load_manifest_returns cfg s s1 Hload) as (path & middle & Hs1 & Hderive & _).
    exists path, middle. split; [congruence|done].
Qed.

Section WatchChangeExamples.
#[local] Existing Instance posix_src.

Lemma watchChange_invalidation_witness :
  (Js.endsWith manifestName "src/icon.png" = false
   ∧ Cache.readFile (watchChange "src/icon.png" cache_after_pass)
     = delete "src/icon.png" (Cache.readFile cache_after_pass)
   ∧ Cache.manifest (watchChange "src/icon.png" cache_after_pass)
     = Cache.manifest cache_after_pass
   ∧ kept cache_after_pass (watchChange "src/icon.png" cache_after_pass))
  ∧ (Js.endsWith manifestName "src/manifest.json" = true
     ∧ Cache.manifest (watchChange "src/manifest.json" cache_after_pass) = None
     ∧ kept cache_after_pass (watchChange "src/manifest.json" cache_after_pass)).
Proof.
  destruct (watchChange_invalidation (Co := loading manifest_with_content_script)
              "src/icon.png" cache_after_pass) as [Hasset _].
  destruct (watchChange_invalidation (Co := loading manifest_with_content_script)
              "src/manifest.json" cache_after_pass) as [_ Hmanifest].
  destruct (Hasset eq_refl) as (Hread & _ & Hkeep & Hkept & _).
  destruct (Hmanifest eq_refl) as (Hnone & _ & _ & Hkept' & _).
  split; [exact (conj eq_refl (conj Hread (conj Hkeep Hkept)))|].
  exact (conj eq_refl (conj Hnone Hkept')).
Defined.

(** C5, as the claim states it, fails: a change to the manifest leaves
    the permission hash of the last pass in the cache. *)
Lemma watchChange_permsHash_counterexample :
  Js.endsWith manifestName "src/manifest.json" = true
  ∧ Cache.permsHash (watchChange "src/manifest.json" cache_after_pass) = "[]"
  ∧ Cache.permsHash (watchChange "src/manifest.json" cache_after_pass)
    ≠ Cache.permsHash Cache.initial.
Proof. split_and!; [reflexivity|reflexivity|discriminate]. Qed.

(** After a change to the icon the next pass derives nothing; after a
    change to the manifest it runs every stage again. *)
Example next_pass_after_asset_change :
  hs_trace (run (options_hook (Co := loading manifest_with_content_script)
                   plugin_defaults)
              {| hs_cache := watchChange "src/icon.png" cache_after_pass;
                 hs_manifestPath := Some "src/manifest.json";
                 hs_options := options_with None; hs_trace := [] |}).1
  = [].
Proof. vm_compute. reflexivity. Qed.

Example next_pass_after_manifest_change :
  hs_trace (run (options_hook (Co := loading manifest_with_content_script)
                   plugin_defaults)
              {| hs_cache := watchChange "src/manifest.json" cache_after_pass;
                 hs_manifestPath := Some "src/manifest.json";
                 hs_options := options_with None; hs_trace := [] |}).1
  = [LoadConfig "src/manifest.json"; DeriveFiles; UpdateManifestV3;
     ValidateManifest].
Proof. vm_compute. reflexivity. Qed.

End WatchChangeExamples.

(** ** [convertMatchPatterns] *)

Section MatchPatternFacts.
Context `{Pf : Platform}.

Lemma occurs_scheme_separator_port (path : string) :
  Js.occurs "://" path = false → Js.occurs "://" (":*" +:+ path) = false.
Proof.
  intros Hpath. change (":*" +:+ path) with (String ":" (String "*" path)).
  cbn [Js.occurs]. rewrite Hpath, prefix_cons.
  destruct (Ascii.ascii_dec ":" ":"); [|done].
  by rewrite !(prefix_other "/" "*").
Qed.

(** A pattern with a host that has no wildcard port, and no such
    separator in its path: where the URL parser gives the host back,
    the conversion keeps scheme and host and sets the path to a star. *)
Lemma convertMatchPatterns_host (scheme host path : string) :
  Js.has_char ":" scheme = false →
  Js.occurs "://" (host +:+ path) = false →
  Js.occurs ":*" (host +:+ path) = false →
  url_origin ("http://" +:+ host +:+ path) = Some ("http://" +:+ host) →
  convertMatchPatterns (scheme +:+ "://" +:+ host +:+ path)
  = Ok (unescape (scheme +:+ "://" +:+ host +:+ "/*")).
Proof.
  intros Hscheme Hsep Hport Hurl. unfold convertMatchPatterns.
  rewrite (split_first ":" "//" scheme) by done.
  rewrite (split_whole "://" (host +:+ path)) by done.
  cbn [lookup list_lookup]. unfold split_wild_port.
  rewrite (split_whole ":*" (host +:+ path)) by done.
  cbn [intersperse lookup list_lookup].
  rewrite bool_decide_eq_false_2 by done. rewrite Hurl.
  change ("http://" +:+ host) with ("http" +:+ "://" +:+ host).
  rewrite (split_first ":" "//" "http" host) by done.
  rewrite (split_whole "://" host) by (by apply occurs_append_l in Hsep).
  reflexivity.
Qed.

(** A pattern whose host ends in a wildcard port: the port is put back
    after the parse. *)
Lemma convertMatchPatterns_wildcard_host (scheme host path : string) :
  Js.has_char ":" scheme = false →
  Js.has_char ":" host = false →
  Js.occurs "://" path = false →
  Js.occurs ":*" path = false →
  url_origin ("http://" +:+ host +:+ ":3333" +:+ path)
  = Some ("http://" +:+ host +:+ ":3333") →
  convertMatchPatterns (scheme +:+ "://" +:+ host +:+ ":*" +:+ path)
  = Ok (unescape (scheme +:+ "://" +:+ (host +:+ ":*") +:+ "/*")).
Proof.
  intros Hscheme Hhost Hsep Hport Hurl. unfold convertMatchPatterns.
  rewrite (split_first ":" "//" scheme) by done.
  rewrite (split_whole "://" (host +:+ ":*" +:+ path)).
  2:{ rewrite (occurs_after ":" "//" host) by done.
      by apply occurs_scheme_separator_port. }
  cbn [lookup list_lookup]. unfold split_wild_port.
  rewrite (split_first ":" "*" host path) by done.
  rewrite (split_whole ":*" path) by done.
  cbn [intersperse lookup list_lookup]. unfold interpolated, joined.
  cbn [default from_option id].
  rewrite !(bool_decide_eq_true_2 _ (eq_refl (Some ":*"))). rewrite Hurl.
  change ("http://" +:+ host +:+ ":3333") with ("http" +:+ "://" +:+ host +:+ ":3333").
  rewrite (split_first ":" "//" "http" (host +:+ ":3333")) by done.
  rewrite (split_whole "://" (host +:+ ":3333")).
  2:{ by rewrite (occurs_after ":" "//" host) by done. }
  cbn [lookup list_lookup].
  rewrite <- (append_empty_r (host +:+ ":3333")), (append_assoc host ":3333").
  rewrite (split_first ":" "3333" host EmptyString) by done.
  cbn [lookup list_lookup default from_option id Js.split Js.split_go].
  by rewrite (append_empty_r ":*").
Qed.

End MatchPatternFacts.

Section MatchPatternExamples.
#[local] Existing Instance posix.

(** The pattern of the specification: the wildcard port is kept and
    the path becomes a star. *)
Example convertMatchPatterns_wildcard_port :
  convertMatchPatterns "http://*.example.com:*/path" = Ok "http://*.example.com:*/*".
Proof. vm_compute. reflexivity. Qed.

Example convertMatchPatterns_plain :
  convertMatchPatterns "https://example.com/foo/bar" = Ok "https://example.com/*".
Proof. vm_compute. reflexivity. Qed.

Example convertMatchPatterns_any_scheme :
  convertMatchPatterns "*://*/*" = Ok "*://*/*".
Proof. vm_compute. reflexivity. Qed.

(** C3. On a pattern whose path holds a colon followed by a star the
    conversion does not keep the host: the separator is looked for in
    the whole of what follows the scheme, so the host of the result
    has a wildcard port that the pattern did not have. *)
Theorem convertMatchPatterns_wildcard_in_path :
  convertMatchPatterns "https://example.com/foo:*" = Ok "https://example.com:*/*"
  ∧ split_wild_port "example.com/foo:*" = ["example.com/foo"; ":*"; ""].
Proof. split; vm_compute; reflexivity. Qed.

(** A pattern without a host: the parser skips the slashes and takes
    the first segment of the path for the host. *)
Example convertMatchPatterns_file :
  convertMatchPatterns "file:///home/*" = Ok "file://home/*".
Proof. vm_compute. reflexivity. Qed.

(** The pattern is parsed as an [http:] URL, whose default port is not
    part of the origin: the port 80 of an [https:] pattern is lost. *)
Example convertMatchPatterns_port_80 :
  convertMatchPatterns "https://example.com:80/foo" = Ok "https://example.com/*".
Proof. vm_compute. reflexivity. Qed.

End MatchPatternExamples.

(** * Further properties of the pipeline *)

(** ** Suffixes *)

Section SuffixFacts.

Lemma rev_app_append (s t : string) : String.rev_app s t = String.rev s +:+ t.
Proof.
  unfold String.rev. revert t.
  induction s as [|c s IH]; intros t; [done|].
  cbn [String.rev_app]. rewrite IH, (IH (String c EmptyString)).
  by rewrite append_assoc.
Qed.

Lemma rev_cons (c : ascii) (s : string) :
  String.rev (String c s) = String.rev s +:+ String c EmptyString.
Proof. unfold String.rev at 1. cbn [String.rev_app]. apply rev_app_append. Qed.

Lemma rev_append (s t : string) :
  String.rev (s +:+ t) = String.rev t +:+ String.rev s.
Proof.
  induction s as [|c s IH].
  - by rewrite append_empty_r.
  - rewrite append_cons, !rev_cons, IH. apply append_assoc.
Qed.

Lemma rev_involutive (s : string) : String.rev (String.rev s) = s.
Proof.
  induction s as [|c s IH]; [done|].
  by rewrite rev_cons, rev_append, IH.
Qed.

Lemma endsWith_append (p suffix : string) : Js.endsWith suffix (p +:+ suffix) = true.
Proof. unfold Js.endsWith. rewrite rev_append. apply prefix_append. Qed.

Lemma endsWith_inv (suffix s : string) :
  Js.endsWith suffix s = true → ∃ p, s = p +:+ suffix.
Proof.
  unfold Js.endsWith. intros Hpre. apply prefix_slice in Hpre.
  exists (String.rev (Js.slice (String.length (String.rev suffix)) (String.rev s))).
  rewrite <- (rev_involutive s), Hpre at 1.
  by rewrite rev_append, rev_involutive.
Qed.

Lemma endsWith_iff (suffix s : string) :
  Js.endsWith suffix s = true ↔ ∃ p, s = p +:+ suffix.
Proof.
  split; [apply endsWith_inv|]. intros [p ->]. apply endsWith_append.
Qed.

Lemma append_inj_r (p q suffix : string) : p +:+ suffix = q +:+ suffix → p = q.
Proof.
  intros Heq. apply (f_equal String.rev) in Heq. rewrite !rev_append in Heq.
  apply append_inj_l in Heq. by rewrite <- (rev_involutive p), Heq, rev_involutive.
Qed.

End SuffixFacts.

(** ** The manifest among the inputs *)

Section InputManifestPath.
Context `{Pf : Platform}.

Lemma list_find_first {A : Type} (P : A → Prop) `{!∀ x, Decision (P x)}
    (before after : list A) (x : A) :
  Forall (λ y, ¬ P y) before → P x →
  list_find P (before ++ x :: after) = Some (length before, x).
Proof.
  intros Hbefore Hx. apply list_find_Some. split_and!.
  - by apply list_lookup_middle.
  - done.
  - intros j y Hj Hlt. rewrite lookup_app_l in Hj by done.
    by apply (Forall_lookup_1 _ _ _ _ Hbefore Hj).
Qed.

(** X1. In an array of inputs the first entry whose base name starts
    with [manifest] is the manifest. When the file exists, it is
    returned with the other entries, in their order, as the array of
    inputs; when it does not, the call throws, whatever entries follow
    it. *)
Theorem getInputManifestPath_array (options : RollupOptions)
    (before after : list string) (f : string) :
  input options = InputArray (before ++ f :: after) →
  Forall (λ g, isManifestFileName g = false) before →
  isManifestFileName f = true →
  getInputManifestPath options
  = if existsSync f
    then Ok {| inputManifestPath := f; found_inputAry := Some (before ++ after);
               found_inputObj := None |}
    else Throw (ManifestDoesNotExist f).
Proof.
  intros Hinput Hbefore Hf. unfold getInputManifestPath. rewrite Hinput.
  rewrite (list_find_first _ before after f).
  - cbn [fmap option_fmap option_map fst mbind option_bind].
    rewrite list_lookup_middle by done.
    rewrite take_app_length.
    replace (S (length before)) with (length before + 1)%nat by lia.
    rewrite drop_app_add. cbn [drop]. unfold validateFileName.
    by destruct (existsSync f).
  - eapply Forall_impl; [exact Hbefore|]. by intros g -> ?.
  - by rewrite Hf.
Qed.

(** X2. An array without an entry named as a manifest, or a record
    without the key [manifest], has no manifest: the call throws the
    error of the missing manifest, whether or not a manifest file
    exists. *)
Theorem getInputManifestPath_not_in_input (options : RollupOptions) :
  match input options with
  | InputArray paths => Forall (λ g, isManifestFileName g = false) paths
  | InputObject entries => entries !! "manifest" = None
  | InputString _ | InputOther => False
  end →
  getInputManifestPath options = Throw ManifestNotInInput.
Proof.
  intros Hinput. unfold getInputManifestPath.
  destruct (input options) as [paths|entries|path|]; [| |done|done].
  - assert (list_find (λ f, Is_true (isManifestFileName f)) paths = None) as ->; [|done].
    apply list_find_None. eapply Forall_impl; [exact Hinput|].
    by intros g -> ?.
  - by rewrite Hinput.
Qed.

(** X3. The [manifest] entry of a record of inputs is taken for the
    manifest whatever the file is called. The record of inputs that
    goes to the cache is the record without that entry. *)
Theorem getInputManifestPath_object (options : RollupOptions)
    (entries : gmap string string) (f : string) :
  input options = InputObject entries →
  entries !! "manifest" = Some f →
  existsSync f = true →
  ∃ rest,
    getInputManifestPath options
    = Ok {| inputManifestPath := f; found_inputAry := None;
            found_inputObj := Some rest |}
    ∧ rest !! "manifest" = None
    ∧ ∀ k, k ≠ "manifest" → rest !! k = entries !! k.
Proof.
  intros Hinput Hentry Hexists. exists (delete "manifest" entries).
  unfold getInputManifestPath. rewrite Hinput, Hentry.
  unfold validateFileName. rewrite Hexists. split_and!.
  - done.
  - apply lookup_delete_eq.
  - intros k Hk. by apply lookup_delete_ne.
Qed.

End InputManifestPath.

(** ** The [options] hook, pass after pass *)

Section Passes.
Context `{Pf : Platform} `{Co : Collaborators}.

(** The rewrite writes to one field of the cache. *)
Lemma updateManifestV3_cache (m : ManifestV3) (options : RollupOptions)
    (wrap : bool) (cache : Cache.t) :
  ∃ cfn, arg_cache (updateManifestV3 m options wrap cache).1
         = Cache.set_chunkFileNames cfn cache.
Proof.
  destruct (content_scripts (v3_common m)) as [scripts|] eqn:Hcs.
  - rewrite (updateManifestV3_steps _ _ _ _ _ Hcs).
    destruct (first_output (output options)) as [first|e].
    + cbv zeta. destruct (multiple_chunkFileNames options); [by eexists|].
      destruct (rmapM convertMatchPatterns _); [|by eexists].
      destruct (rmapM (relative_to _) _); by eexists.
    + exists (Cache.chunkFileNames cache). by destruct cache.
  - rewrite (updateManifestV3_plain _ _ _ _ Hcs).
    exists (Cache.chunkFileNames cache). by destruct cache.
Qed.

(** The errors of the rewrite. *)
Lemma updateManifestV3_Throw (m : ManifestV3) (options : RollupOptions)
    (wrap : bool) (cache : Cache.t) (e : error) :
  (updateManifestV3 m options wrap cache).2 = Throw e →
  e = MultipleChunkFileNames ∨ ∃ site, e = RuntimeTypeError site.
Proof.
  destruct (content_scripts (v3_common m)) as [scripts|] eqn:Hcs.
  - rewrite (updateManifestV3_steps _ _ _ _ _ Hcs).
    destruct (first_output (output options)) as [first|e'] eqn:Hfirst.
    + cbv zeta. destruct (multiple_chunkFileNames options).
      { intros [= <-]. by left. }
      destruct (rmapM convertMatchPatterns _) as [?|e'] eqn:Hconv.
      * destruct (rmapM (relative_to _) _) as [?|e''] eqn:Hrel; [done|].
        intros [= ->]. apply rmapM_Throw in Hrel as (? & _ & Hx).
        right. by apply relative_to_Throw in Hx.
      * intros [= ->]. apply rmapM_Throw in Hconv as (? & _ & Hx).
        right. by apply convertMatchPatterns_Throw in Hx.
    + intros [= ->]. right. by apply first_output_Throw in Hfirst.
  - by rewrite (updateManifestV3_plain _ _ _ _ Hcs).
Qed.

Lemma options_hook_finished (cfg : PluginOptions) (s : HookState) :
  run (options_hook cfg) s
  = match run (if bool_decide (is_Some (Cache.manifest (hs_cache s)))
               then mret () else load_manifest cfg) s with
    | (s1, Ok _) => finished s1
    | (s1, Throw e) => (s1, Throw e)
    end.
Proof.
  unfold options_hook. rewrite run_bind. cbn [run gets]. rewrite run_bind.
  destruct (run (if bool_decide _ then mret () else load_manifest cfg) s)
    as [s1 [[]|e]]; [|done].
  unfold finished. run_hook.
  destruct (reduce_to_record _ _ _) as [finalInput|e]; [|done].
  run_hook. by destruct (bool_decide (Cache.input (hs_cache s1) = [])).
Qed.

(** What the reduction returns holds every entry of the list under its
    name, and the record it started from. *)
Lemma reduce_Ok (dir : string) (paths : list string) (init r : gmap string string) :
  reduce (reducer dir) paths init = Ok r →
  (∀ p, p ∈ paths → r !! entry_name dir p = Some p)
  ∧ init ⊆ r
  ∧ (∀ k v, r !! k = Some v → v ∈ paths ∨ init !! k = Some v).
Proof.
  revert init. induction paths as [|p paths IH]; intros init.
  - intros [= <-]. split_and!; [|done|by right].
    intros p Hp. by apply elem_of_nil in Hp.
  - rewrite reduce_cons. unfold reducer at 1. cbv zeta.
    destruct (has_property (entry_name dir p) init) eqn:Hhas; [done|].
    apply orb_false_iff in Hhas as [Hown _].
    apply bool_decide_eq_false_1 in Hown. apply eq_None_not_Some in Hown.
    intros (Hin & Hsub & Hfrom)%IH. split_and!.
    + intros q [->|Hq]%elem_of_cons; [|by apply Hin].
      eapply lookup_weaken; [|exact Hsub]. apply lookup_insert_eq.
    + etrans; [|exact Hsub]. by apply insert_subseteq.
    + intros k v [Hv|Hv]%Hfrom; [left; by right|].
      apply lookup_insert_Some in Hv as [[<- <-]|[_ Hv]]; [left; left|by right].
Qed.

Lemma reduce_errors (dir : string) (paths : list string) (init : gmap string string)
    (e : error) :
  reduce (reducer dir) paths init = Throw e →
  ∃ filename name, e = ScriptNamesShared filename name.
Proof.
  revert init. induction paths as [|p paths IH]; intros init; [done|].
  rewrite reduce_cons. unfold reducer at 1. cbv zeta.
  destruct (has_property (entry_name dir p) init); [|apply IH].
  intros [= <-]. by eexists _, _.
Qed.

(** X4. The options the hook returns have a record for their input,
    and never an empty one. The record holds every input of the cache
    under its name, and each of its entries is an input of the cache or
    an entry of the cached record of inputs. *)
Theorem options_hook_input (cfg : PluginOptions) (s s' : HookState)
    (r : RollupOptions) :
  run (options_hook cfg) s = (s', Ok r) →
  ∃ dir record,
    Cache.srcDir (hs_cache s') = Some dir
    ∧ r = set_input (InputObject record) (hs_options s')
    ∧ record ≠ ∅
    ∧ (∀ p, p ∈ Cache.input (hs_cache s') → record !! entry_name dir p = Some p)
    ∧ (∀ k v, record !! k = Some v →
         v ∈ Cache.input (hs_cache s') ∨ Cache.inputObj (hs_cache s') !! k = Some v).
Proof.
  rewrite options_hook_finished.
  destruct (run (if bool_decide _ then mret () else load_manifest cfg) s)
    as [s1 [[]|e]]; [|done].
  unfold finished.
  destruct (Cache.srcDir (hs_cache s1)) as [dir|] eqn:Hdir; [|done].
  cbn [reduce_to_record reduceToRecord mbind result_bind].
  destruct (reduce (reducer dir) _ _) as [finalInput|e] eqn:Hreduce; [|done].
  apply reduce_Ok in Hreduce as (Hin & Hsub & Hfrom).
  cbv zeta.
  destruct (bool_decide_reflect (Cache.input (hs_cache s1) = [])) as [Hnone|Hsome];
    destruct (bool_decide_reflect (finalInput = ∅)) as [Hempty|Hne];
    intros [= <- <-]; exists dir; eexists;
    (split_and!; [done|reflexivity| | |]); cbn [hs_cache on_cache Cache.input
      Cache.inputObj Cache.set_inputObj].
  - apply insert_non_empty.
  - rewrite Hnone. intros p Hp. by apply elem_of_nil in Hp.
  - intros k v Hv. by right.
  - done.
  - rewrite Hnone. intros p Hp. by apply elem_of_nil in Hp.
  - intros k v Hv. by right.
  - apply insert_non_empty.
  - intros p Hp. specialize (Hin p Hp). by rewrite Hempty in Hin.
  - destruct (Cache.input (hs_cache s1)) as [|p ?]; [done|].
    specialize (Hin p (list_elem_of_here _ _)). by rewrite Hempty in Hin.
  - done.
  - exact Hin.
  - exact Hfrom.
Qed.

(** The loading leaves a manifest in the cache only when it returns. *)
Lemma load_manifest_Throw (cfg : PluginOptions) (s s' : HookState) (e : error) :
  run (load_manifest cfg) s = (s', Throw e) →
  Cache.manifest (hs_cache s') = Cache.manifest (hs_cache s).
Proof.
  unfold load_manifest. run_hook.
  destruct (getInputManifestPath (hs_options s)) as [found|e0]; [|by intros [= <- _]].
  run_hook.
  destruct (assign_cache_values_derived found (hs_cache s)) as (_ & _ & _ & Hm).
  destruct (explorer_load (inputManifestPath found)) as [[?|config filepath]|];
    [by intros [= <- _]| |by intros [= <- _]].
  destruct (bool_decide _ && bool_decide _); [by intros [= <- _]|]. run_hook.
  destruct (firstClassManifest cfg);
    (destruct (with_defaults _ _) as [m2|m3]; run_hook;
     [|unfold call_updateManifestV3; run_hook;
       pose proof (updateManifestV3_cache m3 (hs_options s) (wrapContentScripts cfg)) as Hc;
       cbn [Cache.set_srcDir Cache.set_iife Cache.set_contentScripts Cache.set_input
            Cache.set_assets] in *;
       match goal with
       | |- context [updateManifestV3 _ _ _ ?c] => destruct (Hc c) as [cfn Hcfn]
       end;
       destruct (updateManifestV3 _ _ _ _) as [after [updated|e1]]; run_hook;
       cbn [fst] in Hcfn;
       [|intros [= <- _]; cbn [hs_cache]; by rewrite Hcfn]]);
    (destruct (validateManifest _) as [validated|e2]; [done|]);
    intros [= <- _]; cbn [hs_cache]; rewrite ?Hcfn; done.
Qed.

(** What the loading leaves behind when it returns. *)
Lemma load_manifest_Ok (cfg : PluginOptions) (s s' : HookState) :
  run (load_manifest cfg) s = (s', Ok ()) →
  ∃ found config filepath final,
    getInputManifestPath (hs_options s) = Ok found
    ∧ explorer_load (inputManifestPath found) = Some (ConfigLoaded config filepath)
    ∧ hs_manifestPath s' = Some filepath
    ∧ Cache.srcDir (hs_cache s') = Some (path_dirname filepath)
    ∧ Cache.manifest (hs_cache s') = Some final
    ∧ validator final = true
    ∧ Cache.inputAry (hs_cache s')
      = Cache.inputAry (assign_cache_values found (hs_cache s))
    ∧ Cache.inputObj (hs_cache s')
      = Cache.inputObj (assign_cache_values found (hs_cache s))
    ∧ let full := with_defaults (pkg cfg) (extend (extendManifest cfg) config) in
      let d := deriveFiles full (path_dirname filepath) {| opt_contentScripts := true |} in
      if firstClassManifest cfg
      then Cache.input (hs_cache s')
           = Cache.inputAry (assign_cache_values found (hs_cache s))
               ++ d_js d ++ d_html d
           ∧ Cache.assets (hs_cache s') = Js.uniq (d_css d ++ d_img d ++ d_others d)
           ∧ Cache.contentScripts (hs_cache s') = d_contentScripts d
      else Cache.input (hs_cache s') = Cache.input (hs_cache s)
           ∧ Cache.assets (hs_cache s') = Cache.assets (hs_cache s)
           ∧ Cache.contentScripts (hs_cache s') = Cache.contentScripts (hs_cache s).
Proof.
  unfold load_manifest. run_hook.
  destruct (getInputManifestPath (hs_options s)) as [found|e0] eqn:Hfound; [|done].
  run_hook.
  destruct (assign_cache_values_derived found (hs_cache s)) as (Hcs & Hin & Has & _).
  destruct (explorer_load (inputManifestPath found)) as [[?|config filepath]|]
    eqn:Hconfig; [done| |done].
  destruct (bool_decide _ && bool_decide _); [done|]. run_hook.
  destruct (firstClassManifest cfg);
    (destruct (with_defaults _ _) as [m2|m3] eqn:Hfull; run_hook;
     [|unfold call_updateManifestV3; run_hook;
       pose proof (updateManifestV3_cache m3 (hs_options s) (wrapContentScripts cfg)) as Hc;
       cbn [Cache.set_srcDir Cache.set_iife Cache.set_contentScripts Cache.set_input
            Cache.set_assets] in *;
       match goal with
       | |- context [updateManifestV3 _ _ _ ?c] => destruct (Hc c) as [cfn Hcfn]
       end;
       destruct (updateManifestV3 _ _ _ _) as [after [updated|e1]]; run_hook;
       cbn [fst] in Hcfn; [|done]]);
    unfold validateManifest;
    (destruct (validator _) eqn:Hvalid; [|done]);
    intros [= <-]; cbn [hs_cache hs_manifestPath]; rewrite ?Hcfn;
    eexists found, config, filepath, _; cbv zeta;
    cbn [on_cache hs_cache Cache.input Cache.assets Cache.contentScripts
         Cache.set_manifest Cache.set_chunkFileNames Cache.manifest Cache.srcDir
         Cache.inputAry Cache.inputObj Cache.set_srcDir Cache.set_iife
         Cache.set_contentScripts Cache.set_input Cache.set_assets];
    split_and!; try reflexivity; try exact Hvalid; try done;
    try (rewrite Hfull; reflexivity).
Qed.

Lemma finished_idempotent (s1 s' : HookState) (r : RollupOptions) :
  finished s1 = (s', Ok r) → finished s' = (s', Ok r).
Proof.
  unfold finished.
  destruct (Cache.srcDir (hs_cache s1)) as [dir|] eqn:Hdir; [|done].
  cbn [reduce_to_record reduceToRecord mbind result_bind].
  destruct (reduce (reducer dir) _ _) as [finalInput|e] eqn:Hreduce; [|done].
  cbv zeta.
  destruct (bool_decide_reflect (Cache.input (hs_cache s1) = [])) as [Hnone|Hsome].
  - rewrite Hnone in Hreduce. injection Hreduce as <-.
    intros [= <- <-]. cbn [hs_cache on_cache Cache.srcDir Cache.input Cache.inputObj
                           Cache.set_inputObj hs_options].
    rewrite Hdir, Hnone. cbn [reduce_to_record reduceToRecord mbind result_bind reduce].
    rewrite (bool_decide_eq_true_2 ([] = [])) by done.
    destruct (bool_decide_reflect (Cache.inputObj (hs_cache s1) = ∅)) as [Hempty|Hne].
    + rewrite bool_decide_eq_false_2 by apply insert_non_empty. reflexivity.
    + rewrite bool_decide_eq_false_2 by done. reflexivity.
  - intros [= <- <-]. rewrite Hdir.
    cbn [reduce_to_record reduceToRecord mbind result_bind]. rewrite Hreduce.
    by rewrite (bool_decide_eq_false_2 _ Hsome).
Qed.

Lemma finished_manifest (s1 s' : HookState) (r : result RollupOptions) :
  finished s1 = (s', r) →
  Cache.manifest (hs_cache s') = Cache.manifest (hs_cache s1).
Proof.
  unfold finished. destruct (reduce_to_record _ _ _); [|by intros [= <- _]].
  cbv zeta. intros [= <- _].
  by destruct (bool_decide (Cache.input (hs_cache s1) = [])).
Qed.

(** Once the hook has returned, the manifest is cached and the rest of
    the hook gives the same again. *)
Lemma options_hook_settled (cfg : PluginOptions) (s s' : HookState)
    (r : RollupOptions) :
  run (options_hook cfg) s = (s', Ok r) →
  is_Some (Cache.manifest (hs_cache s')) ∧ finished s' = (s', Ok r).
Proof.
  rewrite options_hook_finished.
  destruct (run (if bool_decide _ then mret () else load_manifest cfg) s)
    as [s1 [[]|e]] eqn:Hload; [|done].
  intros Hfinished.
  assert (is_Some (Cache.manifest (hs_cache s1))) as Hcached.
  { destruct (bool_decide_reflect (is_Some (Cache.manifest (hs_cache s))))
      as [Hyes|Hno].
    - by injection Hload as <-.
    - by apply load_manifest_returns in Hload as (? & ? & _ & _ & ?). }
  rewrite <- (finished_manifest _ _ _ Hfinished) in Hcached.
  split; [done|]. by apply finished_idempotent in Hfinished.
Qed.

(** X5. A pass of the hook that returns can be repeated: a second
    pass, from the state the first one left and on the same options,
    returns the same options and leaves the state as it is. *)
Theorem options_hook_idempotent (cfg : PluginOptions) (s s' : HookState)
    (r : RollupOptions) :
  run (options_hook cfg) s = (s', Ok r) →
  run (options_hook cfg) s' = (s', Ok r).
Proof.
  intros [Hcached Hfinished]%options_hook_settled.
  rewrite options_hook_finished, (bool_decide_eq_true_2 _ Hcached).
  cbn [run mret se_ret]. exact Hfinished.
Qed.

(** X6. A pass that starts without a manifest and throws leaves no
    manifest in the cache, so that the next pass loads again, unless
    the error is that of two inputs with one name: that one is thrown
    after the manifest has been loaded and cached. *)
Theorem options_hook_throws (cfg : PluginOptions) (s s' : HookState) (e : error) :
  Cache.manifest (hs_cache s) = None →
  run (options_hook cfg) s = (s', Throw e) →
  Cache.manifest (hs_cache s') = None
  ∨ (is_Some (Cache.manifest (hs_cache s'))
     ∧ ∃ filename name, e = ScriptNamesShared filename name).
Proof.
  intros Hnone. rewrite options_hook_finished, Hnone.
  rewrite bool_decide_eq_false_2 by (by intros [? ?]).
  destruct (run (load_manifest cfg) s) as [s1 [[]|e1]] eqn:Hload.
  - intros Hfinished. right.
    pose proof (finished_manifest _ _ _ Hfinished) as Hsame.
    apply load_manifest_Ok in Hload
      as (found & config & filepath & final & _ & _ & _ & Hdir & Hm & _).
    split; [rewrite Hsame, Hm; by eexists|].
    revert Hfinished. unfold finished. rewrite Hdir.
    cbn [reduce_to_record reduceToRecord mbind result_bind].
    destruct (reduce (reducer _) _ _) as [?|e2] eqn:Hreduce; [done|].
    intros [= _ <-]. by apply reduce_errors in Hreduce.
  - intros [= <- <-]. left.
    by rewrite (load_manifest_Throw _ _ _ _ Hload).
Qed.

(** X7. When the loading returns and the manifest is the source of the
    inputs, the inputs of the cache are the array inputs other than the
    manifest, followed by the scripts and the pages that [deriveFiles]
    finds for the loaded manifest, extended and with the defaults of the
    package, below the directory of the manifest file; the assets are
    its style sheets, images and other files, each once. *)
Theorem load_manifest_derives (cfg : PluginOptions) (s s' : HookState) :
  firstClassManifest cfg = true →
  run (load_manifest cfg) s = (s', Ok ()) →
  ∃ found config filepath,
    getInputManifestPath (hs_options s) = Ok found
    ∧ explorer_load (inputManifestPath found) = Some (ConfigLoaded config filepath)
    ∧ Cache.srcDir (hs_cache s') = Some (path_dirname filepath)
    ∧ let d := deriveFiles (with_defaults (pkg cfg) (extend (extendManifest cfg) config))
                 (path_dirname filepath) {| opt_contentScripts := true |} in
      Cache.input (hs_cache s')
      = default (Cache.inputAry (hs_cache s)) (found_inputAry found)
          ++ d_js d ++ d_html d
      ∧ Cache.assets (hs_cache s') = Js.uniq (d_css d ++ d_img d ++ d_others d)
      ∧ NoDup (Cache.assets (hs_cache s'))
      ∧ Cache.contentScripts (hs_cache s') = d_contentScripts d.
Proof.
  intros Hfirst Hload.
  apply load_manifest_Ok in Hload
    as (found & config & filepath & final & Hfound & Hconfig & _ & Hdir & _ & _
        & _ & _ & Hderived).
  rewrite Hfirst in Hderived. cbv zeta in Hderived.
  destruct Hderived as (Hin & Has & Hcs).
  exists found, config, filepath. cbv zeta. split_and!; try done.
  - rewrite Hin. f_equal. unfold assign_cache_values.
    by destruct (found_inputAry found), (found_inputObj found).
  - rewrite Has. apply NoDup_uniq.
Qed.

(** X8. The manifest the loading caches has passed the schema
    validator. For an MV2 manifest it is the loaded manifest, extended
    and given the defaults of the package. For an MV3 manifest it is
    what [updateManifestV3] returns for that manifest, called with the
    options of the hook, the plugin's [wrapContentScripts] and the cache
    as the loading has written it by then: the values of the input, the
    source directory and, where the manifest is the source of the
    inputs, the derived files. *)
Theorem load_manifest_validated (cfg : PluginOptions) (s s' : HookState) :
  run (load_manifest cfg) s = (s', Ok ()) →
  ∃ found config filepath final,
    getInputManifestPath (hs_options s) = Ok found
    ∧ explorer_load (inputManifestPath found) = Some (ConfigLoaded config filepath)
    ∧ Cache.manifest (hs_cache s') = Some final
    ∧ validator final = true
    ∧ manifest_version final
      = manifest_version (with_defaults (pkg cfg) (extend (extendManifest cfg) config))
    ∧ let full := with_defaults (pkg cfg) (extend (extendManifest cfg) config) in
      let srcDir := path_dirname filepath in
      let d := deriveFiles full srcDir {| opt_contentScripts := true |} in
      let loaded :=
        Cache.set_srcDir (Some srcDir) (assign_cache_values found (hs_cache s)) in
      let derived :=
        if firstClassManifest cfg
        then
          let scripts :=
            Cache.set_contentScripts (d_contentScripts d)
              (Cache.set_iife
                 (iifeJsonPaths cfg ≫= (λ jsonPath, JSONPath jsonPath full)) loaded) in
          Cache.set_assets (Js.uniq (d_css d ++ d_img d ++ d_others d))
            (Cache.set_input (Cache.inputAry scripts ++ d_js d ++ d_html d) scripts)
        else loaded in
      match full with
      | MV2 _ => final = full
      | MV3 m3 =>
          ∃ updated,
            (updateManifestV3 m3 (hs_options s) (wrapContentScripts cfg) derived).2
            = Ok updated
            ∧ final = MV3 updated
      end.
Proof.
  unfold load_manifest. run_hook.
  destruct (getInputManifestPath (hs_options s)) as [found|e0] eqn:Hfound; [|done].
  run_hook.
  destruct (explorer_load (inputManifestPath found)) as [[?|config filepath]|]
    eqn:Hconfig; [done| |done].
  destruct (bool_decide _ && bool_decide _); [done|]. run_hook.
  destruct (firstClassManifest cfg);
    (destruct (with_defaults _ _) as [m2|m3] eqn:Hfull; run_hook;
     [|unfold call_updateManifestV3; run_hook;
       destruct (updateManifestV3 _ _ _ _) as [after [updated|e1]] eqn:Hupdated;
       run_hook; [|done]]);
    unfold validateManifest;
    (destruct (validator _) eqn:Hvalid; [|done]);
    intros [= <-]; cbn [hs_cache Cache.manifest Cache.set_manifest];
    eexists found, config, filepath, _; cbv zeta;
    rewrite ?Hfull;
    (split_and!; [done|done|reflexivity|exact Hvalid|done|]);
    first [reflexivity|exists updated; split; [exact (f_equal snd Hupdated)|reflexivity]].
Qed.

End Passes.

(** ** The files of a manifest *)

Section Files.
Context `{Pf : Platform}.

Lemma expand_globs_bind (srcDir : string) (entries : list string) :
  expand_globs srcDir entries
  = entries ≫= (λ x, if glob_hasMagic x
                     then (λ f, Js.replace srcDir "" f) <$> glob_sync x srcDir
                     else [x]).
Proof.
  unfold expand_globs.
  set (step := λ (r : list string) (x : string),
         if glob_hasMagic x
         then r ++ ((λ f, Js.replace srcDir "" f) <$> glob_sync x srcDir)
         else r ++ [x]).
  set (found := λ x : string,
         if glob_hasMagic x
         then (λ f, Js.replace srcDir "" f) <$> glob_sync x srcDir
         else [x]).
  assert (∀ acc, fold_left step entries acc = acc ++ entries ≫= found) as Hfold;
    [|apply (Hfold [])].
  induction entries as [|x entries IH]; intros acc.
  - cbn. by rewrite app_nil_r.
  - cbn [fold_left mbind list_bind]. rewrite IH. unfold step, found.
    destruct (glob_hasMagic x); by rewrite <- app_assoc.
Qed.

(** X9. The expansion keeps an entry without glob syntax as it is,
    whether the file exists or not, and puts in place of an entry with
    glob syntax the files the pattern finds, the first occurrence of the
    source directory taken out of each: nothing else is in the list. *)
Theorem expand_globs_spec (srcDir x : string) (entries : list string) :
  (x ∈ expand_globs srcDir entries
   ↔ (x ∈ entries ∧ glob_hasMagic x = false)
     ∨ ∃ pattern f, pattern ∈ entries ∧ glob_hasMagic pattern = true
         ∧ f ∈ glob_sync pattern srcDir ∧ x = Js.replace srcDir "" f)
  ∧ (Forall (λ e, glob_hasMagic e = false) entries →
     expand_globs srcDir entries = entries).
Proof.
  rewrite expand_globs_bind. split.
  - rewrite list_elem_of_bind. split.
    + intros (e & Hx & He). destruct (glob_hasMagic e) eqn:Hmagic.
      * apply list_elem_of_fmap in Hx as (f & -> & Hf). right. by exists e, f.
      * apply list_elem_of_singleton in Hx as ->. by left.
    + intros [[Hx Hmagic]|(e & f & He & Hmagic & Hf & ->)].
      * exists x. rewrite Hmagic. split; [by apply list_elem_of_singleton|done].
      * exists e. rewrite Hmagic. split; [by apply list_elem_of_fmap_2|done].
  - induction 1 as [|e entries He _ IH]; [done|].
    cbn [mbind list_bind]. by rewrite He, IH.
Qed.

Lemma arrays_resource_files (manifest : Manifest) (srcDir : string)
    (options : DeriveOptions) :
  let a := arrays manifest srcDir options in
  let files := resource_files manifest srcDir in
  a_others a
  = (Some <$> difference files
       (a_css a ++ a_contentScripts a ++ a_js a ++ a_html a ++ a_img a))
  ∧ (∀ f, f ∈ files →
       (is_css f = true → Some f ∈ a_css a)
       ∧ (is_script f = true → Some f ∈ a_js a)
       ∧ (is_html f = true → Some f ∈ a_html a)
       ∧ (is_img f = true → Some f ∈ a_img a)).
Proof.
  destruct manifest;
    cbn [arrays arraysMV2 arraysMV3 a_css a_contentScripts a_js a_html a_img
         a_others resource_files];
    (split; [reflexivity|]);
    intros f Hf; split_and!; intros Hext; rewrite !elem_of_app;
    [left|left|left|right; left|left|left|left|left];
    apply list_elem_of_fmap_2, list_elem_of_filter; by rewrite Hext.
Qed.

(** X10. No resource file is lost: each file of the expanded web
    accessible resources is, joined to the source directory, in one of
    the six categories. Its extension decides: a style sheet is in
    [css], a script in [js], a page in [html] and an image in [img];
    a file in none of the five arrays is in [others]. *)
Theorem deriveFiles_resources (manifest : Manifest) (srcDir : string)
    (options : DeriveOptions) (f : string) :
  f ∈ resource_files manifest srcDir →
  let d := deriveFiles manifest srcDir options in
  let x := path_join srcDir f in
  (is_css f = true → x ∈ d_css d)
  ∧ (is_script f = true → x ∈ d_js d)
  ∧ (is_html f = true → x ∈ d_html d)
  ∧ (is_img f = true → x ∈ d_img d)
  ∧ (x ∈ d_css d ∨ x ∈ d_contentScripts d ∨ x ∈ d_js d ∨ x ∈ d_html d
     ∨ x ∈ d_img d ∨ x ∈ d_others d).
Proof.
  intros Hf d x. subst d x. rewrite deriveFiles_validated.
  destruct (arrays_resource_files manifest srcDir options) as [Hothers Hext].
  destruct (Hext f Hf) as (Hcss & Hjs & Hhtml & Himg).
  set (a := arrays manifest srcDir options) in *.
  cbn [validated d_js d_html d_css d_img d_contentScripts d_others].
  rewrite !elem_of_validate. split_and!.
  - intros H. exists f. split; [done|by apply Hcss].
  - intros H. exists f. split; [done|by apply Hjs].
  - intros H. exists f. split; [done|by apply Hhtml].
  - intros H. exists f. split; [done|by apply Himg].
  - destruct (decide (Some f ∈ a_css a ++ a_contentScripts a ++ a_js a
                                ++ a_html a ++ a_img a)) as [Hin|Hout].
    + rewrite !elem_of_app in Hin.
      destruct Hin as [?|[?|[?|[?|?]]]];
        [left|right; left|do 2 right; left|do 3 right; left|do 4 right; left];
        by exists f.
    + do 5 right. exists f. split; [done|]. rewrite Hothers.
      apply list_elem_of_fmap_2, elem_of_difference. by split.
Qed.

Lemma elem_of_fold_set_add (x : string) (l set : list string) :
  x ∈ fold_left (λ s y, Js.set_add y s) l set ↔ x ∈ set ∨ x ∈ l.
Proof.
  revert set. induction l as [|y l IH]; intros set; cbn [fold_left].
  - rewrite elem_of_nil. tauto.
  - rewrite IH, elem_of_set_add, elem_of_cons. tauto.
Qed.

(** X11. An action icon given as one path, not as a map of sizes: the
    MV2 derivation puts the path among the images; the MV3 derivation
    reads the values of the string, and puts each of its characters
    among the images as a file of the source directory. *)
Theorem deriveFiles_default_icon (srcDir p : string) (options : DeriveOptions) :
  (∀ m : ManifestV2,
     browser_action m ≫= default_icon = Some (IconPath p)
     ∨ page_action m ≫= default_icon = Some (IconPath p) →
     path_join srcDir p ∈ d_img (deriveFiles (MV2 m) srcDir options))
  ∧ (∀ m : ManifestV3,
       action m ≫= default_icon = Some (IconPath p) →
       ∀ c, c ∈ String.list_ascii_of_string p →
            path_join srcDir (String c EmptyString)
            ∈ d_img (deriveFiles (MV3 m) srcDir options)).
Proof.
  split.
  - intros m Hicon. cbn [deriveFiles deriveFilesMV2 validated d_img arraysMV2 a_img].
    apply elem_of_validate. exists p. split; [done|].
    rewrite elem_of_app. left. apply list_elem_of_fmap_2.
    unfold actionIconSet. cbn [fold_left]. rewrite !elem_of_fold_set_add.
    unfold action_icons.
    destruct Hicon as [->| ->]; [left; right; left|right; left].
  - intros m Hicon c Hc.
    cbn [deriveFiles deriveFilesMV3 validated d_img arraysMV3 a_img].
    apply elem_of_validate. exists (String c EmptyString). split; [done|].
    rewrite !elem_of_app. do 2 right. apply list_elem_of_fmap_2.
    rewrite Hicon. cbn [icon_values].
    by apply (list_elem_of_fmap_2 (λ c, String c EmptyString)).
Qed.

End Files.

(** ** The detectors of permissions *)

Section Detectors.

Lemma startsWith_iff (p s : string) :
  Js.startsWith p s = true ↔ ∃ r, s = p +:+ r.
Proof.
  unfold Js.startsWith. split.
  - intros Hp%prefix_slice. by eexists.
  - intros [r ->]. apply prefix_append.
Qed.

Lemma length_append (a b : string) :
  String.length (a +:+ b) = (String.length a + String.length b)%nat.
Proof. induction a as [|c a IH]; [done|]. rewrite append_cons. cbn. by rewrite IH. Qed.

Lemma whitespace_chars_length (c : string) :
  c ∈ whitespace_chars → (0 < String.length c)%nat.
Proof.
  unfold whitespace_chars. rewrite !elem_of_cons, elem_of_nil. intros Hc.
  repeat (destruct Hc as [->|Hc]; [cbn; lia|]). done.
Qed.

Lemma prefix_append_false (t c s : string) :
  String.prefix t c = false → String.prefix c t = false →
  String.prefix t (c +:+ s) = false.
Proof.
  revert c. induction t as [|a t IH]; intros [|b c]; rewrite ?prefix_empty; try done.
  rewrite append_cons, !prefix_cons.
  destruct (Ascii.ascii_dec a b) as [->|Hab]; [|done].
  destruct (Ascii.ascii_dec b b); [|done]. apply IH.
Qed.

(** No character of the class starts another one. *)
Lemma whitespace_chars_prefix_free :
  Forall (λ c, Forall (λ t, t = c ∨ (String.prefix t c = false
                                     ∧ String.prefix c t = false))
                 whitespace_chars) whitespace_chars.
Proof. apply (bool_decide_unpack _). by vm_compute. Qed.

(** So the character that starts a string is found whatever follows
    it. *)
Lemma leading_whitespace_char (c s : string) :
  c ∈ whitespace_chars → leading_whitespace (c +:+ s) = Some c.
Proof.
  intros Hc. unfold leading_whitespace.
  pose proof whitespace_chars_prefix_free as Hfree.
  rewrite Forall_forall in Hfree. specialize (Hfree c Hc).
  induction Hfree as [|t chars Ht _ IH]; [by apply elem_of_nil in Hc|].
  cbn [find]. unfold Js.startsWith at 1. destruct Ht as [->|[Htc Hct]].
  - by rewrite prefix_append.
  - rewrite (prefix_append_false _ _ _ Htc Hct). apply IH.
    apply elem_of_cons in Hc as [->|Hc]; [|done].
    assert (String.prefix t t = true) as Htt.
    { rewrite <- (append_empty_r t) at 2. apply prefix_append. }
    congruence.
Qed.

Lemma leading_whitespace_Some (s c : string) :
  leading_whitespace s = Some c →
  c ∈ whitespace_chars ∧ s = c +:+ Js.slice (String.length c) s.
Proof.
  unfold leading_whitespace. intros [Hin Hc]%find_some. split.
  - by apply list_elem_of_In.
  - by apply prefix_slice.
Qed.

Lemma leading_whitespace_plain (api post : string) :
  starts_plain api = true → leading_whitespace (api +:+ post) = None.
Proof.
  destruct api as [|b api]; [done|]. cbn [starts_plain]. rewrite append_cons.
  unfold leading_whitespace.
  assert (Forall (λ c, c ≠ EmptyString) whitespace_chars) as Hchars.
  { apply Forall_forall. intros c Hc%whitespace_chars_length ->. cbn in Hc. lia. }
  induction Hchars as [|c chars Hc _ IH]; [done|].
  cbn [forallb find]. intros [Hb Hrest]%andb_true_iff.
  destruct c as [|d c]; [done|]. unfold Js.startsWith in *.
  rewrite prefix_cons in Hb. rewrite prefix_cons.
  destruct (Ascii.ascii_dec b d) as [->|Hbd].
  - rewrite prefix_empty in Hb. discriminate Hb.
  - destruct (Ascii.ascii_dec d b) as [->|_]; [done|]. by apply IH.
Qed.

Lemma skip_whitespace_go_split (fuel : nat) (s : string) :
  ∃ ws, whitespace ws ∧ s = ws +:+ skip_whitespace_go fuel s.
Proof.
  revert s. induction fuel as [|fuel IH]; intros s; cbn [skip_whitespace_go].
  - exists EmptyString. split; [constructor|done].
  - destruct (leading_whitespace s) as [c|] eqn:Hlead.
    + apply leading_whitespace_Some in Hlead as [Hc Hs].
      destruct (IH (Js.slice (String.length c) s)) as (ws & Hws & Hrest).
      exists (c +:+ ws). split; [by constructor|].
      by rewrite append_assoc, <- Hrest.
    + exists EmptyString. split; [constructor|done].
Qed.

Lemma skip_whitespace_go_whitespace (ws rest : string) :
  whitespace ws → leading_whitespace rest = None →
  ∀ fuel, (String.length ws ≤ fuel)%nat →
          skip_whitespace_go fuel (ws +:+ rest) = rest.
Proof.
  intros Hws Hrest. induction Hws as [|c ws Hc Hws IH]; intros fuel Hlen.
  - change (EmptyString +:+ rest) with rest.
    destruct fuel; [done|]. cbn [skip_whitespace_go]. by rewrite Hrest.
  - rewrite length_append in Hlen. apply whitespace_chars_length in Hc as Hpos.
    destruct fuel as [|fuel]; [lia|]. cbn [skip_whitespace_go].
    rewrite append_assoc, (leading_whitespace_char _ _ Hc), slice_append.
    apply IH. lia.
Qed.

(** The white space a string starts with is skipped whole. *)
Lemma skip_whitespace_whitespace (ws rest : string) :
  whitespace ws → leading_whitespace rest = None →
  skip_whitespace (ws +:+ rest) = rest.
Proof.
  intros Hws Hrest. apply skip_whitespace_go_whitespace; [done..|].
  rewrite length_append. lia.
Qed.

Lemma skip_whitespace_split (s : string) :
  ∃ ws, whitespace ws ∧ s = ws +:+ skip_whitespace s.
Proof. apply skip_whitespace_go_split. Qed.

Lemma whitespace_skipped (ws : string) :
  skip_whitespace ws = EmptyString → whitespace ws.
Proof.
  intros Hskip. destruct (skip_whitespace_split ws) as (ws' & Hws & Heq).
  rewrite Hskip, append_empty_r in Heq. by rewrite Heq.
Qed.

Lemma api_call_at_spec (api s : string) :
  starts_plain api = true →
  api_call_at api s = true
  ↔ ∃ namespace ws1 ws2 post,
      namespace ∈ api_namespaces
      ∧ whitespace ws1 ∧ whitespace ws2
      ∧ s = namespace +:+ ws1 +:+ "." +:+ ws2 +:+ api +:+ post.
Proof.
  intros Hapi. unfold api_call_at. rewrite existsb_exists. split.
  - intros (namespace & Hns%list_elem_of_In & Hmatch).
    apply andb_true_iff in Hmatch as [[r ->]%startsWith_iff Hmatch].
    rewrite slice_append in Hmatch. cbv zeta in Hmatch.
    apply andb_true_iff in Hmatch as [Hdot Hname].
    destruct (skip_whitespace_split r) as (ws1 & Hws1 & Hr).
    apply startsWith_iff in Hdot as [r1 Hr1]. rewrite Hr1 in Hname, Hr.
    change (Js.slice 1 ("." +:+ r1)) with r1 in Hname.
    destruct (skip_whitespace_split r1) as (ws2 & Hws2 & Hr2).
    apply startsWith_iff in Hname as [post Hpost]. rewrite Hpost in Hr2.
    exists namespace, ws1, ws2, post. split_and!; try done.
    by rewrite Hr, Hr2.
  - intros (namespace & ws1 & ws2 & post & Hns & Hws1 & Hws2 & ->).
    exists namespace. split; [by apply list_elem_of_In|].
    apply andb_true_iff. split; [apply startsWith_iff; by eexists|].
    rewrite slice_append. cbv zeta.
    rewrite (skip_whitespace_whitespace ws1 ("." +:+ ws2 +:+ api +:+ post) Hws1)
      by (by apply leading_whitespace_plain).
    change (Js.slice 1 ("." +:+ ws2 +:+ api +:+ post)) with (ws2 +:+ api +:+ post).
    rewrite (skip_whitespace_whitespace ws2 (api +:+ post) Hws2)
      by (by apply leading_whitespace_plain).
    apply andb_true_iff. split; [apply (prefix_append "." _)|apply prefix_append].
Qed.

(** X12. What a detector looks for. The detector of an API, whose name
    starts with a byte that starts no white space, fires on the code
    exactly when the code holds, anywhere, one of the namespaces
    [chrome], [chromep] and [browser], a dot and the name of the API,
    with any white space of the class [\s], line breaks, no-break
    spaces and byte order marks included, before and after the dot;
    what comes before and after does not matter. *)
Theorem api_call_spec (api s : string) :
  starts_plain api = true →
  api_call api s = true
  ↔ ∃ pre namespace ws1 ws2 post,
      namespace ∈ api_namespaces
      ∧ whitespace ws1 ∧ whitespace ws2
      ∧ s = pre +:+ namespace +:+ ws1 +:+ "." +:+ ws2 +:+ api +:+ post.
Proof.
  intros Hapi. split.
  - induction s as [|c s IH]; cbn [api_call].
    + rewrite orb_false_r. intros Hat%api_call_at_spec; [|done].
      destruct Hat as (ns & ws1 & ws2 & post & ? & ? & ? & ?).
      by exists EmptyString, ns, ws1, ws2, post.
    + intros [Hat|Hlater]%orb_true_iff.
      * apply api_call_at_spec in Hat as (ns & ws1 & ws2 & post & ? & ? & ? & ?);
          [|done].
        by exists EmptyString, ns, ws1, ws2, post.
      * destruct (IH Hlater) as (pre & ns & ws1 & ws2 & post & ? & ? & ? & ->).
        by exists (String c pre), ns, ws1, ws2, post.
  - intros (pre & ns & ws1 & ws2 & post & Hns & Hws1 & Hws2 & ->).
    induction pre as [|c pre IH].
    + assert (api_call_at api (ns +:+ ws1 +:+ "." +:+ ws2 +:+ api +:+ post) = true)
        as Hat by (apply api_call_at_spec; [done|]; by exists ns, ws1, ws2, post).
      change (EmptyString +:+ ?x) with x.
      destruct (ns +:+ _); cbn [api_call]; by rewrite Hat.
    + rewrite append_cons. cbn [api_call]. rewrite IH. apply orb_true_r.
Qed.

(** Every detector of the table but [webRequestBlocking] is that test
    for its own name, and every name starts with a letter. *)
Lemma detectors_api_calls :
  Forall (λ entry : string * (string → bool),
            starts_plain entry.1 = true
            ∧ (entry.1 ≠ "webRequestBlocking" →
               ∀ s, entry.2 s = api_call entry.1 s))
    Permissions.entries.
Proof.
  unfold Permissions.entries.
  repeat (constructor;
          [split; [reflexivity|first [by intros _ s|by intros []]]|]).
  constructor.
Qed.

Lemma startsWith_append (a b s : string) :
  Js.startsWith (a +:+ b) s = true → Js.startsWith a s = true.
Proof.
  intros [r ->]%startsWith_iff. apply startsWith_iff. exists (b +:+ r).
  apply append_assoc.
Qed.

Lemma api_call_prefix (a b s : string) :
  api_call (a +:+ b) s = true → api_call a s = true.
Proof.
  assert (∀ t, api_call_at (a +:+ b) t = true → api_call_at a t = true) as Hat.
  { intros t. unfold api_call_at. rewrite !existsb_exists.
    intros (ns & Hns & Hmatch). exists ns. split; [done|].
    apply andb_true_iff in Hmatch as [Hstart Hmatch]. cbv zeta in Hmatch.
    apply andb_true_iff in Hmatch as [Hdot Hname].
    rewrite Hstart. cbv zeta. rewrite Hdot. cbn [andb].
    by apply startsWith_append in Hname. }
  induction s as [|c s IH]; cbn [api_call].
  - rewrite !orb_false_r. apply Hat.
  - intros [H|H]%orb_true_iff; apply orb_true_iff; [left; by apply Hat|right; by apply IH].
Qed.

Lemma elem_of_derivePermissions (set : list string) (code p : string) :
  p ∈ derivePermissions set code
  ↔ p ∈ set ∨ ∃ fn, (p, fn) ∈ Permissions.entries ∧ fn code = true.
Proof.
  unfold derivePermissions. rewrite elem_of_fold_set_add, list_elem_of_fmap.
  apply or_iff_compat_l. split.
  - intros ([q fn] & -> & [Hfires [_ Hin]%list_elem_of_filter]%list_elem_of_filter).
    by exists fn.
  - intros (fn & Hin & Hfires). exists (p, fn). split; [done|].
    apply list_elem_of_filter. split; [done|].
    apply list_elem_of_filter. split; [|done]. cbn.
    intros ->. revert Hin. unfold Permissions.entries. rewrite !elem_of_cons.
    rewrite elem_of_nil. intros Hin.
    repeat (destruct Hin as [[= ?]|Hin]); done.
Qed.

Lemma filter_not_added (y : string) (l set : list string) :
  y ∉ l → filter (λ p, p ∉ set ++ [y]) l = filter (λ p, p ∉ set) l.
Proof.
  induction l as [|z l IH]; [done|].
  intros [Hyz Hy]%not_elem_of_cons. rewrite !filter_cons, (IH Hy).
  destruct (decide (z ∉ set)) as [Hz|Hz].
  - rewrite decide_True; [done|].
    rewrite not_elem_of_app, not_elem_of_cons. split_and!; [done|congruence|].
    apply not_elem_of_nil.
  - rewrite decide_False; [done|]. intros Hz'. apply Hz. intros Hzs. apply Hz'.
    apply elem_of_app. by left.
Qed.

(** Adding different values one after the other appends those that the
    set does not hold, in their order. *)
Lemma fold_set_add_NoDup (l set : list string) :
  NoDup l →
  fold_left (λ s y, Js.set_add y s) l set = set ++ filter (λ p, p ∉ set) l.
Proof.
  intros Hl. revert set. induction Hl as [|y l Hy Hl IH]; intros set; cbn [fold_left].
  - by rewrite app_nil_r.
  - rewrite IH, filter_cons. unfold Js.set_add. case_bool_decide as Hin.
    + by rewrite decide_False by (by intros ?).
    + rewrite decide_True by done. rewrite <- app_assoc. cbn [app].
      by rewrite (filter_not_added _ _ _ Hy).
Qed.

Lemma entries_names_NoDup : NoDup (Permissions.entries.*1).
Proof. apply (bool_decide_unpack _). by vm_compute. Qed.

Lemma entries_no_default :
  filter (λ entry : string * (string → bool), entry.1 ≠ "default") Permissions.entries
  = Permissions.entries.
Proof.
  apply filter_all, Forall_forall. intros [name fn] Hin Hname.
  cbn in Hname. subst name. revert Hin.
  unfold Permissions.entries. rewrite !elem_of_cons, elem_of_nil. intros Hin.
  repeat (destruct Hin as [[= ?]|Hin]); done.
Qed.

(** The names the code adds: those of the entries whose detector fires,
    in the order of the table. *)
Lemma derivePermissions_table_order (set : list string) (code : string) :
  derivePermissions set code
  = set ++ filter (λ p, p ∉ set)
             ((filter (λ entry, entry.2 code = true) Permissions.entries).*1).
Proof.
  unfold derivePermissions. rewrite entries_no_default. apply fold_set_add_NoDup.
  eapply sublist_NoDup; [apply entries_names_NoDup|].
  apply fmap_sublist, sublist_filter.
Qed.

Lemma NoDup_fold_set_add (l set : list string) :
  NoDup set → NoDup (fold_left (λ s y, Js.set_add y s) l set).
Proof.
  revert set. induction l as [|y l IH]; intros set Hset; [done|].
  cbn [fold_left]. by apply IH, NoDup_set_add.
Qed.

(** X13. The permissions derived from the code of a chunk: the set
    grows at its end, by the names of the table whose detector fires on
    the code and that the set did not hold, each once and in the order
    of the table, so that a set without duplicates stays one. A name
    that is not in the table, such as [tabs] or [activeTab], is never
    added. *)
Theorem derivePermissions_spec (set : list string) (code : string) :
  (∀ p, p ∈ derivePermissions set code
        ↔ p ∈ set ∨ ∃ fn, (p, fn) ∈ Permissions.entries ∧ fn code = true)
  ∧ derivePermissions set code
    = set ++ filter (λ p, p ∉ set)
               ((filter (λ entry, entry.2 code = true) Permissions.entries).*1)
  ∧ NoDup (filter (λ p, p ∉ set)
             ((filter (λ entry, entry.2 code = true) Permissions.entries).*1))
  ∧ (NoDup set → NoDup (derivePermissions set code))
  ∧ (∀ p, p ∈ ["tabs"; "activeTab"; "scripting"; "clipboardRead"; "clipboardWrite"] →
          p ∈ derivePermissions set code → p ∈ set).
Proof.
  split_and!.
  - intros p. apply elem_of_derivePermissions.
  - apply derivePermissions_table_order.
  - apply NoDup_filter. eapply sublist_NoDup; [apply entries_names_NoDup|].
    apply fmap_sublist, sublist_filter.
  - apply NoDup_fold_set_add.
  - intros p Hp [Hin|(fn & Hin & _)]%elem_of_derivePermissions; [done|].
    exfalso. revert Hin. unfold Permissions.entries.
    rewrite !elem_of_cons, elem_of_nil. intros Hin.
    rewrite !elem_of_cons, elem_of_nil in Hp.
    destruct Hp as [->|[->|[->|[->|[->|[]]]]]];
      repeat (destruct Hin as [[= ?]|Hin]); done.
Qed.

End Detectors.

(** ** Script file names *)

Section Normalize.

Lemma has_char_append (c : ascii) (a b : string) :
  Js.has_char c (a +:+ b) = Js.has_char c a || Js.has_char c b.
Proof.
  induction a as [|d a IH]; [done|].
  rewrite append_cons. cbn [Js.has_char]. by rewrite IH, orb_assoc.
Qed.

Lemma endsWith_cons (suffix p : string) (c : ascii) :
  Js.endsWith suffix p = true → Js.endsWith suffix (String c p) = true.
Proof.
  intros [q ->]%endsWith_iff. apply endsWith_iff. by exists (String c q).
Qed.

Lemma endsWith_tail (suffix p : string) (c : ascii) :
  Js.endsWith suffix (String c p) = true →
  String c p = suffix ∨ Js.endsWith suffix p = true.
Proof.
  intros [[|d q] Heq]%endsWith_iff; [by left|].
  right. rewrite append_cons in Heq. injection Heq as _ ->.
  apply endsWith_append.
Qed.

Lemma is_script_extension (p : string) :
  p ∈ [".ts"; ".js"; ".tsx"; ".jsx"] → is_script p = true.
Proof.
  rewrite !elem_of_cons, elem_of_nil. by intros [->|[->|[->|[->|[]]]]].
Qed.

Lemma is_script_tail (c : ascii) (p : string) :
  is_script (String c p) = true →
  String c p ∈ [".ts"; ".js"; ".tsx"; ".jsx"] ∨ is_script p = true.
Proof.
  unfold is_script. rewrite !orb_true_iff, !elem_of_cons.
  intros [[[H|H]|H]|H]; apply endsWith_tail in H as [H|H]; tauto.
Qed.

Lemma is_script_cons (c : ascii) (p : string) :
  is_script p = true → is_script (String c p) = true.
Proof.
  unfold is_script. rewrite !orb_true_iff.
  intros [[[H|H]|H]|H]; apply (endsWith_cons _ _ c) in H; tauto.
Qed.

(** A path that goes on after a script extension with another one is
    not itself an extension. *)
Lemma extension_not_nested (c : ascii) (p : string) :
  is_script p = true → String c p ∉ [".ts"; ".js"; ".tsx"; ".jsx"].
Proof.
  intros Hp Hin.
  assert (Js.has_char "." p = true) as Hdot.
  { revert Hp. unfold is_script. rewrite !orb_true_iff.
    intros [[[H|H]|H]|H]; apply endsWith_iff in H as [q ->];
      rewrite has_char_append; apply orb_true_iff; by right. }
  revert Hin. rewrite !elem_of_cons, elem_of_nil.
  intros [[= -> ->]|[[= -> ->]|[[= -> ->]|[[= -> ->]|[]]]]]; done.
Qed.

Lemma normalizeFilename_cons (c : ascii) (p : string) :
  normalizeFilename (String c p)
  = if bool_decide (String c p ∈ [".ts"; ".js"; ".tsx"; ".jsx"]) then ".js"
    else String c (normalizeFilename p).
Proof. reflexivity. Qed.

(** X14. The name of the script a file is compiled to: a path with a
    script extension, in the sense of [deriveFiles], gets the extension
    [.js] in place of its own, and any other path is left as it is. The
    result is a fixed point. *)
Theorem normalizeFilename_spec (p : string) :
  (is_script p = true →
   ∃ stem extension,
     extension ∈ [".ts"; ".js"; ".tsx"; ".jsx"]
     ∧ p = stem +:+ extension
     ∧ normalizeFilename p = stem +:+ ".js")
  ∧ (is_script p = false → normalizeFilename p = p)
  ∧ normalizeFilename (normalizeFilename p) = normalizeFilename p.
Proof.
  assert (is_script p = true →
          ∃ stem extension,
            extension ∈ [".ts"; ".js"; ".tsx"; ".jsx"]
            ∧ p = stem +:+ extension
            ∧ normalizeFilename p = stem +:+ ".js") as Hscript.
  { induction p as [|c p IH]; [done|]. intros Hp.
    rewrite normalizeFilename_cons. case_bool_decide as Hext.
    - by exists EmptyString, (String c p).
    - apply is_script_tail in Hp as [Hp|Hp]; [done|].
      destruct (IH Hp) as (stem & extension & Hin & -> & ->).
      by exists (String c stem), extension. }
  assert (∀ p, is_script p = false → normalizeFilename p = p) as Hother.
  { clear. intros p. induction p as [|c p IH]; [done|]. intros Hp.
    rewrite normalizeFilename_cons. case_bool_decide as Hext.
    - apply is_script_extension in Hext. congruence.
    - rewrite IH; [done|]. destruct (is_script p) eqn:Htail; [|done].
      apply (is_script_cons c) in Htail. congruence. }
  split_and!; [done|apply Hother|].
  destruct (is_script p) eqn:Hp; [|by rewrite !(Hother p Hp)].
  destruct (Hscript eq_refl) as (stem & extension & _ & _ & ->).
  clear. induction stem as [|c stem IH]; [done|].
  rewrite append_cons, normalizeFilename_cons.
  rewrite bool_decide_eq_false_2.
  - by rewrite IH.
  - apply extension_not_nested.
    unfold is_script. by rewrite (endsWith_append stem ".js").
Qed.

End Normalize.

(** ** [generateBundle] *)

Section GenerateBundleFacts.
Context `{Pf : Platform} `{Jn : Json} `{Cx : PluginContext}.

Lemma elem_of_fold_derivePermissions (codes set : list string) (p : string) :
  p ∈ fold_left derivePermissions codes set
  ↔ p ∈ set
    ∨ ∃ code fn, code ∈ codes ∧ (p, fn) ∈ Permissions.entries ∧ fn code = true.
Proof.
  revert set. induction codes as [|code codes IH]; intros set; cbn [fold_left].
  - split; [by left|]. intros [?|(? & ? & []%elem_of_nil & _)]. done.
  - rewrite IH, elem_of_derivePermissions. split.
    + intros [[?|(fn & ? & ?)]|(code' & fn & ? & ? & ?)].
      * by left.
      * right. exists code, fn. split_and!; [left|done|done].
      * right. exists code', fn. split_and!; [by right|done|done].
    + intros [?|(code' & fn & [->|?]%elem_of_cons & ? & ?)].
      * left. by left.
      * left. right. by exists fn.
      * right. by exists code', fn.
Qed.

Lemma NoDup_fold_derivePermissions (codes set : list string) :
  NoDup set → NoDup (fold_left derivePermissions codes set).
Proof.
  revert set. induction codes as [|code codes IH]; intros set Hset; [done|].
  cbn [fold_left]. by apply IH, NoDup_fold_set_add.
Qed.

(** No name of the table starts with the mark of an exclusion. *)
Lemma entries_plain (p : string) (fn : string → bool) :
  (p, fn) ∈ Permissions.entries → Js.startsWith "!" p = false.
Proof.
  unfold Permissions.entries. rewrite !elem_of_cons, elem_of_nil. intros Hin.
  repeat (destruct Hin as [[= -> _]|Hin]; [reflexivity|]). done.
Qed.

Lemma elem_of_strings (p : string) (l : list string) :
  Some p ∈ flat_inf [PermArr (PermStr <$> l)] ↔ p ∈ l.
Proof.
  rewrite flat_inf_strings. split.
  - by intros (? & [= <-] & ?)%list_elem_of_fmap.
  - apply list_elem_of_fmap_2.
Qed.

Lemma elem_of_two_arrays (p : string) (l1 l2 : list string) :
  Some p ∈ flat_inf [PermArr (PermStr <$> l1); PermArr (PermStr <$> l2)]
  ↔ p ∈ l1 ∨ p ∈ l2.
Proof.
  rewrite flat_inf_cons, elem_of_app.
  rewrite <- (elem_of_strings p l1), <- (elem_of_strings p l2).
  by rewrite flat_inf_nested, flat_inf_cons, app_nil_r.
Qed.

(** The hook on an MV2 manifest and a bundle with a file in it, once
    the permissions are settled. *)
Lemma generateBundle_MV2 (o : BundleOptions) (s : BundleState) (m : ManifestV2) :
  Cache.manifest (bs_cache s) = Some (MV2 m) →
  without_stub (bs_bundle s) ≠ [] →
  let s0 := {| bs_cache := bs_cache s; bs_bundle := without_stub (bs_bundle s);
               bs_warnings := bs_warnings s |} in
  match derive_permissions_block o s0 with
  | (s1, inl e) => generateBundle o s = (s1, inl e)
  | (s1, inr detected) =>
      ∃ body,
        generateBundle o s = (s1, inr (Some body))
        ∧ permissions (v2_common (body_manifest body))
          = Some (combinePerms
                    [PermArr (PermStr <$> detected);
                     PermArr (PermStr <$> default [] (permissions (v2_common m)))])
        ∧ v2_web_accessible_resources (body_manifest body)
          = (if contentScriptWrapper o
                && negb (bool_decide (content_script_js (v2_common m) = []))
             then Some (slash <$> Js.uniq
                          (default [] (v2_web_accessible_resources m)
                             ++ imported_chunks (without_stub (bs_bundle s))
                             ++ content_script_js (v2_common m)))
             else v2_web_accessible_resources m)
  end.
Proof.
  intros Hm Hbundle s0. unfold generateBundle.
  rewrite bool_decide_eq_false_2 by done. cbn [bs_cache]. rewrite Hm.
  fold s0. destruct (derive_permissions_block o s0) as [s1 [e|detected]]; [done|].
  eexists. split; [reflexivity|]. cbn [body_manifest v2_common v2_web_accessible_resources].
  unfold cloneObject.
  by destruct (contentScriptWrapper o && _).
Qed.

(** X15. The hook gives a manifest body only for a cached MV2
    manifest and a bundle that holds a file besides the stub chunk. On
    a bundle with nothing else it throws, whatever the manifest; on an
    MV3 manifest it returns without a body, a warning or a write to the
    cache. The stub chunk is gone from the bundle in every case. *)
Theorem generateBundle_guards (o : BundleOptions) (s : BundleState) :
  (without_stub (bs_bundle s) = [] →
   generateBundle o s
   = ({| bs_cache := bs_cache s; bs_bundle := []; bs_warnings := bs_warnings s |},
      inl EmptyBundle))
  ∧ (∀ m3, without_stub (bs_bundle s) ≠ [] →
       Cache.manifest (bs_cache s) = Some (MV3 m3) →
       generateBundle o s
       = ({| bs_cache := bs_cache s; bs_bundle := without_stub (bs_bundle s);
             bs_warnings := bs_warnings s |}, inr None))
  ∧ (∀ body, (generateBundle o s).2 = inr (Some body) →
       without_stub (bs_bundle s) ≠ []
       ∧ ∃ m2, Cache.manifest (bs_cache s) = Some (MV2 m2))
  ∧ stubChunkNameForCssOnlyCrx +:+ ".js" ∉ (bs_bundle (generateBundle o s).1).*1.
Proof.
  split_and!.
  - intros Hempty. unfold generateBundle. by rewrite Hempty.
  - intros m3 Hbundle Hm. unfold generateBundle.
    rewrite bool_decide_eq_false_2 by done. cbn [bs_cache]. by rewrite Hm.
  - intros body. unfold generateBundle. case_bool_decide as Hbundle; [done|].
    cbn [bs_cache]. destruct (Cache.manifest (bs_cache s)) as [[m2|m3]|]; [|done|done].
    intros _. split; [done|by eexists].
  - assert (bs_bundle (generateBundle o s).1 = without_stub (bs_bundle s)) as ->.
    { unfold generateBundle. case_bool_decide as Hbundle; [done|].
      cbn [bs_cache]. destruct (Cache.manifest (bs_cache s)) as [[m2|m3]|]; [|done|done].
      unfold derive_permissions_block. cbn [bs_cache bs_bundle].
      destruct (_ && _); [|done]. by destruct (JSON_parse _). }
    intros ([key file] & Hkey & [Hne _]%list_elem_of_filter)%list_elem_of_fmap.
    cbn in Hkey, Hne. congruence.
Qed.

(** X16. The permissions of the manifest body after a scan of the
    chunks, that is, unless an asset has changed since a hash was
    stored: a permission is in the body exactly when a detector of the
    table fires for it on the code of a chunk or the manifest lists it,
    and the manifest does not list it with the mark of an exclusion.
    The body lists no permission twice. *)
Theorem generateBundle_permissions (o : BundleOptions) (s : BundleState)
    (m : ManifestV2) (body : ManifestBody) :
  Cache.manifest (bs_cache s) = Some (MV2 m) →
  Cache.assetChanged (bs_cache s) = false ∨ Cache.permsHash (bs_cache s) = EmptyString →
  (generateBundle o s).2 = inr (Some body) →
  ∃ listed,
    permissions (v2_common (body_manifest body)) = Some listed
    ∧ NoDup listed
    ∧ ∀ p, p ∈ listed
           ↔ ((∃ code fn, code ∈ chunk_codes (without_stub (bs_bundle s))
                          ∧ (p, fn) ∈ Permissions.entries ∧ fn code = true)
              ∨ p ∈ default [] (permissions (v2_common m)))
             ∧ Js.startsWith "!" p = false
             ∧ "!" +:+ p ∉ default [] (permissions (v2_common m)).
Proof.
  intros Hm Hscan Hbody.
  assert (without_stub (bs_bundle s) ≠ []) as Hbundle.
  { intros Hempty. revert Hbody. unfold generateBundle. by rewrite Hempty. }
  pose proof (generateBundle_MV2 o s m Hm Hbundle) as Hrun. cbv zeta in Hrun.
  unfold derive_permissions_block in Hrun. cbn [bs_cache bs_bundle] in Hrun.
  assert (Cache.assetChanged (bs_cache s)
          && negb (bool_decide (Cache.permsHash (bs_cache s) = EmptyString)) = false)
    as Hfresh.
  { destruct Hscan as [-> | ->]; [done|]. apply andb_false_r. }
  rewrite Hfresh in Hrun. cbv zeta in Hrun.
  destruct Hrun as (body' & Hrun & Hperms & _).
  rewrite Hrun in Hbody. injection Hbody as <-.
  eexists. split; [exact Hperms|]. split; [apply NoDup_combinePerms|].
  intros p. rewrite elem_of_combinePerms, !elem_of_two_arrays.
  unfold detected_permissions. rewrite !elem_of_fold_derivePermissions.
  rewrite !elem_of_nil. split.
  - intros ([[[]|Hdet]|Hlisted] & Hplain & Hnot); (split_and!; [|done|]).
    + by left.
    + intros Hin. apply Hnot. by right.
    + by right.
    + intros Hin. apply Hnot. by right.
  - intros (Hin & Hplain & Hnot). split_and!; [|done|].
    + destruct Hin as [Hdet|Hlisted]; [left; by right|by right].
    + intros [[[]|(code & fn & _ & Hentry & _)]|Hlisted]; [|done].
      apply entries_plain in Hentry. unfold Js.startsWith in Hentry.
      by rewrite (prefix_append "!" p) in Hentry.
Qed.

(** X17. After a change to a file that the plugin had read, with the
    hash of an earlier scan in the cache, the hook does not look at the
    code of the chunks: the permissions of the body are those of the
    hash, combined with those of the manifest. It warns of nothing,
    keeps the hash, and clears the mark of the change, so that the next
    bundle is scanned again. *)
Theorem generateBundle_after_asset_change (o : BundleOptions) (id : string)
    (cache : Cache.t) (bundle : OutputBundle) (warnings : list string)
    (m : ManifestV2) (stored : list string) :
  Js.endsWith manifestName id = false →
  is_Some (Cache.readFile cache !! id) →
  Cache.manifest cache = Some (MV2 m) →
  Cache.permsHash cache ≠ EmptyString →
  JSON_parse (Cache.permsHash cache) = Some stored →
  without_stub bundle ≠ [] →
  let s := {| bs_cache := watchChange id cache; bs_bundle := bundle;
              bs_warnings := warnings |} in
  ∃ body,
    (generateBundle o s).2 = inr (Some body)
    ∧ permissions (v2_common (body_manifest body))
      = Some (combinePerms
                [PermArr (PermStr <$> stored);
                 PermArr (PermStr <$> default [] (permissions (v2_common m)))])
    ∧ bs_warnings (generateBundle o s).1 = warnings
    ∧ Cache.permsHash (bs_cache (generateBundle o s).1) = Cache.permsHash cache
    ∧ Cache.assetChanged (bs_cache (generateBundle o s).1) = false.
Proof.
  intros Hid Hread Hm Hhash Hparse Hbundle s.
  assert (bs_cache s
          = Cache.set_assetChanged true
              (Cache.set_readFile (delete id (Cache.readFile cache)) cache)) as Hcache.
  { subst s. cbn [bs_cache]. unfold watchChange. rewrite Hid.
    by rewrite (bool_decide_eq_true_2 _ Hread). }
  pose proof (generateBundle_MV2 o s m) as Hrun. cbv zeta in Hrun.
  rewrite Hcache in Hrun. specialize (Hrun Hm Hbundle).
  unfold derive_permissions_block in Hrun.
  cbn [bs_cache bs_bundle bs_warnings Cache.assetChanged Cache.permsHash
       Cache.set_assetChanged Cache.set_readFile] in Hrun.
  rewrite (bool_decide_eq_false_2 _ Hhash), Hparse in Hrun. cbn [andb negb] in Hrun.
  destruct Hrun as (body & Hrun & Hperms & _).
  exists body. rewrite Hrun. by split_and!.
Qed.

(** X18. A scan stores the hash of what it detects, and warns only of
    a change: when the hook runs a second time on the same bundle, with
    no asset changed, it gives the same body, leaves the cache as it is
    and adds no warning. *)
Theorem generateBundle_again (o : BundleOptions) (s : BundleState) (m : ManifestV2) :
  Cache.manifest (bs_cache s) = Some (MV2 m) →
  Cache.assetChanged (bs_cache s) = false →
  without_stub (bs_bundle s) ≠ [] →
  JSON_stringify (detected_permissions (without_stub (bs_bundle s))) ≠ EmptyString →
  let first := generateBundle o s in
  generateBundle o first.1 = first.
Proof.
  intros Hm Hunchanged Hbundle Hhash first. subst first.
  assert (without_stub (without_stub (bs_bundle s)) = without_stub (bs_bundle s))
    as Hstub.
  { unfold without_stub. by apply list_filter_filter_l. }
  unfold generateBundle at 2 3.
  rewrite bool_decide_eq_false_2 by done. cbn [bs_cache]. rewrite Hm.
  unfold derive_permissions_block. cbn [bs_cache bs_bundle bs_warnings].
  rewrite Hunchanged. cbn [andb]. cbv zeta. cbn [fst].
  unfold generateBundle. cbn [bs_bundle bs_cache Cache.manifest set_permsHash bs_warnings].
  rewrite Hstub. rewrite bool_decide_eq_false_2 by done. rewrite Hm.
  unfold derive_permissions_block.
  cbn [bs_cache bs_bundle bs_warnings Cache.assetChanged Cache.permsHash set_permsHash].
  rewrite Hunchanged. cbn [andb]. cbv zeta.
  assert (permissions_warning o
            (JSON_stringify (detected_permissions (without_stub (bs_bundle s))))
            (JSON_stringify (detected_permissions (without_stub (bs_bundle s))))
            (detected_permissions (without_stub (bs_bundle s))) = []) as ->.
  { unfold permissions_warning. destruct (_ && _); [|done].
    rewrite (bool_decide_eq_false_2 _ Hhash).
    by rewrite bool_decide_eq_false_2 by (by intros ?). }
  by rewrite app_nil_r.
Qed.

(** X19. The web accessible resources of the body. With content
    script wrappers on and a content script in the manifest they are the
    resources of the manifest, the file names of the chunks that are no
    entry points and the scripts of the content scripts, each once and
    with forward slashes; otherwise they are those of the manifest. *)
Theorem generateBundle_web_accessible_resources (o : BundleOptions) (s : BundleState)
    (m : ManifestV2) (body : ManifestBody) :
  Cache.manifest (bs_cache s) = Some (MV2 m) →
  (generateBundle o s).2 = inr (Some body) →
  if contentScriptWrapper o
     && negb (bool_decide (content_script_js (v2_common m) = []))
  then
    ∃ paths,
      v2_web_accessible_resources (body_manifest body) = Some (slash <$> paths)
      ∧ NoDup paths
      ∧ ∀ p, p ∈ paths
             ↔ p ∈ default [] (v2_web_accessible_resources m)
               ∨ p ∈ imported_chunks (without_stub (bs_bundle s))
               ∨ p ∈ content_script_js (v2_common m)
  else
    v2_web_accessible_resources (body_manifest body) = v2_web_accessible_resources m.
Proof.
  intros Hm Hbody.
  assert (without_stub (bs_bundle s) ≠ []) as Hbundle.
  { intros Hempty. revert Hbody. unfold generateBundle. by rewrite Hempty. }
  pose proof (generateBundle_MV2 o s m Hm Hbundle) as Hrun. cbv zeta in Hrun.
  destruct (derive_permissions_block o _) as [s1 [e|detected]].
  { rewrite Hrun in Hbody. done. }
  destruct Hrun as (body' & Hrun & _ & Hwar).
  rewrite Hrun in Hbody. injection Hbody as <-.
  destruct (contentScriptWrapper o && _); [|done].
  eexists. split; [exact Hwar|]. split; [apply NoDup_uniq|].
  intros p. by rewrite elem_of_uniq, !elem_of_app.
Qed.

Ltac find_entry Hin :=
  unfold Permissions.entries in Hin; rewrite !elem_of_cons, elem_of_nil in Hin;
  repeat match type of Hin with
         | _ ∨ _ =>
             let Heq := fresh in
             let Hname := fresh in
             let Hfn := fresh in
             destruct Hin as [Heq|Hin];
             [apply pair_equal_spec in Heq as [Hname Hfn];
              first [discriminate Hname|exact Hfn]|]
         end;
  destruct Hin.

Lemma entries_ttsEngine (fn : string → bool) :
  ("ttsEngine", fn) ∈ Permissions.entries → fn = Permissions.ttsEngine.
Proof. intros Hin. find_entry Hin. Qed.

Lemma entries_webRequestBlocking (fn : string → bool) :
  ("webRequestBlocking", fn) ∈ Permissions.entries →
  fn = Permissions.webRequestBlocking.
Proof. intros Hin. find_entry Hin. Qed.

(** X20. Two names of the table start with another one, and their
    detectors imply the other's: whenever [ttsEngine] is detected in a
    bundle, so is [tts], and whenever [webRequestBlocking] is, so is
    [webRequest]. *)
Theorem detected_permissions_overlap (bundle : OutputBundle) :
  ("ttsEngine" ∈ detected_permissions bundle → "tts" ∈ detected_permissions bundle)
  ∧ ("webRequestBlocking" ∈ detected_permissions bundle →
     "webRequest" ∈ detected_permissions bundle).
Proof.
  unfold detected_permissions. rewrite !elem_of_fold_derivePermissions.
  split; intros [[]%elem_of_nil|(code & fn & Hcode & Hentry & Hfires)]; right.
  - exists code, Permissions.tts. split_and!; [done| |].
    + unfold Permissions.entries. rewrite !elem_of_cons. tauto.
    + rewrite (entries_ttsEngine fn Hentry) in Hfires.
      by apply (api_call_prefix "tts" "Engine").
  - exists code, Permissions.webRequest. split_and!; [done| |].
    + unfold Permissions.entries. rewrite !elem_of_cons. tauto.
    + rewrite (entries_webRequestBlocking fn Hentry) in Hfires.
      by apply andb_true_iff in Hfires as [? _].
Qed.

End GenerateBundleFacts.

(** ** Match patterns *)

Section MatchPatternErrors.
Context `{Pf : Platform}.

Lemma rmapM_elem_Throw {A B : Type} (f : A → result B) (l : list A) (x : A)
    (e : error) :
  x ∈ l → f x = Throw e → ∃ e', rmapM f l = Throw e'.
Proof.
  intros Hx Hfx. induction l as [|y l IH]; [by apply elem_of_nil in Hx|].
  cbn [rmapM]. destruct (f y) as [b|e'] eqn:Hy; [|by eexists].
  apply elem_of_cons in Hx as [->|Hx]; [congruence|].
  destruct (IH Hx) as [e' ->]. by eexists.
Qed.

(** X21. A pattern without the separator of a scheme, such as
    [<all_urls>], cannot be converted: the conversion throws a
    [TypeError], and so does [updateManifestV3] on a manifest with
    content scripts when such a pattern is among their matches or the
    host permissions. *)
Theorem updateManifestV3_pattern_without_scheme (m : ManifestV3)
    (options : RollupOptions) (wrap : bool) (cache : Cache.t)
    (scripts : list ContentScript) (pattern : string) :
  content_scripts (v3_common m) = Some scripts →
  pattern ∈ all_patterns m scripts →
  Js.occurs "://" pattern = false →
  convertMatchPatterns pattern
  = Throw (RuntimeTypeError "rest.split: rest is undefined")
  ∧ ∃ e, (updateManifestV3 m options wrap cache).2 = Throw e
         ∧ class_of e = IsTypeError.
Proof.
  intros Hcs Hin Hsep.
  assert (convertMatchPatterns pattern
          = Throw (RuntimeTypeError "rest.split: rest is undefined")) as Hthrow.
  { unfold convertMatchPatterns. by rewrite (split_whole "://" pattern). }
  split; [done|].
  destruct (updateManifestV3 m options wrap cache) as [after [updated|e]] eqn:Hrun.
  - exfalso. revert Hrun. rewrite (updateManifestV3_steps _ _ _ _ _ Hcs).
    destruct (first_output (output options)) as [first|e]; [|done].
    cbv zeta. destruct (multiple_chunkFileNames options); [done|].
    destruct (rmapM_elem_Throw convertMatchPatterns _ _ _ Hin Hthrow) as [e' ->].
    done.
  - exists e. split; [done|].
    assert ((updateManifestV3 m options wrap cache).2 = Throw e) as Hthrown
      by (by rewrite Hrun).
    apply updateManifestV3_Throw in Hthrown as [->|[site ->]]; done.
Qed.

(** X22. A pattern with a host, in which a colon followed by a star
    occurs nowhere after the scheme, neither as a port nor in the path,
    and the scheme separator occurs once: where the URL parser gives the
    host back as the origin, the conversion keeps the scheme and the
    host and puts a star in place of the path. *)
Theorem convertMatchPatterns_origin (scheme host path : string) :
  Js.has_char ":" scheme = false →
  Js.occurs "://" (host +:+ path) = false →
  Js.occurs ":*" (host +:+ path) = false →
  url_origin ("http://" +:+ host +:+ path) = Some ("http://" +:+ host) →
  convertMatchPatterns (scheme +:+ "://" +:+ host +:+ path)
  = Ok (unescape (scheme +:+ "://" +:+ host +:+ "/*")).
Proof. apply convertMatchPatterns_host. Qed.

(** X23. A pattern whose host is followed by a wildcard port: the
    port is parsed as 3333 and put back as the wildcard, so the
    conversion keeps scheme, host and wildcard port and puts a star in
    place of the path. *)
Theorem convertMatchPatterns_wildcard_port_kept (scheme host path : string) :
  Js.has_char ":" scheme = false →
  Js.has_char ":" host = false →
  Js.occurs "://" path = false →
  Js.occurs ":*" path = false →
  url_origin ("http://" +:+ host +:+ ":3333" +:+ path)
  = Some ("http://" +:+ host +:+ ":3333") →
  convertMatchPatterns (scheme +:+ "://" +:+ host +:+ ":*" +:+ path)
  = Ok (unescape (scheme +:+ "://" +:+ (host +:+ ":*") +:+ "/*")).
Proof. apply convertMatchPatterns_wildcard_host. Qed.

End MatchPatternErrors.

(** ** The [html-inputs] plugin *)

Section HtmlInputsFacts.
Context `{Pf : Platform} `{Ch : Cheerio}.

Lemma html_mapM_length {A B : Type} (f : A → html_error + B) (l : list A)
    (ys : list B) :
  html_mapM f l = inr ys → length ys = length l.
Proof.
  revert ys. induction l as [|x l IH]; intros ys; cbn [html_mapM].
  - by intros [= <-].
  - destruct (f x) as [e|y]; [done|].
    destruct (html_mapM f l) as [e|ys']; [done|].
    intros [= <-]. cbn. f_equal. by apply IH.
Qed.

Lemma html_mapM_loadHtml (srcDir : string) (html : list string) (pages : list Page) :
  html_mapM (loadHtml srcDir) html = inr pages →
  page_filePath <$> pages = html
  ∧ Forall (λ page, page_rootPath page = srcDir
                    ∧ read_html (page_filePath page) = Some (page_document page))
      pages.
Proof.
  revert pages. induction html as [|x html IH]; intros pages; cbn [html_mapM].
  - intros [= <-]. split; [done|constructor].
  - unfold loadHtml at 1. destruct (read_html x) as [document|] eqn:Hread; [|done].
    destruct (html_mapM (loadHtml srcDir) html) as [e|pages']; [done|].
    intros [= <-]. destruct (IH pages' eq_refl) as [Hpaths Hpages].
    split; [cbn; by rewrite Hpaths|]. by constructor.
Qed.

Lemma html_mapM_pages (srcDir : string) (html : list string) (pages : list Page) :
  html_mapM (loadHtml srcDir) html = inr pages →
  ∀ page, page ∈ pages
          ↔ ∃ f document,
              f ∈ html ∧ read_html f = Some document
              ∧ page = {| page_document := document; page_filePath := f;
                          page_rootPath := srcDir |}.
Proof.
  revert pages. induction html as [|x html IH]; intros pages; cbn [html_mapM].
  - intros [= <-] page. split; [by intros ?%elem_of_nil|].
    by intros (? & ? & ?%elem_of_nil & _).
  - unfold loadHtml at 1. destruct (read_html x) as [document|] eqn:Hread; [|done].
    destruct (html_mapM (loadHtml srcDir) html) as [e|pages']; [done|].
    intros [= <-] page. rewrite elem_of_cons, (IH pages' eq_refl). split.
    + intros [->|(f & d & Hf & Hd & ->)].
      * exists x, document. split_and!; [left|done|done].
      * exists f, d. split_and!; [by right|done|done].
    + intros (f & d & [->|Hf]%elem_of_cons & Hd & ->).
      * left. congruence.
      * right. by exists f, d.
Qed.

Lemma html_forEach_mutate (browserPolyfill : BrowserPolyfill) (pages : list Page) :
  let after := html_forEach (mutateScriptElems browserPolyfill) pages in
  page_filePath <$> after.1 = page_filePath <$> pages
  ∧ match after.2 with
    | Some e =>
        e = ScriptSrcUndefined
        ∧ Exists (λ page, None ∈ script_src_attrs (page_document page)) pages
    | None =>
        Forall (λ page, None ∉ script_src_attrs (page_document page)) pages
        ∧ after.1
          = (λ page, {| page_document :=
                          mutate_script_elems browserPolyfill (page_document page);
                        page_filePath := page_filePath page;
                        page_rootPath := page_rootPath page |}) <$> pages
    end.
Proof.
  cbv zeta. induction pages as [|page pages [IHpaths IH]]; cbn [html_forEach].
  - by split_and!.
  - unfold mutateScriptElems at 1 3 5. case_bool_decide as Hsrc.
    + cbn. split; [done|]. split; [done|]. by left.
    + destruct (html_forEach _ pages) as [pages' [e|]]; cbn in *.
      * split; [by rewrite IHpaths|]. destruct IH as [-> IH].
        split; [done|]. by right.
      * split; [by rewrite IHpaths|]. destruct IH as [Hall ->].
        split; [by constructor|done].
Qed.

(** The hook when it reloads the pages: what it leaves in the cache
    and what it returns. *)
Lemma html_options_reload (o : HtmlInputsOptions) (options : RollupOptions)
    (cache : HtmlCache) (srcDir : string) (paths : list string) (pages : list Page) :
  html_srcDir o = Some srcDir → srcDir ≠ EmptyString →
  input_array (input options) = inr paths →
  filter (λ f, is_html f) paths ≠ [] →
  hc_pages cache = [] →
  html_mapM (loadHtml srcDir) (filter (λ f, is_html f) paths) = inr pages →
  let entries := filter (λ f, ¬ is_html f) paths ++ pages ≫= getScriptSrc in
  let after := html_forEach (mutateScriptElems (html_browserPolyfill o)) pages in
  let cache' :=
    {| hc_scripts := pages ≫= getJsAssets; hc_html := filter (λ f, is_html f) paths;
       hc_pages := after.1;
       hc_js := pages ≫= getScriptSrc; hc_css := pages ≫= getCssHrefs;
       hc_img := pages ≫= getImgSrcs; hc_input := entries;
       hc_srcDir := Some srcDir |} in
  html_options o options cache
  = (cache',
     match after.2 with
     | Some e => inl e
     | None =>
         if bool_decide (entries = []) then inl NoScriptInHtml
         else match reduce (reducer srcDir) entries ∅ with
              | Throw e => inl (EntryError e)
              | Ok record => inr (set_input (InputObject record) options)
              end
     end).
Proof.
  intros Hdir Hne Hinput Hhtml Hpages Hload entries after cache'.
  unfold html_options. rewrite Hdir, (bool_decide_eq_false_2 _ Hne), Hinput.
  cbv zeta. rewrite (bool_decide_eq_false_2 _ Hhtml).
  cbn [hc_pages hc_scripts hc_html hc_js hc_css hc_img hc_input hc_srcDir].
  rewrite Hpages, (bool_decide_eq_true_2 ([] = [])) by done. rewrite Hload.
  fold entries. subst cache'. fold after.
  destruct after as [mutated [e|]]; [done|]. cbn [fst snd].
  case_bool_decide as Hentries; [done|].
  cbn [hc_input].
  cbn [reduce_to_record reduceToRecord mbind result_bind].
  by destruct (reduce (reducer srcDir) entries ∅).
Qed.

(** The hook returns or throws that error only past these checks. *)
Lemma html_options_inv (o : HtmlInputsOptions) (options : RollupOptions)
    (cache cache' : HtmlCache) (r : html_error + RollupOptions) :
  html_options o options cache = (cache', r) →
  (∃ e, r = inl e ∧ e ≠ NoScriptInHtml ∧ (∀ e', e ≠ EntryError e'))
  ∨ ∃ srcDir paths,
      html_srcDir o = Some srcDir ∧ srcDir ≠ EmptyString
      ∧ input_array (input options) = inr paths
      ∧ (filter (λ f, is_html f) paths = [] ∨ hc_pages cache ≠ []
         ∨ ∃ pages,
             hc_pages cache = []
             ∧ html_mapM (loadHtml srcDir) (filter (λ f, is_html f) paths) = inr pages).
Proof.
  unfold html_options.
  destruct (html_srcDir o) as [srcDir|]; [|intros [= _ <-]; left; by eexists].
  case_bool_decide as Hne; [intros [= _ <-]; left; by eexists|].
  destruct (input_array (input options)) as [e|paths] eqn:Hinput.
  { intros [= _ <-]. left. exists e. split; [done|].
    unfold input_array in Hinput.
    destruct (input options); try discriminate Hinput.
    injection Hinput as <-. done. }
  cbv zeta. intros Hrun. destruct (decide (filter (λ f, is_html f) paths = []))
    as [Hnone|Hhtml].
  { right. exists srcDir, paths. split_and!; try done. by left. }
  rewrite (bool_decide_eq_false_2 _ Hhtml) in Hrun.
  cbn [hc_pages hc_scripts hc_html hc_js hc_css hc_img hc_input hc_srcDir] in Hrun.
  destruct (decide (hc_pages cache = [])) as [Hpages|Hcached].
  - rewrite (bool_decide_eq_true_2 _ Hpages) in Hrun.
    destruct (html_mapM (loadHtml srcDir) _) as [e|pages] eqn:Hload.
    + injection Hrun as _ <-. left. exists e. split; [done|].
      clear -Hload. revert Hload.
      induction (filter (λ f, is_html f) paths) as [|x l IH]; [done|].
      cbn [html_mapM]. unfold loadHtml at 1. destruct (read_html x).
      * destruct (html_mapM (loadHtml srcDir) l); [|done].
        intros [= ->]. by apply IH.
      * by intros [= <-].
    + right. exists srcDir, paths. split_and!; try done. right. right. by exists pages.
  - right. exists srcDir, paths. split_and!; try done. right. by left.
Qed.

(** The hook after it has thrown that no page has a script. *)
Lemma html_options_retry (o : HtmlInputsOptions) (options : RollupOptions)
    (cache cache' : HtmlCache) :
  html_options o options cache = (cache', inl NoScriptInHtml) →
  html_options o options cache'
  = (cache', inr (set_input (InputObject ∅) options)).
Proof.
  intros Hrun. pose proof Hrun as Hinv.
  apply html_options_inv in Hinv
    as [(e & [= <-] & He & _)|(srcDir & paths & Hdir & Hne & Hinput & Hcase)];
    [done|].
  destruct Hcase as [Hnone|[Hcached|(pages & Hpages & Hload)]].
  - exfalso. unfold html_options in Hrun.
    rewrite Hdir, (bool_decide_eq_false_2 _ Hne), Hinput in Hrun. cbv zeta in Hrun.
    by rewrite (bool_decide_eq_true_2 _ Hnone) in Hrun.
  - exfalso. unfold html_options in Hrun.
    rewrite Hdir, (bool_decide_eq_false_2 _ Hne), Hinput in Hrun. cbv zeta in Hrun.
    case_bool_decide; [done|].
    cbn [hc_pages hc_scripts hc_html hc_js hc_css hc_img hc_input hc_srcDir] in Hrun.
    rewrite (bool_decide_eq_false_2 _ Hcached) in Hrun.
    cbn [reduce_to_record reduceToRecord mbind result_bind] in Hrun.
    by destruct (reduce (reducer srcDir) _ ∅).
  - destruct (decide (filter (λ f, is_html f) paths = [])) as [Hnone|Hhtml].
    { exfalso. unfold html_options in Hrun.
      rewrite Hdir, (bool_decide_eq_false_2 _ Hne), Hinput in Hrun.
      cbv zeta in Hrun.
      by rewrite (bool_decide_eq_true_2 _ Hnone) in Hrun. }
    rewrite (html_options_reload o options cache srcDir paths pages) in Hrun by done.
    cbv zeta in Hrun.
    destruct (html_forEach_mutate (html_browserPolyfill o) pages) as [Hpaths Hthrown].
    destruct (html_forEach _ pages) as [mutated [e|]]; cbn [fst snd] in *.
    { destruct Hthrown as [-> _]. done. }
    case_bool_decide as Hentries.
    2:{ destruct (reduce (reducer srcDir) _ ∅); done. }
    injection Hrun as <-.
    unfold html_options. rewrite Hdir, (bool_decide_eq_false_2 _ Hne), Hinput.
    cbv zeta. rewrite (bool_decide_eq_false_2 _ Hhtml).
    cbn [hc_pages hc_scripts hc_html hc_js hc_css hc_img hc_input hc_srcDir].
    rewrite bool_decide_eq_false_2.
    + rewrite Hentries.
      by cbn [reduce_to_record reduceToRecord mbind result_bind reduce].
    + intros ->. apply (f_equal length) in Hpaths.
      rewrite !length_fmap, (html_mapM_length _ _ _ Hload) in Hpaths.
      by destruct (filter (λ f, is_html f) paths).
Qed.

(** X25. The input the hook returns when it has read the pages anew:
    a record, not empty, whose entries are the inputs that are no pages
    and the sources of the scripts of the pages, each under its name.
    No page of the input is an entry unless a page names it as a
    script. The hook returns only when every script it selects in the
    pages has a source: a script without one makes the rewriting of the
    pages throw. The cache then holds a page for each page of the
    input, with its scripts rewritten. *)
Theorem html_options_entries (o : HtmlInputsOptions) (options r : RollupOptions)
    (cache cache' : HtmlCache) (paths : list string) :
  hc_pages cache = [] →
  input_array (input options) = inr paths →
  filter (λ f, is_html f) paths ≠ [] →
  html_options o options cache = (cache', inr r) →
  ∃ srcDir record,
    html_srcDir o = Some srcDir
    ∧ r = set_input (InputObject record) options
    ∧ record ≠ ∅
    ∧ hc_html cache' = filter (λ f, is_html f) paths
    ∧ page_filePath <$> hc_pages cache' = hc_html cache'
    ∧ (∀ v, v ∈ hc_js cache'
            ↔ ∃ f document src,
                f ∈ paths ∧ is_html f = true
                ∧ read_html f = Some document
                ∧ Some src ∈ script_src_attrs document
                ∧ v = getRelativePath
                        {| page_document := document; page_filePath := f;
                           page_rootPath := srcDir |} src)
    ∧ (∀ p, (p ∈ paths ∧ is_html p = false) ∨ p ∈ hc_js cache' →
            record !! entry_name srcDir p = Some p)
    ∧ (∀ k v, record !! k = Some v →
              (v ∈ paths ∧ is_html v = false) ∨ v ∈ hc_js cache')
    ∧ (∀ f document,
         f ∈ paths → is_html f = true → read_html f = Some document →
         None ∉ script_src_attrs document)
    ∧ (∀ page, page ∈ hc_pages cache'
               ↔ ∃ f document,
                   f ∈ paths ∧ is_html f = true ∧ read_html f = Some document
                   ∧ page = {| page_document :=
                                 mutate_script_elems (html_browserPolyfill o) document;
                               page_filePath := f; page_rootPath := srcDir |}).
Proof.
  intros Hpages Hinput Hhtml Hrun. pose proof Hrun as Hinv.
  apply html_options_inv in Hinv
    as [(e & [= ] & _)|(srcDir & paths' & Hdir & Hne & Hinput' & Hcase)].
  rewrite Hinput in Hinput'. injection Hinput' as <-.
  destruct Hcase as [Hnone|[Hcached|(pages & _ & Hload)]]; [done|done|].
  rewrite (html_options_reload o options cache srcDir paths pages) in Hrun by done.
  cbv zeta in Hrun.
  destruct (html_forEach_mutate (html_browserPolyfill o) pages) as [Hsame Hthrown].
  destruct (html_forEach _ pages) as [mutated [e|]]; cbn [fst snd] in *; [done|].
  destruct Hthrown as [Hsrc ->].
  case_bool_decide as Hentries; [done|].
  destruct (reduce (reducer srcDir) _ ∅) as [record|e] eqn:Hreduce; [|done].
  injection Hrun as <- <-.
  apply reduce_Ok in Hreduce as (Hin & _ & Hfrom).
  destruct (html_mapM_loadHtml _ _ _ Hload) as [Hpaths _].
  exists srcDir, record.
  cbn [hc_pages hc_scripts hc_html hc_js hc_css hc_img hc_input hc_srcDir].
  assert (∀ p, p ∈ filter (λ f, ¬ is_html f) paths ++ pages ≫= getScriptSrc
               ↔ (p ∈ paths ∧ is_html p = false) ∨ p ∈ pages ≫= getScriptSrc)
    as Hentry.
  { intros p. rewrite elem_of_app, list_elem_of_filter.
    destruct (is_html p); cbn; intuition congruence. }
  split_and!; try done.
  - intros ->.
    destruct (filter (λ f, ¬ is_html f) paths ++ pages ≫= getScriptSrc)
      as [|p ?] eqn:Heq; [done|].
    specialize (Hin p (list_elem_of_here _ _)). by rewrite lookup_empty in Hin.
  - rewrite Hsame. exact Hpaths.
  - intros v. rewrite list_elem_of_bind. unfold getScriptSrc. split.
    + intros (page & (src & -> & Hsrc'%elem_of_defined)%list_elem_of_fmap & Hpage).
      apply (html_mapM_pages _ _ _ Hload) in Hpage
        as (f & document & [Hhtml' Hf]%list_elem_of_filter & Hread & ->).
      exists f, document, src. split_and!; try done. by apply Is_true_true.
    + intros (f & document & src & Hf & Hhtml' & Hread & Hsrc' & ->).
      eexists. split.
      * apply list_elem_of_fmap. exists src. split; [reflexivity|].
        by apply elem_of_defined.
      * apply (html_mapM_pages _ _ _ Hload). exists f, document.
        split_and!; try done. apply list_elem_of_filter. split; [|done].
        by apply Is_true_true.
  - intros p Hp. by apply Hin, Hentry.
  - intros k v [Hv|Hv]%Hfrom; [by apply Hentry|by rewrite lookup_empty in Hv].
  - intros f document Hf Hhtml' Hread.
    rewrite Forall_forall in Hsrc.
    apply (Hsrc {| page_document := document; page_filePath := f;
                   page_rootPath := srcDir |}).
    apply (html_mapM_pages _ _ _ Hload). exists f, document.
    split_and!; try done. apply list_elem_of_filter. split; [|done].
    by apply Is_true_true.
  - intros page. rewrite list_elem_of_fmap. split.
    + intros (loaded & -> & Hloaded).
      apply (html_mapM_pages _ _ _ Hload) in Hloaded
        as (f & document & [Hhtml' Hf]%list_elem_of_filter & Hread & ->).
      exists f, document. split_and!; try done. by apply Is_true_true.
    + intros (f & document & Hf & Hhtml' & Hread & ->).
      exists {| page_document := document; page_filePath := f;
                page_rootPath := srcDir |}.
      split; [done|]. apply (html_mapM_pages _ _ _ Hload). exists f, document.
      split_and!; try done. apply list_elem_of_filter. split; [|done].
      by apply Is_true_true.
Qed.

Lemma html_mapM_readable (srcDir : string) (html : list string) :
  (∀ f, f ∈ html → is_Some (read_html f)) →
  ∃ pages, html_mapM (loadHtml srcDir) html = inr pages.
Proof.
  induction html as [|x html IH]; intros Hread; cbn [html_mapM]; [by eexists|].
  unfold loadHtml at 1. destruct (Hread x) as [document ->]; [left|].
  destruct IH as [pages ->]; [|by eexists].
  intros f Hf. apply Hread. by right.
Qed.

(** X29. A script without a source. When the hook reads the pages anew,
    every page can be read and one of them has a selected script
    without [src], the hook throws the [TypeError] of the rewriting of
    the pages, whatever scripts the pages have besides. The pages, the
    sources of their scripts and the inputs are in the cache by then,
    so the same call again reads and rewrites no page: it goes on to
    the record of the inputs. *)
Theorem html_options_script_without_src (o : HtmlInputsOptions)
    (options : RollupOptions) (cache : HtmlCache) (srcDir f : string)
    (paths : list string) (document : Document) :
  html_srcDir o = Some srcDir → srcDir ≠ EmptyString →
  input_array (input options) = inr paths →
  hc_pages cache = [] →
  (∀ p, p ∈ paths → is_html p = true → is_Some (read_html p)) →
  f ∈ paths → is_html f = true → read_html f = Some document →
  None ∈ script_src_attrs document →
  ∃ cache',
    html_options o options cache = (cache', inl ScriptSrcUndefined)
    ∧ page_filePath <$> hc_pages cache' = filter (λ f, is_html f) paths
    ∧ hc_input cache' = filter (λ f, ¬ is_html f) paths ++ hc_js cache'
    ∧ html_options o options cache'
      = (cache',
         match reduce_to_record (Some srcDir) (hc_input cache') ∅ with
         | Throw e => inl (EntryError e)
         | Ok record => inr (set_input (InputObject record) options)
         end).
Proof.
  intros Hdir Hne Hinput Hpages Hreadable Hf Hhtml Hread Hsrc.
  assert (f ∈ filter (λ f, is_html f) paths) as Hin.
  { apply list_elem_of_filter. split; [by apply Is_true_true|done]. }
  assert (filter (λ f, is_html f) paths ≠ []) as Hsome.
  { intros Hnone. rewrite Hnone in Hin. by apply elem_of_nil in Hin. }
  destruct (html_mapM_readable srcDir (filter (λ f, is_html f) paths))
    as [pages Hload].
  { intros p [Hp Hin']%list_elem_of_filter. apply Hreadable; [done|].
    by apply Is_true_true. }
  rewrite (html_options_reload o options cache srcDir paths pages) by done.
  cbv zeta.
  destruct (html_forEach_mutate (html_browserPolyfill o) pages) as [Hsame Hthrown].
  destruct (html_mapM_loadHtml _ _ _ Hload) as [Hpaths _].
  destruct (html_forEach _ pages) as [mutated [e|]]; cbn [fst snd] in *.
  - destruct Hthrown as [-> _]. eexists. split; [reflexivity|].
    cbn [hc_pages hc_input hc_js]. split_and!; [by rewrite Hsame|done|].
    unfold html_options. rewrite Hdir, (bool_decide_eq_false_2 _ Hne), Hinput.
    cbv zeta. rewrite (bool_decide_eq_false_2 _ Hsome).
    cbn [hc_pages hc_scripts hc_html hc_js hc_css hc_img hc_input hc_srcDir].
    rewrite bool_decide_eq_false_2;
      [cbn [hc_input]; by destruct (reduce_to_record _ _ _)|].
    intros ->. apply (f_equal length) in Hsame.
    rewrite !length_fmap, (html_mapM_length _ _ _ Hload) in Hsame.
    by destruct (filter (λ f, is_html f) paths).
  - exfalso. destruct Hthrown as [Hall _]. rewrite Forall_forall in Hall.
    apply (Hall {| page_document := document; page_filePath := f;
                   page_rootPath := srcDir |}); [|done].
    apply (html_mapM_pages _ _ _ Hload). by exists f, document.
Qed.

End HtmlInputsFacts.

(** ** The version taken from the package *)

Section PackageVersion.

Lemma digit_runs_digits (cur digits rest : string) :
  only_digits digits = true →
  digit_runs cur (digits +:+ rest) = digit_runs (cur +:+ digits) rest.
Proof.
  revert cur. induction digits as [|c digits IH]; intros cur Hdigits.
  - by rewrite append_empty_r.
  - cbn [only_digits] in Hdigits. apply andb_true_iff in Hdigits as [Hc Hdigits].
    rewrite append_cons. cbn [digit_runs]. rewrite Hc, (IH _ Hdigits).
    by rewrite append_assoc.
Qed.

Lemma digit_runs_separated (separated : list string) :
  Forall version_part separated →
  digit_runs EmptyString (Js.join "." separated) = separated.
Proof.
  induction 1 as [|r rest [Hne Hdigits] Hrest IH]; [done|].
  destruct rest as [|r' rest].
  - cbn [Js.join]. rewrite <- (append_empty_r r) at 1.
    rewrite (digit_runs_digits _ _ _ Hdigits). cbn [digit_runs].
    by rewrite bool_decide_eq_false_2.
  - change (Js.join "." (r :: r' :: rest))
      with (r +:+ "." +:+ Js.join "." (r' :: rest)).
    rewrite (digit_runs_digits _ _ _ Hdigits).
    change ("." +:+ Js.join "." (r' :: rest))
      with (String "." (Js.join "." (r' :: rest))).
    cbn [digit_runs]. change (is_digit ".") with false. cbv iota.
    rewrite bool_decide_eq_false_2 by done. by rewrite IH.
Qed.

Lemma keep_digits_cons (c : ascii) (gap : string) :
  keep_digits (String c gap) = EmptyString →
  is_digit c = false ∧ keep_digits gap = EmptyString.
Proof. cbn [keep_digits]. by destruct (is_digit c). Qed.

(** What holds no digit ends the run that was being read. *)
Lemma digit_runs_gap (cur gap s : string) :
  keep_digits gap = EmptyString →
  digit_runs cur (gap +:+ s)
  = if bool_decide (gap = EmptyString) then digit_runs cur s
    else (if bool_decide (cur = EmptyString) then [] else [cur])
           ++ digit_runs EmptyString s.
Proof.
  destruct gap as [|c gap]; [done|].
  intros [Hc Hgap]%keep_digits_cons. rewrite bool_decide_eq_false_2 by done.
  rewrite append_cons. cbn [digit_runs]. rewrite Hc. f_equal.
  clear c Hc. induction gap as [|c gap IH]; [done|].
  apply keep_digits_cons in Hgap as [Hc Hgap].
  rewrite append_cons. cbn [digit_runs]. rewrite Hc. by apply IH.
Qed.

Lemma digit_runs_maximal (runs : list (string * string)) :
  maximal_runs runs → digit_runs EmptyString (separated_runs runs) = runs.*1.
Proof.
  induction runs as [|[r gap] runs IH]; [done|].
  intros ([Hne Hdigits] & Hgap & Hlast & Hruns). cbn [separated_runs fmap list_fmap fst].
  rewrite (digit_runs_digits _ _ _ Hdigits), (digit_runs_gap _ _ _ Hgap).
  change (EmptyString +:+ r) with r. case_bool_decide as Hempty.
  - destruct runs as [|run runs]; [|by destruct Hlast].
    cbn. by rewrite bool_decide_eq_false_2.
  - rewrite bool_decide_eq_false_2 by done. cbn [app]. f_equal. by apply IH.
Qed.

Lemma version_part_cons (c : ascii) (r : string) :
  is_digit c = true → only_digits r = true → version_part (String c r).
Proof. intros Hc Hr. split; [done|]. cbn [only_digits]. by rewrite Hc, Hr. Qed.

(** Every text has such a cut. *)
Lemma maximal_runs_exist (s : string) :
  ∃ lead runs,
    keep_digits lead = EmptyString ∧ maximal_runs runs
    ∧ s = lead +:+ separated_runs runs.
Proof.
  induction s as [|c s (lead & runs & Hlead & Hruns & ->)].
  - by exists EmptyString, [].
  - destruct (is_digit c) eqn:Hc.
    + destruct lead as [|d lead].
      * destruct runs as [|[r gap] runs].
        -- exists EmptyString, [(String c EmptyString, EmptyString)].
           split_and!; [done| |done].
           cbn [maximal_runs]. split_and!; [by apply version_part_cons|done..].
        -- destruct Hruns as ([Hne Hdigits] & Hgap & Hlast & Hruns).
           exists EmptyString, ((String c r, gap) :: runs).
           split_and!; [done| |done].
           cbn [maximal_runs]. split_and!; [by apply version_part_cons|done..].
      * exists EmptyString, ((String c EmptyString, String d lead) :: runs).
        split_and!; [done| |done].
        cbn [maximal_runs]. split_and!; [by apply version_part_cons|done..].
    + exists (String c lead), runs. split_and!; [|done..].
      cbn [keep_digits]. by rewrite Hc.
Qed.

Lemma pkg_digits_cut (lead : string) (runs : list (string * string)) (p : Pkg) :
  keep_digits lead = EmptyString → maximal_runs runs →
  default EmptyString (pkg_version p) = lead +:+ separated_runs runs →
  pkg_digits p = Js.join "." (runs.*1).
Proof.
  intros Hlead Hruns Hversion. unfold pkg_digits. rewrite Hversion.
  rewrite (digit_runs_gap _ _ _ Hlead), (digit_runs_maximal _ Hruns).
  by case_bool_decide.
Qed.

(** X26. The version the manifest gets from the package when it has
    none of its own: the maximal runs of digits of the package version,
    in order and joined by dots, whatever stands between them and
    however many they are. However the version is cut into runs of
    digits and gaps without a digit, no gap but the last empty, the
    result is those runs joined by dots; every version has such a cut;
    a version that is already made of runs of digits and dots is taken
    as it is, and a package without a version gives the empty
    string. *)
Theorem pkg_digits_spec (p : Pkg) :
  (∀ lead runs,
     keep_digits lead = EmptyString → maximal_runs runs →
     default EmptyString (pkg_version p) = lead +:+ separated_runs runs →
     pkg_digits p = Js.join "." (runs.*1))
  ∧ (∃ lead runs,
       keep_digits lead = EmptyString ∧ maximal_runs runs
       ∧ default EmptyString (pkg_version p) = lead +:+ separated_runs runs
       ∧ pkg_digits p = Js.join "." (runs.*1))
  ∧ (∀ separated,
       Forall version_part separated →
       pkg_version p = Some (Js.join "." separated) →
       pkg_digits p = Js.join "." separated)
  ∧ (pkg_version p = None → pkg_digits p = EmptyString).
Proof.
  split_and!.
  - intros lead runs. apply pkg_digits_cut.
  - destruct (maximal_runs_exist (default EmptyString (pkg_version p)))
      as (lead & runs & Hlead & Hruns & Hversion).
    exists lead, runs. split_and!; try done. by apply (pkg_digits_cut lead).
  - intros separated Hseparated Hversion. unfold pkg_digits. rewrite Hversion.
    cbn [default from_option id]. by rewrite digit_runs_separated.
  - intros Hversion. unfold pkg_digits. by rewrite Hversion.
Qed.

(** The runs end where the digits do, not only at dots. *)
Example pkg_digits_runs :
  pkg_digits {| pkg_name := None; pkg_version := Some "v1.2.3-beta4";
                pkg_description := None |}
  = Js.join "." ([("1", "."); ("2", "."); ("3", "-beta"); ("4", "")].*1)
  ∧ maximal_runs [("1", "."); ("2", "."); ("3", "-beta"); ("4", "")]
  ∧ "v1.2.3-beta4"
    = "v" +:+ separated_runs [("1", "."); ("2", "."); ("3", "-beta"); ("4", "")]
  ∧ Js.join "." ([("1", "."); ("2", "."); ("3", "-beta"); ("4", "")].*1) = "1.2.3.4".
Proof.
  assert (maximal_runs [("1", "."); ("2", "."); ("3", "-beta"); ("4", "")]) as Hruns.
  { cbn [maximal_runs]. split_and!; try done; by apply version_part_cons. }
  split_and!; [|exact Hruns|reflexivity|reflexivity].
  by apply (pkg_digits_cut "v").
Qed.

(** A pre-release version loses what is not a digit, and gets a fourth
    and a fifth part. *)
Example pkg_digits_prerelease :
  pkg_digits {| pkg_name := None; pkg_version := Some "1.2.3-beta.4+build5";
                pkg_description := None |}
  = "1.2.3.4.5".
Proof. vm_compute. reflexivity. Qed.

End PackageVersion.

(** ** The order of the inputs *)

Section EntryOrder.
Context `{Pf : Platform}.

Lemma has_property_insert (name other value : string) (record : gmap string string) :
  has_property name (<[other := value]> record) = false
  ↔ name ≠ other ∧ has_property name record = false.
Proof.
  unfold has_property. rewrite !orb_false_iff, !bool_decide_eq_false.
  rewrite <- !eq_None_not_Some. split.
  - intros [Hlookup Hproto]. apply lookup_insert_None in Hlookup as [? ?]. done.
  - intros (Hne & Hlookup & Hproto). split; [|done].
    apply lookup_insert_None. done.
Qed.

Lemma reduce_Permutation (dir : string) (paths1 paths2 : list string) :
  paths1 ≡ₚ paths2 →
  ∀ init r, reduce (reducer dir) paths1 init = Ok r →
            reduce (reducer dir) paths2 init = Ok r.
Proof.
  induction 1 as [|x l1 l2 _ IH|x y l|l1 l2 l3 _ IH1 _ IH2]; intros init r.
  - done.
  - rewrite !reduce_cons. destruct (reducer dir init x); [apply IH|done].
  - rewrite !reduce_cons. unfold reducer. cbv zeta.
    destruct (has_property (entry_name dir y) init) eqn:Hy; [done|].
    cbn [mbind result_bind]. rewrite reduce_cons.
    destruct (has_property (entry_name dir x) (<[entry_name dir y := y]> init))
      eqn:Hx; [done|].
    apply has_property_insert in Hx as [Hne Hx]. rewrite Hx.
    rewrite reduce_cons.
    assert (has_property (entry_name dir y) (<[entry_name dir x := x]> init) = false)
      as -> by (apply has_property_insert; split; [congruence|done]).
    by rewrite insert_insert_ne by done.
  - intros H1. by apply IH2, IH1.
Qed.

(** X27. The record of inputs does not depend on the order of the
    paths: when the reduction of a list returns a record, the reduction
    of the same paths in any other order returns the same record, and
    when it throws, so does the other, though it may be for another
    pair of paths. *)
Theorem reduce_to_record_order (srcDir : option string) (paths1 paths2 : list string)
    (init : gmap string string) :
  paths1 ≡ₚ paths2 →
  (∀ r, reduce_to_record srcDir paths1 init = Ok r
        ↔ reduce_to_record srcDir paths2 init = Ok r)
  ∧ ((∃ e, reduce_to_record srcDir paths1 init = Throw e)
     ↔ ∃ e, reduce_to_record srcDir paths2 init = Throw e).
Proof.
  intros Hperm.
  assert (∀ r, reduce_to_record srcDir paths1 init = Ok r
               ↔ reduce_to_record srcDir paths2 init = Ok r) as Hsame.
  { intros r. destruct srcDir as [dir|]; [|done].
    cbn [reduce_to_record reduceToRecord mbind result_bind].
    split; by apply reduce_Permutation. }
  split; [done|].
  destruct (reduce_to_record srcDir paths1 init) as [r1|e1] eqn:H1;
    destruct (reduce_to_record srcDir paths2 init) as [r2|e2] eqn:H2.
  - split; by intros [? ?].
  - pose proof (proj1 (Hsame r1) eq_refl). done.
  - pose proof (proj2 (Hsame r2) eq_refl). done.
  - split; by eexists.
Qed.

End EntryOrder.

(** ** Splitting and joining *)

Section SplitJoin.

Lemma split_go_not_nil (sep : string) (skip : nat) (cur s : string) :
  Js.split_go sep skip cur s ≠ [].
Proof.
  revert skip cur. induction s as [|c s IH]; intros skip cur; [done|].
  cbn [Js.split_go]. destruct skip; [|apply IH].
  destruct (String.prefix sep (String c s)); [done|apply IH].
Qed.

Lemma join_cons (sep x : string) (l : list string) :
  l ≠ [] → Js.join sep (x :: l) = x +:+ sep +:+ Js.join sep l.
Proof. by destruct l. Qed.

Lemma join_split_go (sep : string) (n : nat) :
  sep ≠ EmptyString →
  ∀ s cur, (String.length s ≤ n)%nat →
           Js.join sep (Js.split_go sep 0 cur s) = cur +:+ s.
Proof.
  intros Hsep. induction n as [|n IH]; intros s cur Hlen.
  - destruct s; [|cbn in Hlen; lia]. cbn. by rewrite append_empty_r.
  - destruct s as [|c s]; [cbn; by rewrite append_empty_r|].
    cbn [Js.split_go]. cbn [String.length] in Hlen.
    destruct (String.prefix sep (String c s)) eqn:Hmatch.
    + apply prefix_slice in Hmatch.
      destruct sep as [|c0 sep']; [done|].
      rewrite append_cons in Hmatch. injection Hmatch as <- Hs.
      cbn [String.length]. rewrite Nat.sub_succ, Nat.sub_0_r.
      rewrite Hs, split_go_skip. rewrite join_cons by apply split_go_not_nil.
      rewrite IH.
      * cbn [String.append]. by rewrite append_cons.
      * rewrite Hs, length_append in Hlen. lia.
    + rewrite IH by lia. by rewrite append_assoc.
Qed.

(** X28. Joining what a split gave, with the separator of the split,
    gives the string back. So the first step on the template of the
    chunk file names changes nothing, and the pattern for the chunks is
    the template with the first [[format]], the first [[name]] and the
    first [[hash]] replaced by a star. *)
Theorem split_join (s : string) :
  (∀ sep, sep ≠ EmptyString → Js.join sep (Js.split sep s) = s)
  ∧ chunk_glob s
    = Js.replace "[hash]" "*" (Js.replace "[name]" "*" (Js.replace "[format]" "*" s)).
Proof.
  assert (∀ sep, sep ≠ EmptyString → Js.join sep (Js.split sep s) = s) as Hjoin.
  { intros sep Hsep. unfold Js.split.
    by rewrite (join_split_go sep (String.length s) Hsep s EmptyString). }
  split; [done|]. unfold chunk_glob. by rewrite Hjoin.
Qed.

End SplitJoin.

(** ** The [chrome-extension] plugin *)

Section ChromeExtensionFacts.
Context `{Pf : Platform} `{Co : Collaborators} `{Ch : Cheerio}.

(** X24. The error that no page has a script is thrown once. When the
    hook of the page plugin throws it, the pages are already in its
    cache, so the same call again, with no change to a page or the
    manifest in between, reads no page and returns the options with an
    empty record for their input. The hook of [chromeExtension] throws
    its own error in place of that one, and it too returns options
    with an empty record when it is called again. *)
Theorem html_options_throws_once (cfg : PluginOptions) (o : HtmlInputsOptions)
    (browserPolyfill : BrowserPolyfill) :
  (∀ options cache cache',
     html_options o options cache = (cache', inl NoScriptInHtml) →
     html_options o options cache'
     = (cache', inr (set_input (InputObject ∅) options)))
  ∧ (∀ s s',
       chromeExtension_options cfg browserPolyfill s = (s', inl NoScriptOrHtmlFile) →
       ∃ result,
         chromeExtension_options cfg browserPolyfill s' = (s', inr result)
         ∧ input result = InputObject ∅).
Proof.
  split; [intros options cache cache'; apply html_options_retry|].
  intros s s'. unfold chromeExtension_options at 1.
  destruct (run (options_hook cfg) (manifest_state s)) as [ms [result|e]] eqn:Hpass;
    [|done].
  cbv zeta.
  destruct (html_options _ result (html_cache s)) as [hc [e|result']] eqn:Hhtml;
    [|done].
  destruct e; try done. intros [= <-].
  apply options_hook_settled in Hpass as [Hcached Hfinished].
  apply html_options_retry in Hhtml.
  unfold chromeExtension_options. cbn [manifest_state html_cache].
  rewrite options_hook_finished, (bool_decide_eq_true_2 _ Hcached).
  cbn [run mret se_ret]. rewrite Hfinished. cbv zeta. rewrite Hhtml.
  by eexists.
Qed.

End ChromeExtensionFacts.

(** ** The properties on examples *)

Section FurtherExamples.
#[local] Existing Instance posix_src.
#[local] Existing Instance PlainJson.json.
#[local] Existing Instance wrappers_in_assets.

Lemma getInputManifestPath_array_witness :
  getInputManifestPath
    {| input := InputArray ["src/a.ts"; "src/manifest.json"; "src/manifest.dev.json"];
       output := None |}
  = Ok {| inputManifestPath := "src/manifest.json";
          found_inputAry := Some ["src/a.ts"; "src/manifest.dev.json"];
          found_inputObj := None |}.
Proof.
  rewrite (getInputManifestPath_array
             {| input := InputArray ["src/a.ts"; "src/manifest.json";
                                     "src/manifest.dev.json"];
                output := None |}
             ["src/a.ts"] ["src/manifest.dev.json"] "src/manifest.json").
  - reflexivity.
  - reflexivity.
  - constructor; [vm_compute; reflexivity|constructor].
  - vm_compute. reflexivity.
Defined.

Lemma getInputManifestPath_not_in_input_witness :
  getInputManifestPath
    {| input := InputArray ["src/a.ts"; "src/b.html"]; output := None |}
  = Throw ManifestNotInInput.
Proof.
  apply (getInputManifestPath_not_in_input
           {| input := InputArray ["src/a.ts"; "src/b.html"]; output := None |}).
  cbn [input].
  constructor; [vm_compute; reflexivity|].
  constructor; [vm_compute; reflexivity|constructor].
Defined.

Lemma getInputManifestPath_object_witness :
  ∃ rest,
    getInputManifestPath
      {| input := InputObject {["manifest" := "src/manifest.json"; "main" := "src/main.ts"]};
         output := None |}
    = Ok {| inputManifestPath := "src/manifest.json"; found_inputAry := None;
            found_inputObj := Some rest |}
    ∧ rest !! "manifest" = None
    ∧ ∀ k, k ≠ "manifest" →
           rest !! k
           = ({["manifest" := "src/manifest.json"; "main" := "src/main.ts"]}
                : gmap string string) !! k.
Proof.
  apply (getInputManifestPath_object
           {| input := InputObject {["manifest" := "src/manifest.json";
                                     "main" := "src/main.ts"]};
              output := None |}
           {["manifest" := "src/manifest.json"; "main" := "src/main.ts"]}
           "src/manifest.json").
  - reflexivity.
  - vm_compute. reflexivity.
  - vm_compute. reflexivity.
Defined.

Lemma options_hook_input_witness :
  ∃ s' r,
    run (options_hook (Co := loading manifest_with_content_script) plugin_defaults)
      (fresh (options_with None)) = (s', Ok r)
    ∧ ∃ dir record,
        Cache.srcDir (hs_cache s') = Some dir
        ∧ r = set_input (InputObject record) (hs_options s')
        ∧ record ≠ ∅
        ∧ (∀ p, p ∈ Cache.input (hs_cache s') → record !! entry_name dir p = Some p)
        ∧ (∀ k v, record !! k = Some v →
             v ∈ Cache.input (hs_cache s') ∨ Cache.inputObj (hs_cache s') !! k = Some v).
Proof.
  destruct (run (options_hook (Co := loading manifest_with_content_script)
                   plugin_defaults) (fresh (options_with None)))
    as [s' [r|e]] eqn:Hrun.
  - exists s', r. split; [reflexivity|].
    exact (options_hook_input (Co := loading manifest_with_content_script)
             plugin_defaults (fresh (options_with None)) s' r Hrun).
  - vm_compute in Hrun. discriminate Hrun.
Defined.

Lemma options_hook_idempotent_witness :
  ∃ s' r,
    run (options_hook (Co := loading manifest_with_content_script) plugin_defaults)
      (fresh (options_with None)) = (s', Ok r)
    ∧ run (options_hook (Co := loading manifest_with_content_script) plugin_defaults) s'
      = (s', Ok r).
Proof.
  destruct (run (options_hook (Co := loading manifest_with_content_script)
                   plugin_defaults) (fresh (options_with None)))
    as [s' [r|e]] eqn:Hrun.
  - exists s', r. split; [reflexivity|].
    exact (options_hook_idempotent (Co := loading manifest_with_content_script)
             plugin_defaults (fresh (options_with None)) s' r Hrun).
  - vm_compute in Hrun. discriminate Hrun.
Defined.

Lemma options_hook_throws_witness :
  ∃ s' e,
    run (options_hook (Co := loading one_name_twice) plugin_defaults)
      (fresh (options_with None)) = (s', Throw e)
    ∧ (Cache.manifest (hs_cache s') = None
       ∨ (is_Some (Cache.manifest (hs_cache s'))
          ∧ ∃ filename name, e = ScriptNamesShared filename name)).
Proof.
  destruct (run (options_hook (Co := loading one_name_twice) plugin_defaults)
              (fresh (options_with None)))
    as [s' [r|e]] eqn:Hrun.
  - vm_compute in Hrun. discriminate Hrun.
  - exists s', e. split; [reflexivity|].
    exact (options_hook_throws (Co := loading one_name_twice) plugin_defaults
             (fresh (options_with None)) s' e eq_refl Hrun).
Defined.

(** The pass over the manifest with a script and a page of one name
    throws after it has cached the manifest. *)
Example options_hook_name_clash :
  (run (options_hook (Co := loading one_name_twice) plugin_defaults)
     (fresh (options_with None))).2
  = Throw (ScriptNamesShared "src/main.html" "main")
  ∧ is_Some
      (Cache.manifest
         (hs_cache (run (options_hook (Co := loading one_name_twice) plugin_defaults)
                      (fresh (options_with None))).1)).
Proof. split; vm_compute; [reflexivity|by eexists]. Qed.

Lemma load_manifest_derives_witness :
  ∃ s',
    run (load_manifest (Co := loading manifest_with_content_script) plugin_defaults)
      (fresh (options_with None)) = (s', Ok ())
    ∧ Cache.input (hs_cache s') = ["src/content.ts"; "src/options.html"]
    ∧ Cache.assets (hs_cache s') = ["src/icon.png"]
    ∧ Cache.contentScripts (hs_cache s') = ["src/content.ts"].
Proof.
  destruct (run (load_manifest (Co := loading manifest_with_content_script)
                   plugin_defaults) (fresh (options_with None)))
    as [s' [[]|e]] eqn:Hrun.
  - exists s'. split; [reflexivity|].
    destruct (load_manifest_derives (Co := loading manifest_with_content_script)
                plugin_defaults (fresh (options_with None)) s' eq_refl Hrun)
      as (found & config & filepath & Hfound & Hconfig & _ & Hderived).
    vm_compute in Hfound. injection Hfound as <-.
    vm_compute in Hconfig. injection Hconfig as <- <-.
    cbv zeta in Hderived. destruct Hderived as (Hin & Has & _ & Hcs).
    rewrite Hin, Has, Hcs. split_and!; vm_compute; reflexivity.
  - vm_compute in Hrun. discriminate Hrun.
Defined.

Lemma load_manifest_validated_witness :
  ∃ s',
    run (load_manifest (Co := loading manifest_with_content_script) plugin_defaults)
      (fresh (options_with None)) = (s', Ok ())
    ∧ ∃ updated,
        Cache.manifest (hs_cache s') = Some (MV3 updated)
        ∧ validator (Collaborators := loading manifest_with_content_script)
            (MV3 updated) = true
        ∧ v3_web_accessible_resources updated
          = Some [{| resources := ["chunks/*-*.js"; "content.ts"];
                     matches := ["https://example.com/*"] |}].
Proof.
  destruct (run (load_manifest (Co := loading manifest_with_content_script)
                   plugin_defaults) (fresh (options_with None)))
    as [s' [[]|e]] eqn:Hrun.
  - exists s'. split; [reflexivity|].
    destruct (load_manifest_validated (Co := loading manifest_with_content_script)
                plugin_defaults (fresh (options_with None)) s' Hrun)
      as (found & config & filepath & final & Hfound & Hconfig & Hm & Hvalid & _
          & Hfinal).
    vm_compute in Hfound. injection Hfound as <-.
    vm_compute in Hconfig. injection Hconfig as <- <-.
    cbv zeta in Hfinal. destruct Hfinal as (updated & Hupdated & ->).
    exists updated. split_and!; [done|done|].
    vm_compute in Hupdated. by injection Hupdated as <-.
  - vm_compute in Hrun. discriminate Hrun.
Defined.

Lemma deriveFiles_resources_witness :
  "src/style.css"
  ∈ d_css (deriveFiles (MV2 manifest_v2_sample) "src" {| opt_contentScripts := true |}).
Proof.
  destruct (deriveFiles_resources (MV2 manifest_v2_sample) "src"
              {| opt_contentScripts := true |} "style.css") as (Hcss & _).
  - vm_compute. right. left.
  - exact (Hcss eq_refl).
Defined.

(** The font of the sample is in none of the arrays, and so among the
    other files. *)
Example deriveFiles_others :
  d_others (deriveFiles (MV2 manifest_v2_sample) "src" {| opt_contentScripts := true |})
  = ["src/fonts/a.woff"].
Proof. vm_compute. reflexivity. Qed.

Lemma deriveFiles_default_icon_witness :
  "src/icon.png"
  ∈ d_img (deriveFiles (MV2 manifest_v2_sample) "src" {| opt_contentScripts := true |})
  ∧ "src/i"
    ∈ d_img (deriveFiles (MV3 manifest_v3_sample) "src" {| opt_contentScripts := true |}).
Proof.
  split.
  - destruct (deriveFiles_default_icon "src" "icon.png" {| opt_contentScripts := true |})
      as [Hv2 _].
    apply (Hv2 manifest_v2_sample). left. reflexivity.
  - destruct (deriveFiles_default_icon "src" "i.png" {| opt_contentScripts := true |})
      as [_ Hv3].
    apply (Hv3 manifest_v3_sample eq_refl "i"%char). vm_compute. left.
Defined.

(** The images derived for the MV3 sample: the characters of the path
    of its icon, each once. *)
Example deriveFiles_icon_characters :
  d_img (deriveFiles (MV3 manifest_v3_sample) "src" {| opt_contentScripts := true |})
  = ["src/i"; "src"; "src/p"; "src/n"; "src/g"].
Proof. vm_compute. reflexivity. Qed.

(** A no-break space and a line break between the namespace and the
    dot. *)
Lemma api_call_spec_witness :
  api_call "alarms" ("x = chrome" +:+ utf8 [194; 160]%nat +:+ "
    .alarms.create()") = true.
Proof.
  apply (api_call_spec "alarms" _ eq_refl).
  exists "x = ", "chrome", (utf8 [194; 160]%nat +:+ "
    "), EmptyString, ".create()".
  split_and!; [left|by apply whitespace_skipped|constructor|reflexivity].
Defined.

(** A byte order mark and a line separator around the dot are white
    space to the detector; a zero-width space, U+200B, is not. *)
Example alarms_unicode_space :
  Permissions.alarms
    ("chrome" +:+ utf8 [239; 187; 191]%nat +:+ "." +:+ utf8 [226; 128; 168]%nat
       +:+ "alarms") = true
  ∧ Permissions.alarms ("chrome" +:+ utf8 [226; 128; 139]%nat +:+ ".alarms") = false.
Proof. split; vm_compute; reflexivity. Qed.

Lemma generateBundle_permissions_witness :
  ∃ body,
    (generateBundle bundle_options (bundling cache_v2)).2 = inr (Some body)
    ∧ ∃ listed,
        permissions (v2_common (body_manifest body)) = Some listed
        ∧ NoDup listed
        ∧ ∀ p, p ∈ listed
               ↔ ((∃ code fn, code ∈ chunk_codes (without_stub bundle_sample)
                              ∧ (p, fn) ∈ Permissions.entries ∧ fn code = true)
                  ∨ p ∈ ["storage"; "!alarms"])
                 ∧ Js.startsWith "!" p = false
                 ∧ "!" +:+ p ∉ ["storage"; "!alarms"].
Proof.
  destruct (generateBundle bundle_options (bundling cache_v2)).2
    as [e|[body|]] eqn:Hrun.
  - vm_compute in Hrun. discriminate Hrun.
  - exists body. split; [reflexivity|].
    exact (generateBundle_permissions bundle_options (bundling cache_v2)
             manifest_v2_sample body eq_refl (or_introl eq_refl) Hrun).
  - vm_compute in Hrun. discriminate Hrun.
Defined.

(** The permissions of the body for the sample: those detected in the
    two chunks and that of the manifest, without the one it excludes;
    the code of the stub chunk is not looked at. *)
Example generateBundle_sample_permissions :
  (λ r, match r with
        | inr (Some body) => permissions (v2_common (body_manifest body))
        | _ => None
        end) (generateBundle bundle_options (bundling cache_v2)).2
  = Some ["tts"; "ttsEngine"; "cookies"; "storage"].
Proof. vm_compute. reflexivity. Qed.

Lemma generateBundle_after_asset_change_witness :
  ∃ body,
    (generateBundle bundle_options
       {| bs_cache := watchChange "src/icon.png" cache_v2_built;
          bs_bundle := bundle_sample; bs_warnings := [] |}).2
    = inr (Some body)
    ∧ permissions (v2_common (body_manifest body)) = Some ["cookies"; "storage"].
Proof.
  destruct (generateBundle_after_asset_change bundle_options "src/icon.png"
              cache_v2_built bundle_sample [] manifest_v2_sample ["alarms"; "cookies"])
    as (body & Hbody & Hperms & _).
  - vm_compute. reflexivity.
  - vm_compute. by eexists.
  - reflexivity.
  - vm_compute. discriminate.
  - vm_compute. reflexivity.
  - vm_compute. discriminate.
  - exists body. split; [exact Hbody|]. rewrite Hperms. vm_compute. reflexivity.
Defined.

Lemma generateBundle_again_witness :
  generateBundle bundle_options
    (generateBundle bundle_options (bundling cache_v2)).1
  = generateBundle bundle_options (bundling cache_v2).
Proof.
  apply (generateBundle_again bundle_options (bundling cache_v2) manifest_v2_sample).
  - reflexivity.
  - reflexivity.
  - vm_compute. discriminate.
  - vm_compute. discriminate.
Defined.

Lemma generateBundle_web_accessible_resources_witness :
  ∃ body paths,
    (generateBundle bundle_options (bundling cache_v2)).2 = inr (Some body)
    ∧ v2_web_accessible_resources (body_manifest body) = Some (slash <$> paths)
    ∧ NoDup paths
    ∧ ∀ p, p ∈ paths
           ↔ p ∈ ["fonts/a.woff"; "style.css"]
             ∨ p ∈ imported_chunks (without_stub bundle_sample)
             ∨ p ∈ ["content.ts"].
Proof.
  destruct (generateBundle bundle_options (bundling cache_v2)).2
    as [e|[body|]] eqn:Hrun.
  - vm_compute in Hrun. discriminate Hrun.
  - pose proof (generateBundle_web_accessible_resources bundle_options
                  (bundling cache_v2) manifest_v2_sample body eq_refl Hrun) as Hwar.
    cbn in Hwar. destruct Hwar as (paths & Hpaths).
    by exists body, paths.
  - vm_compute in Hrun. discriminate Hrun.
Defined.

Example generateBundle_sample_resources :
  (λ r, match r with
        | inr (Some body) => v2_web_accessible_resources (body_manifest body)
        | _ => None
        end) (generateBundle bundle_options (bundling cache_v2)).2
  = Some ["fonts/a.woff"; "style.css"; "chunks/shared.js"; "content.ts"].
Proof. vm_compute. reflexivity. Qed.

Lemma updateManifestV3_pattern_without_scheme_witness :
  convertMatchPatterns "<all_urls>"
  = Throw (RuntimeTypeError "rest.split: rest is undefined")
  ∧ ∃ e, (updateManifestV3 manifest_v3_sample (options_with None) true
            Cache.initial).2 = Throw e
         ∧ class_of e = IsTypeError.
Proof.
  apply (updateManifestV3_pattern_without_scheme manifest_v3_sample
           (options_with None) true Cache.initial
           [content_script ["<all_urls>"] ["content.ts"]] "<all_urls>").
  - reflexivity.
  - vm_compute. left.
  - vm_compute. reflexivity.
Defined.

Lemma convertMatchPatterns_origin_witness :
  convertMatchPatterns "https://example.com/foo/bar" = Ok "https://example.com/*".
Proof.
  change (convertMatchPatterns ("https" +:+ "://" +:+ "example.com" +:+ "/foo/bar")
          = Ok (unescape ("https" +:+ "://" +:+ "example.com" +:+ "/*"))).
  apply (convertMatchPatterns_origin "https" "example.com" "/foo/bar");
    vm_compute; reflexivity.
Defined.

Lemma convertMatchPatterns_wildcard_port_kept_witness :
  convertMatchPatterns "http://*.example.com:*/path" = Ok "http://*.example.com:*/*".
Proof.
  change (convertMatchPatterns ("http" +:+ "://" +:+ "*.example.com" +:+ ":*" +:+ "/path")
          = Ok (unescape ("http" +:+ "://" +:+ ("*.example.com" +:+ ":*") +:+ "/*"))).
  apply (convertMatchPatterns_wildcard_port_kept "http" "*.example.com" "/path");
    vm_compute; reflexivity.
Defined.

Lemma html_options_throws_once_witness :
  ∃ cache',
    html_options (Ch := pages_on_disk) html_inputs_options
      {| input := InputString "src/empty.html"; output := None |} html_cache_initial
    = (cache', inl NoScriptInHtml)
    ∧ html_options (Ch := pages_on_disk) html_inputs_options
        {| input := InputString "src/empty.html"; output := None |} cache'
      = (cache',
         inr (set_input (InputObject ∅)
                {| input := InputString "src/empty.html"; output := None |})).
Proof.
  assert (html_options (Ch := pages_on_disk) html_inputs_options
            {| input := InputString "src/empty.html"; output := None |}
            html_cache_initial
          = ((html_options (Ch := pages_on_disk) html_inputs_options
                {| input := InputString "src/empty.html"; output := None |}
                html_cache_initial).1,
             inl NoScriptInHtml)) as Hrun by (vm_compute; reflexivity).
  eexists. split; [exact Hrun|].
  destruct (html_options_throws_once (Co := loading only_a_page) (Ch := pages_on_disk)
              plugin_defaults html_inputs_options PolyfillOff) as [Honce _].
  exact (Honce _ _ _ Hrun).
Defined.

(** An extension whose manifest names one page, which has no script:
    the first pass of the hook of [chromeExtension] throws, the second
    returns an empty record of inputs. *)
Example chromeExtension_options_twice :
  let first :=
    chromeExtension_options (Co := loading only_a_page) (Ch := pages_on_disk)
      plugin_defaults PolyfillOff
      {| manifest_state := fresh (options_with None);
         html_cache := html_cache_initial |} in
  first.2 = inl NoScriptOrHtmlFile
  ∧ sum_map id input
      (chromeExtension_options (Co := loading only_a_page) (Ch := pages_on_disk)
         plugin_defaults PolyfillOff first.1).2
    = inr (InputObject ∅).
Proof. split; vm_compute; reflexivity. Qed.

Lemma html_options_entries_witness :
  ∃ cache' r record,
    html_options (Ch := pages_on_disk) html_inputs_options
      {| input := InputArray ["src/popup.html"; "src/background.ts"]; output := None |}
      html_cache_initial
    = (cache', inr r)
    ∧ input r = InputObject record
    ∧ record !! "popup" = Some "src/popup.ts"
    ∧ record !! "background" = Some "src/background.ts".
Proof.
  destruct (html_options (Ch := pages_on_disk) html_inputs_options
              {| input := InputArray ["src/popup.html"; "src/background.ts"];
                 output := None |} html_cache_initial)
    as [cache' [e|r]] eqn:Hrun.
  - vm_compute in Hrun. discriminate Hrun.
  - destruct (html_options_entries (Ch := pages_on_disk) html_inputs_options
                {| input := InputArray ["src/popup.html"; "src/background.ts"];
                   output := None |} r html_cache_initial cache'
                ["src/popup.html"; "src/background.ts"])
      as (srcDir & record & Hdir & -> & _ & _ & _ & Hjs & Hin & _).
    + reflexivity.
    + reflexivity.
    + vm_compute. discriminate.
    + exact Hrun.
    + injection Hdir as <-. eexists cache', _, record.
      split_and!; [reflexivity|reflexivity| |].
      * apply (Hin "src/popup.ts"). right. apply Hjs.
        exists "src/popup.html", [Some "popup.ts"], "popup.ts".
        split_and!; [left|reflexivity|reflexivity|left|reflexivity].
      * apply (Hin "src/background.ts"). left. split; [right; left|reflexivity].
Defined.

(** A page with an inline script between two scripts with a source:
    the first pass throws, with the first script of the page rewritten
    and the one after the inline script as it was; the second pass
    returns the record of the inputs. *)
Lemma html_options_script_without_src_witness :
  ∃ cache',
    html_options (Ch := pages_on_disk) html_inputs_options
      {| input := InputArray ["src/inline.html"; "src/background.ts"]; output := None |}
      html_cache_initial
    = (cache', inl ScriptSrcUndefined)
    ∧ page_document <$> hc_pages cache' = [[Some "main.js"; None; Some "late.ts"]]
    ∧ sum_map id input
        (html_options (Ch := pages_on_disk) html_inputs_options
           {| input := InputArray ["src/inline.html"; "src/background.ts"];
              output := None |} cache').2
      = inr (InputObject {[ "background" := "src/background.ts";
                            "main" := "src/main.ts"; "late" := "src/late.ts" ]}).
Proof.
  destruct (html_options_script_without_src (Ch := pages_on_disk) html_inputs_options
              {| input := InputArray ["src/inline.html"; "src/background.ts"];
                 output := None |} html_cache_initial "src" "src/inline.html"
              ["src/inline.html"; "src/background.ts"]
              [Some "main.ts"; None; Some "late.ts"])
    as (cache' & Hrun & _ & _ & Hagain).
  - reflexivity.
  - discriminate.
  - reflexivity.
  - reflexivity.
  - intros p Hp Hhtml.
    apply elem_of_cons in Hp as [->|Hp]; [by eexists|].
    apply elem_of_cons in Hp as [->|Hp]; [discriminate Hhtml|].
    by apply elem_of_nil in Hp.
  - left.
  - reflexivity.
  - reflexivity.
  - right. left.
  - exists cache'. split; [exact Hrun|]. rewrite Hagain.
    vm_compute in Hrun. injection Hrun as <-. split; vm_compute; reflexivity.
Defined.

(** Two pages that load one script: its path is twice among the
    inputs, and the hook throws the error of script files that share a
    name. *)
Example html_options_shared_script :
  (html_options (Ch := pages_on_disk) html_inputs_options
     {| input := InputArray ["src/popup.html"; "src/options.html"]; output := None |}
     html_cache_initial).2
  = inl (EntryError (ScriptNamesShared "src/popup.ts" "popup")).
Proof. vm_compute. reflexivity. Qed.

Lemma reduce_to_record_order_witness :
  reduce_to_record (Some "src") ["src/b.ts"; "src/a.html"] ∅
  = reduce_to_record (Some "src") ["src/a.html"; "src/b.ts"] ∅.
Proof.
  destruct (reduce_to_record_order (Some "src") ["src/a.html"; "src/b.ts"]
              ["src/b.ts"; "src/a.html"] ∅) as [Hsame _]; [apply perm_swap|].
  destruct (reduce_to_record (Some "src") ["src/a.html"; "src/b.ts"] ∅)
    as [r|e] eqn:Hrun.
  - by apply Hsame.
  - vm_compute in Hrun. discriminate Hrun.
Defined.

End FurtherExamples.
